(** * The development-mode orchestrator of wails ([v2/cmd/wails/internal/dev/dev.go])

    A shallow embedding of [killProcessAndCleanupBinary], [restartApp], the
    body of [doWatcherLoop] and the stop function returned by
    [runFrontendDevWatcherCommand], together with the properties the
    specification states about them.

    The Go code talks to the operating system, to the builder, to fsnotify and
    to the running application.  These collaborators are not part of the file:
    their answers are fields of an environment record [Env], and everything the
    code does to them is appended, in program order, to the trace of the
    [World]. *)

From Stdlib Require Import ZArith List String Ascii Bool Lia.
From stdpp Require Import base gmap sets list strings.

Local Open Scope string_scope.
Local Open Scope list_scope.
Local Open Scope Z_scope.

(** ** Strings and paths (Go standard library, Unix flavour) *)

Module GoStrings.

(** [strings.HasPrefix(s, prefix)]. *)
Definition HasPrefix (s pre : string) : bool := String.prefix pre s.

(** [strings.Contains(s, substr)]: [substr] starts at some position of [s]. *)
Fixpoint Contains (s substr : string) : bool :=
  String.prefix substr s ||
  match s with
  | EmptyString => false
  | String _ rest => Contains rest substr
  end.

(** [strings.Split(s, sep)] for a one-character separator: the pieces
    between the separators; the empty string gives one empty piece. *)
Fixpoint Split_go (sep : ascii) (s : string) (piece : string) : list string :=
  match s with
  | EmptyString => [piece]
  | String c rest =>
      if Ascii.eqb c sep then piece :: Split_go sep rest ""
      else Split_go sep rest (piece +:+ String c "")
  end.

Definition Split (s : string) (sep : ascii) : list string := Split_go sep s "".

(** [strings.Join(elems, sep)]. *)
Definition Join (elems : list string) (sep : string) : string :=
  String.concat sep elems.

(** [os.IsPathSeparator] on Unix. *)
Definition IsPathSeparator (c : ascii) : bool := Ascii.eqb c "/".

(** The loop of [filepath.Ext], run over the path read from its end:
    [suffix] is what has been walked over so far. *)
Fixpoint Ext_scan (rpath : list ascii) (suffix : list ascii) : list ascii :=
  match rpath with
  | [] => []
  | c :: before =>
      if IsPathSeparator c then []
      else if Ascii.eqb c "." then c :: suffix
      else Ext_scan before (c :: suffix)
  end.

(** [filepath.Ext(path)]: the suffix from the last dot of the last element
    of [path], empty when there is no dot. *)
Definition Ext (path : string) : string :=
  string_of_list_ascii (Ext_scan (rev (list_ascii_of_string path)) []).

(** [s[1:]] for a non-empty string. *)
Definition tail (s : string) : string :=
  match s with
  | EmptyString => EmptyString
  | String _ rest => rest
  end.

End GoStrings.

(** ** The data of the dev command *)

(** [build.Options], as far as the dev command touches it. *)
Record BuildOptions := {
  IgnoreFrontend : bool;
  IgnoreApplication : bool;
  UserTags : list string;
}.

(** [flags.Dev], as far as [restartApp] and [doWatcherLoop] read it. *)
Record Dev := {
  AppArgs : string;
  LogLevel : string;
  AssetDir : string;
  DevServer : string;
  FrontendDevServerURL : string;
  DlvFlag : string;
  Extensions : string;
  ReloadDirs : string;
  Debounce : Z;
  NoGoRebuild : bool;
  NoReload : bool;
}.

(** [url.URL], reduced to the parts [joinPath] uses. *)
Record URL := { Scheme : string; Host : string; Path : string }.

(** A [*process.Process] is an address into the heap of process objects. *)
Definition ProcRef := nat.

(** A [process.Process] object: the command line it was made for, the PID it
    got at [Start] and its [Running] field. *)
Record Process := {
  command : string;
  args : list string;
  PID : nat;
  Running : bool;
}.

(** Errors of [os.Remove]. *)
Inductive OsError :=
| ErrNotExist
| ErrOther (msg : string).

(** Arguments of a formatted log line. *)
Inductive LogArg :=
| ArgS (s : string)
| ArgD (n : Z).

Inductive Colour := Green | Red | DarkYellow.

(** What the code does to the outside, in program order. *)
Inductive Effect :=
| EBuild (opts : BuildOptions) (result : string + string)
| EKill (p : ProcRef) (err : option string)
| EStart (p : ProcRef) (err : option string)
| ESetenv (key value : string)
| ERemove (path : string) (err : option OsError)
| EDeleteFile (path : string) (err : option string)
| EWatcherAdd (path : string) (err : option string)
| EHttpGet (url : string)
| ETimerReset (interval : Z)
| ELog (colour : Colour) (format : string) (fargs : list LogArg)
| EPrintln
| EFatal (format : string) (fargs : list LogArg).

(** The world outside the dev loop. *)
Record World := {
  dirs : gset string;            (* directories on disk *)
  files : gset string;           (* regular files on disk *)
  heap : gmap nat Process;       (* the process objects *)
  watched : gset string;         (* fsnotify's watch set *)
  environ : gmap string string;  (* os.Setenv *)
  trace : list Effect;           (* oldest effect first *)
}.

Definition emit (e : Effect) (w : World) : World :=
  {| dirs := dirs w; files := files w; heap := heap w; watched := watched w;
     environ := environ w; trace := trace w ++ [e] |}.

Definition set_files (fs : gset string) (w : World) : World :=
  {| dirs := dirs w; files := fs; heap := heap w; watched := watched w;
     environ := environ w; trace := trace w |}.

Definition set_heap (h : gmap nat Process) (w : World) : World :=
  {| dirs := dirs w; files := files w; heap := h; watched := watched w;
     environ := environ w; trace := trace w |}.

Definition set_watched (s : gset string) (w : World) : World :=
  {| dirs := dirs w; files := files w; heap := heap w; watched := s;
     environ := environ w; trace := trace w |}.

Definition set_environ (m : gmap string string) (w : World) : World :=
  {| dirs := dirs w; files := files w; heap := heap w; watched := watched w;
     environ := m; trace := trace w |}.

(** The result of [io.ReadAll(resp.Body)] after a successful [http.Get]. *)
Inductive HttpResult :=
| HttpError (msg : string)
| HttpBody (body : string + string).

(** The collaborators: each answer may depend on the world at the call.
    [build.Build], [fs.DeleteFile] and [initialiseWatcher] are code of the
    repository outside the sources at hand; the others are the operating
    system, the Go standard library, fsnotify and shlex. *)
Record Env := {
  build_Build : BuildOptions -> World -> string + string;
  os_kill : ProcRef -> World -> option string;
  cmd_Start : string -> list string -> World -> nat + string;
  shlex_Split : string -> list string + string;
  os_Remove : string -> World -> option OsError;
  fs_DeleteFile : string -> World -> option string;
  watcher_Add : string -> World -> option string;
  http_Get : string -> World -> HttpResult;
  filepath_Dir : string -> string;
  filepath_Abs : string -> World -> string + string;
  path_Join : string -> string -> string;
  URL_String : URL -> string;
  initialiseWatcher : string -> string -> World -> gset string + string;
  watcher_Close : World -> option string;
}.

(** ** Computations over a state that may end the process

    [Logger.Fatal] prints and exits, so nothing after it runs ([Exit]); a
    [continue] statement abandons the rest of the loop body ([Continue]). *)

Inductive Res (A : Type) :=
| Ok (a : A)
| Continue
| Exit.
Arguments Ok {A} a.
Arguments Continue {A}.
Arguments Exit {A}.

Definition M (S A : Type) : Type := S -> Res A * S.

Definition ret {S A} (a : A) : M S A := fun s => (Ok a, s).

Definition bind {S A B} (m : M S A) (k : A -> M S B) : M S B :=
  fun s => match m s with
           | (Ok a, s') => k a s'
           | (Continue, s') => (Continue, s')
           | (Exit, s') => (Exit, s')
           end.

Declare Scope dev_scope.
Delimit Scope dev_scope with dev.
Notation "x <- m ;; k" := (bind m (fun x => k))
  (at level 100, m at next level, right associativity) : dev_scope.
Notation "m ;;; k" := (bind m (fun _ => k))
  (at level 100, right associativity) : dev_scope.
Local Open Scope dev_scope.

(** Code that only touches the world. *)
Abbreviation IO := (M World).

Definition effect (e : Effect) : IO unit := fun w => (Ok tt, emit e w).

Definition LogGreen (format : string) (fargs : list LogArg) : IO unit :=
  effect (ELog Green format fargs).
Definition LogRed (format : string) (fargs : list LogArg) : IO unit :=
  effect (ELog Red format fargs).
Definition LogDarkYellow (format : string) (fargs : list LogArg) : IO unit :=
  effect (ELog DarkYellow format fargs).
Definition println : IO unit := effect EPrintln.

(** Modelled from the spec: [clilogger.CLILogger.Fatal] is not among the
    sources; section 7 says of fatal errors that the policy is to terminate
    the process immediately, with no graceful unwind. *)
Definition Logger_Fatal {A} (format : string) (fargs : list LogArg) : IO A :=
  fun w => (Exit, emit (EFatal format fargs) w).

(** ** The loop's own variables *)

(** An fsnotify event; [Op] is a bit mask. *)
Record FsEvent := { Name : string; Op : Z }.

Module fsnotify.
Definition Create : Z := 1.
Definition Write : Z := 2.
Definition Remove : Z := 4.
Definition Rename : Z := 8.
Definition Chmod : Z := 16.
End fsnotify.

(** [item.Op&op == op]. *)
Definition has_op (op : Z) (item : FsEvent) : bool := Z.land (Op item) op =? op.

(** What one iteration's [select] received. *)
Inductive Event :=
| ExitCode (exitCode : Z)
| WatcherError (err : string)
| WatcherEvent (item : FsEvent)
| TimerC
| QuitSignal.

(** The variables [doWatcherLoop] declares before [for !quit] and changes in
    it; [timer_armed] is the state of [timer]: set by [NewTimer] and [Reset],
    cleared when [timer.C] delivers. *)
Record Loop := {
  quit : bool;
  rebuild : bool;
  reload : bool;
  assetDir : string;
  changedPaths : gset string;
  debugBinaryProcess : option ProcRef;
  timer_armed : bool;
}.

(** What the loop reads and never changes. *)
Record LoopCfg := {
  buildOptions : BuildOptions;
  f : Dev;
  legacyUseDevServerInsteadofCustomScheme : bool;
  extensionsThatTriggerARebuild : gset string;
  dirsThatTriggerAReload : list string;
  interval : Z;
  skipAssetsReload : bool;
  assetDirURL : string;
  reloadURL : string;
}.

(** Code of the loop body: the loop's variables and the world. *)
Abbreviation LoopM := (M (Loop * World)).

Definition io {A} (m : IO A) : LoopM A :=
  fun s => let '(r, w') := m (snd s) in (r, (fst s, w')).

Definition vars : LoopM Loop := fun s => (Ok (fst s), s).

Definition assign (upd : Loop -> Loop) : LoopM unit :=
  fun s => (Ok tt, (upd (fst s), snd s)).

Definition continue {A} : LoopM A := fun s => (Continue, s).

Definition set_quit (b : bool) (l : Loop) : Loop :=
  {| quit := b; rebuild := rebuild l; reload := reload l; assetDir := assetDir l;
     changedPaths := changedPaths l; debugBinaryProcess := debugBinaryProcess l;
     timer_armed := timer_armed l |}.

Definition set_rebuild (b : bool) (l : Loop) : Loop :=
  {| quit := quit l; rebuild := b; reload := reload l; assetDir := assetDir l;
     changedPaths := changedPaths l; debugBinaryProcess := debugBinaryProcess l;
     timer_armed := timer_armed l |}.

Definition set_reload (b : bool) (l : Loop) : Loop :=
  {| quit := quit l; rebuild := rebuild l; reload := b; assetDir := assetDir l;
     changedPaths := changedPaths l; debugBinaryProcess := debugBinaryProcess l;
     timer_armed := timer_armed l |}.

Definition set_assetDir (d : string) (l : Loop) : Loop :=
  {| quit := quit l; rebuild := rebuild l; reload := reload l; assetDir := d;
     changedPaths := changedPaths l; debugBinaryProcess := debugBinaryProcess l;
     timer_armed := timer_armed l |}.

Definition set_changedPaths (ps : gset string) (l : Loop) : Loop :=
  {| quit := quit l; rebuild := rebuild l; reload := reload l; assetDir := assetDir l;
     changedPaths := ps; debugBinaryProcess := debugBinaryProcess l;
     timer_armed := timer_armed l |}.

Definition set_debugBinaryProcess (p : option ProcRef) (l : Loop) : Loop :=
  {| quit := quit l; rebuild := rebuild l; reload := reload l; assetDir := assetDir l;
     changedPaths := changedPaths l; debugBinaryProcess := p;
     timer_armed := timer_armed l |}.

Definition set_timer_armed (b : bool) (l : Loop) : Loop :=
  {| quit := quit l; rebuild := rebuild l; reload := reload l; assetDir := assetDir l;
     changedPaths := changedPaths l; debugBinaryProcess := debugBinaryProcess l;
     timer_armed := b |}.

(** [timer.Reset(interval)]. *)
Definition timer_Reset (d : Z) : LoopM unit :=
  io (effect (ETimerReset d)) ;;; assign (set_timer_armed true).

(** The [for _, reloadDir := range dirsThatTriggerAReload] of the write
    branch: true when the loop sets [reload] and breaks. *)
Fixpoint underReloadDir (itemName : string) (reloadDirs : list string) : bool :=
  match reloadDirs with
  | [] => false
  | reloadDir :: rest =>
      if GoStrings.HasPrefix itemName reloadDir then true
      else underReloadDir itemName rest
  end.

(** The [for thePath := range changedPaths] of the timer branch. *)
Definition underAssetDir (paths : gset string) (dir : string) : bool :=
  existsb (fun thePath => GoStrings.HasPrefix thePath dir) (elements paths).

(** [sliceToMap] (dev.go, lines 46-52). *)
Fixpoint sliceToMap (input : list string) : gset string :=
  match input with
  | [] => ∅
  | value :: rest => {[value]} ∪ sliceToMap rest
  end.

(** The closure [isEligibleFile] of [doWatcherLoop] (lines 406-416). *)
Definition isEligibleFile (extensions : gset string) (fileName : string) : bool :=
  let ext := GoStrings.Ext fileName in
  if negb (String.eqb ext "") then
    let ext := GoStrings.tail ext in
    if bool_decide (ext ∈ extensions) then true else false
  else false.

Section Dev.

Variable E : Env.

(** Modelled from the spec: [fs.DirExists] and [fs.FileExists] are not among
    the sources; section 4.4 speaks of a write to an existing directory, so
    they say whether the path is a directory, a file, on disk. *)
Definition fs_DirExists (path : string) : IO bool :=
  fun w => (Ok (bool_decide (path ∈ dirs w)), w).
Definition fs_FileExists (path : string) : IO bool :=
  fun w => (Ok (bool_decide (path ∈ files w)), w).

(** Modelled from the spec: the package [process] is not among the sources;
    section 4.1 gives a handle a start, a forceful kill and a PID query.  The
    [Running] field and the PID of a process object: *)
Definition process_Running (p : ProcRef) : IO bool :=
  fun w => (Ok (match heap w !! p with
                | Some o => Running o
                | None => false
                end), w).

Definition process_PID (p : ProcRef) : IO Z :=
  fun w => (Ok (match heap w !! p with
                | Some o => Z.of_nat (PID o)
                | None => 0
                end), w).

Definition stopped (o : Process) : Process :=
  {| command := command o; args := args o; PID := PID o; Running := false |}.

(** Modelled from the spec: [process.Process.Kill] is not among the
    sources; section 4.1 says it sends a termination signal to the process
    group and that killing an already-dead handle is a no-op, not an
    error.  A successful kill leaves the object not running. *)
Definition process_Kill (p : ProcRef) : IO (option string) :=
  fun w =>
    match heap w !! p with
    | Some o =>
        if Running o then
          match os_kill E p w with
          | Some err => (Ok (Some err), emit (EKill p (Some err)) w)
          | None =>
              (Ok None, emit (EKill p None) (set_heap (<[p := stopped o]> (heap w)) w))
          end
        else (Ok None, w)
    | None => (Ok None, w)
    end.

(** [os.Remove]: on success the file is gone. *)
Definition Remove (path : string) : IO (option OsError) :=
  fun w =>
    match os_Remove E path w with
    | Some err => (Ok (Some err), emit (ERemove path (Some err)) w)
    | None => (Ok None, emit (ERemove path None) (set_files (files w ∖ {[path]}) w))
    end.

(** [errors.Is(err, os.ErrNotExist)]. *)
Definition is_ErrNotExist (err : OsError) : bool :=
  match err with
  | ErrNotExist => true
  | ErrOther _ => false
  end.

Definition OsError_Error (err : OsError) : string :=
  match err with
  | ErrNotExist => "file does not exist"
  | ErrOther msg => msg
  end.

(** [killProcessAndCleanupBinary] (dev.go, lines 176-190). *)
Definition killProcessAndCleanupBinary (process : option ProcRef) (binary : string)
  : IO (option string) :=
  killed <- match process with
            | Some p =>
                running <- process_Running p ;;
                if running then process_Kill p else ret None
            | None => ret None
            end ;;
  match killed with
  | Some err => ret (Some err)
  | None =>
      if negb (String.eqb binary "") then
        err <- Remove binary ;;
        match err with
        | Some e => if negb (is_ErrNotExist e) then ret (Some (OsError_Error e))
                    else ret None
        | None => ret None
        end
      else ret None
  end.

(** [build.Build]: a successful build leaves the binary on disk. *)
Definition Build (opts : BuildOptions) : IO (string + string) :=
  fun w =>
    match build_Build E opts w with
    | inl binary =>
        (Ok (inl binary),
         emit (EBuild opts (inl binary)) (set_files ({[binary]} ∪ files w) w))
    | inr err => (Ok (inr err), emit (EBuild opts (inr err)) w)
    end.

(** [os.Setenv]. *)
Definition Setenv (key value : string) : IO unit :=
  fun w => (Ok tt, emit (ESetenv key value) (set_environ (<[key := value]> (environ w)) w)).

(** Modelled from the spec: [process.NewProcess], not among the sources,
    makes a new object that is not running yet. *)
Definition NewProcess (cmd : string) (cmdargs : list string) : IO ProcRef :=
  fun w =>
    let p := fresh (dom (heap w)) in
    (Ok p, set_heap (<[p := {| command := cmd; args := cmdargs; PID := 0%nat;
                              Running := false |}]> (heap w)) w).

(** Modelled from the spec: [process.Process.Start] is not among the
    sources; section 4.1 says it spawns a process with the given command and
    arguments or fails with a start error.  On success the object has its PID
    and runs. *)
Definition process_Start (p : ProcRef) : IO (option string) :=
  fun w =>
    match heap w !! p with
    | Some o =>
        match cmd_Start E (command o) (args o) w with
        | inl pid =>
            (Ok None,
             emit (EStart p None)
               (set_heap (<[p := {| command := command o; args := args o; PID := pid;
                                   Running := true |}]> (heap w)) w))
        | inr err => (Ok (Some err), emit (EStart p (Some err)) w)
        end
    | None => (Ok (Some "no such process object"), w)
    end.

(** [fs.DeleteFile]. *)
Definition DeleteFile (path : string) : IO (option string) :=
  fun w =>
    match fs_DeleteFile E path w with
    | Some err => (Ok (Some err), emit (EDeleteFile path (Some err)) w)
    | None => (Ok None, emit (EDeleteFile path None) (set_files (files w ∖ {[path]}) w))
    end.

(** [restartApp] (dev.go, lines 275-342).  The exit-code channel is the
    [ExitCode] events of the loop. *)
Definition restartApp (buildOptions : BuildOptions) (debugBinaryProcess : option ProcRef)
    (f : Dev) (legacyUseDevServerInsteadofCustomScheme : bool)
  : IO (option ProcRef * string * option string) :=
  built <- Build buildOptions ;;
  println ;;;
  match built with
  | inr err =>
      LogRed ("Build error - " +:+ err) [] ;;;
      let msg :=
        match debugBinaryProcess with
        | None => "No version running, build will be retriggered as soon as changes have been detected"
        | Some _ => "Continuing to run current version"
        end in
      LogDarkYellow msg [] ;;;
      ret (None, "", None)
  | inl appBinary =>
      (* Kill existing binary if need be *)
      match debugBinaryProcess with
      | Some p =>
          killError <- process_Kill p ;;
          match killError with
          | Some _ =>
              pid <- process_PID p ;;
              Logger_Fatal "Unable to kill debug binary (PID: %d)!" [ArgD pid]
          | None => ret tt
          end
      | None => ret tt
      end ;;;
      (* parse appargs if any *)
      args <- match shlex_Split E (AppArgs f) with
              | inr err => Logger_Fatal "Unable to parse appargs: %s" [ArgS err]
              | inl args => ret args
              end ;;
      Setenv "loglevel" (LogLevel f) ;;;
      Setenv "assetdir" (AssetDir f) ;;;
      Setenv "devserver" (DevServer f) ;;;
      Setenv "frontenddevserverurl" (FrontendDevServerURL f) ;;;
      (* Start up new binary with correct args *)
      let '(command, args) :=
        if (String.length (DlvFlag f) =? 0)%nat then (appBinary, args)
        else
          let newArgs := (GoStrings.Split (DlvFlag f) " " ++ ["exec"; appBinary])%list in
          let newArgs := if (0 <? length args)%nat then (newArgs ++ ["--"])%list
                         else newArgs in
          ("dlv", newArgs) in
      LogGreen ("Executing: " +:+ command +:+ " " +:+ GoStrings.Join args " ") [] ;;;
      newProcess <- NewProcess command args ;;
      err <- process_Start newProcess ;;
      match err with
      | Some e =>
          (* Remove binary *)
          exists_ <- fs_FileExists appBinary ;;
          (if exists_ : bool then
             deleteError <- DeleteFile appBinary ;;
             match deleteError with
             | Some _ => Logger_Fatal ("Unable to delete app binary: " +:+ appBinary) []
             | None => ret tt
             end
           else ret tt) ;;;
          Logger_Fatal "Unable to start application: %s" [ArgS e]
      | None => ret (Some newProcess, appBinary, None)
      end
  end.

(** [watcher.Add]: on success the path is in the watch set. *)
Definition Add (path : string) : IO (option string) :=
  fun w =>
    match watcher_Add E path w with
    | Some err => (Ok (Some err), emit (EWatcherAdd path (Some err)) w)
    | None => (Ok None, emit (EWatcherAdd path None) (set_watched ({[path]} ∪ watched w) w))
    end.

(** [http.Get] followed, where the code does it, by [io.ReadAll]. *)
Definition Get (url : string) : IO HttpResult :=
  fun w => (Ok (http_Get E url w), emit (EHttpGet url) w).

(** [joinPath] (dev.go, lines 532-536). *)
Definition joinPath (url : URL) (subPath : string) : string :=
  URL_String E {| Scheme := Scheme url; Host := Host url;
                  Path := path_Join E (Path url) subPath |}.

(** The [case item := <-watcher.Events] of [doWatcherLoop] (lines 405-467). *)
Definition onWatcherEvent (c : LoopCfg) (item : FsEvent) : LoopM unit :=
  (* Handle write operations *)
  (if has_op fsnotify.Write item then
     (* Ignore directories *)
     let itemName := Name item in
     isDir <- io (fs_DirExists itemName) ;;
     (if isDir : bool then continue else ret tt) ;;;
     (if isEligibleFile (extensionsThatTriggerARebuild c) itemName then
        assign (set_rebuild true) ;;;
        timer_Reset (interval c) ;;;
        continue
      else ret tt) ;;;
     (if underReloadDir itemName (dirsThatTriggerAReload c) then assign (set_reload true)
      else ret tt) ;;;
     l <- vars ;;
     (if negb (reload l) then
        assign (set_changedPaths ({[filepath_Dir E itemName]} ∪ changedPaths l))
      else ret tt) ;;;
     timer_Reset (interval c)
   else ret tt) ;;;
  (* Handle new fs entries that are created *)
  (if has_op fsnotify.Create item then
     (* If this is a folder, add it to our watch list *)
     isDir <- io (fs_DirExists (Name item)) ;;
     if isDir : bool then
       (* node_modules is BANNED! *)
       if negb (GoStrings.Contains (Name item) "node_modules") then
         err <- io (Add (Name item)) ;;
         match err with
         | Some e => io (Logger_Fatal "%s" [ArgS e])
         | None => ret tt
         end ;;;
         io (LogGreen "Added new directory to watcher: %s" [ArgS (Name item)])
       else ret tt
     else if isEligibleFile (extensionsThatTriggerARebuild c) (Name item) then
       (* Handle creation of new file. *)
       assign (set_rebuild true) ;;;
       timer_Reset (interval c) ;;;
       continue
     else ret tt
   else ret tt).

(** The timer case, first block (lines 469-487): the pending rebuild. *)
Definition rebuildBlock (c : LoopCfg) : LoopM unit :=
  l <- vars ;;
  if rebuild l then
    assign (set_rebuild false) ;;;
    if NoGoRebuild (f c) then
      io (LogGreen "[Rebuild triggered] skipping due to flag -nogorebuild" [])
    else
      io (LogGreen "[Rebuild triggered] files updated" []) ;;;
      (* Try and build the app *)
      r <- io (restartApp (buildOptions c) (debugBinaryProcess l) (f c)
                 (legacyUseDevServerInsteadofCustomScheme c)) ;;
      let '(newBinaryProcess, _, err) := r in
      match err with
      | Some e => io (LogRed "Error during build: %s" [ArgS e]) ;;; continue
      | None =>
          (* If we have a new process, saveConfig it *)
          match newBinaryProcess with
          | Some p => assign (set_debugBinaryProcess (Some p))
          | None => ret tt
          end
      end
  else ret tt.

(** The timer case, second block (lines 489-515): changed directories
    against the asset directory of the running application. *)
Definition assetsBlock (c : LoopCfg) : LoopM unit :=
  l <- vars ;;
  if negb (skipAssetsReload c) && negb (size (changedPaths l) =? 0)%nat then
    (if String.eqb (assetDir l) "" then
       resp <- io (Get (assetDirURL c)) ;;
       match resp with
       | HttpError e => io (LogRed "Error during retrieving assetdir: %s" [ArgS e])
       | HttpBody (inr e) =>
           io (LogRed "Error reading assetdir from devserver: %s" [ArgS e])
       | HttpBody (inl content) => assign (set_assetDir content)
       end
     else ret tt) ;;;
    l <- vars ;;
    if negb (String.eqb (assetDir l) "") then
      if underAssetDir (changedPaths l) (assetDir l) then assign (set_reload true)
      else ret tt
    else if (length (dirsThatTriggerAReload c) =? 0)%nat then
      io (LogRed "Reloading couldn't be triggered: Please specify -assetdir or -reloaddirs" [])
    else ret tt
  else ret tt.

(** The timer case, third block (lines 516-522): the pending reload. *)
Definition reloadBlock (c : LoopCfg) : LoopM unit :=
  l <- vars ;;
  if reload l then
    assign (set_reload false) ;;;
    resp <- io (Get (reloadURL c)) ;;
    match resp with
    | HttpError e => io (LogRed "Error during refresh: %s" [ArgS e])
    | HttpBody _ => ret tt
    end
  else ret tt.

(** The [case <-timer.C] of [doWatcherLoop] (lines 468-523). *)
Definition onTimer (c : LoopCfg) : LoopM unit :=
  assign (set_timer_armed false) ;;;
  rebuildBlock c ;;;
  assetsBlock c ;;;
  reloadBlock c ;;;
  assign (set_changedPaths ∅).

(** One pass through the body of [for !quit]: the [select] received [ev]. *)
Definition iteration (c : LoopCfg) (ev : Event) : LoopM unit :=
  match ev with
  | ExitCode exitCode =>
      if exitCode =? 0 then assign (set_quit true) else ret tt
  | WatcherError err => io (LogDarkYellow err [])
  | WatcherEvent item => onWatcherEvent c item
  | TimerC => onTimer c
  | QuitSignal =>
      io (LogGreen (String "010" "Caught quit") []) ;;;
      assign (set_quit true)
  end.

(** [for !quit { select ... }] over what the channels deliver, in the order
    the [select]s receive it.  The result is [true] when the loop was left
    and [false] when it waits in [select] for more. *)
Fixpoint loop (c : LoopCfg) (events : list Event) : LoopM bool :=
  fun s =>
    if quit (fst s) then (Ok true, s)
    else
      match events with
      | [] => (Ok false, s)
      | ev :: later =>
          match iteration c ev s with
          | (Exit, s') => (Exit, s')
          | (_, s') => loop c later s'
          end
      end.

(** The [for _, dir := range strings.Split(f.ReloadDirs, ",")] that
    precedes the main loop (lines 365-381). *)
Fixpoint watchReloadDirs (dirs : list string) (dirsThatTriggerAReload : list string)
  : IO (list string) :=
  match dirs with
  | [] => ret dirsThatTriggerAReload
  | dir :: rest =>
      if String.eqb dir "" then watchReloadDirs rest dirsThatTriggerAReload
      else
        fun w =>
          match filepath_Abs E dir w with
          | inr err =>
              (LogRed "Unable to expand reloadDir '%s': %s" [ArgS dir; ArgS err] ;;;
               watchReloadDirs rest dirsThatTriggerAReload) w
          | inl thePath =>
              (err <- Add thePath ;;
               match err with
               | Some e =>
                   LogRed "Unable to watch path: %s due to error %v" [ArgS thePath; ArgS e]
               | None => LogGreen "Watching (sub)/directory: %s" [ArgS thePath]
               end ;;;
               watchReloadDirs rest (dirsThatTriggerAReload ++ [thePath])%list) w
          end
  end.

(** Running loop code from given variables. *)
Definition from {A} (l : Loop) (m : LoopM A) : IO (A * Loop) :=
  fun w =>
    match m (l, w) with
    | (Ok a, (l', w')) => (Ok (a, l'), w')
    | (Continue, (_, w')) => (Continue, w')
    | (Exit, (_, w')) => (Exit, w')
    end.

(** The deferred [watcher.Close()]; [log.Fatal] when it fails. *)
Definition closeWatcher : IO unit :=
  fun w =>
    match watcher_Close E w with
    | Some err => Logger_Fatal err [] w
    | None => (Ok tt, w)
    end.

(** [doWatcherLoop] (dev.go, lines 345-530), run over [events];
    [debugBinaryProcess0] is the value the parameter [debugBinaryProcess] has
    at the call.  The result is [None] while the loop still waits. *)
Definition doWatcherLoop (cwd reloadDirs : string) (buildOptions : BuildOptions)
    (debugBinaryProcess0 : option ProcRef) (f : Dev) (devServerURL : URL)
    (legacyUseDevServerInsteadofCustomScheme : bool) (events : list Event)
  : IO (option (option ProcRef * option string)) :=
  fun w =>
    match initialiseWatcher E cwd reloadDirs w with
    | inr err =>
        (LogRed "Unable to create filesystem watcher. Reloads will not occur." [] ;;;
         ret (Some (None, Some err))) w
    | inl watchSet =>
        (LogGreen "Watching (sub)/directory: %s" [ArgS cwd] ;;;
         (* Main Loop *)
         let extensionsThatTriggerARebuild :=
           sliceToMap (GoStrings.Split (Extensions f) ",") in
         dirsThatTriggerAReload <- watchReloadDirs (GoStrings.Split (ReloadDirs f) ",") [] ;;
         let c := {| buildOptions := buildOptions; f := f;
                     legacyUseDevServerInsteadofCustomScheme :=
                       legacyUseDevServerInsteadofCustomScheme;
                     extensionsThatTriggerARebuild := extensionsThatTriggerARebuild;
                     dirsThatTriggerAReload := dirsThatTriggerAReload;
                     interval := Debounce f (* milliseconds *);
                     skipAssetsReload :=
                       negb (String.eqb (FrontendDevServerURL f) "") || NoReload f;
                     assetDirURL := joinPath devServerURL "/wails/assetdir";
                     reloadURL := joinPath devServerURL "/wails/reload" |} in
         let l := {| quit := false; rebuild := false; reload := false; assetDir := "";
                     changedPaths := ∅; debugBinaryProcess := debugBinaryProcess0;
                     timer_armed := true |} in
         r <- from l (loop c events) ;;
         let '(returned, l') := r in
         if returned : bool then
           closeWatcher ;;;
           ret (Some (debugBinaryProcess l', None))
         else ret None) (set_watched watchSet w)
    end.

End Dev.

(** ** The stop function of the frontend watcher

    [runFrontendDevWatcherCommand] (dev.go, lines 245-271) starts one
    goroutine that waits for the watcher command and returns a function that
    stops it.  The function may be called any number of times, from any
    goroutine.  Both sides meet in the atomic variable [state]; the steps
    between two atomic operations are run in one piece, and a schedule says
    whose step is next. *)

Module FrontendWatcher.

Definition stateRunning : Z := 0.
Definition stateCanceling : Z := 1.
Definition stateStopped : Z := 2.

(** [atomic.CompareAndSwapInt32(&state, old, new)]: whether it swapped, and
    the value of [state] after it. *)
Definition CompareAndSwapInt32 (state old new : Z) : bool * Z :=
  if state =? old then (true, new) else (false, state).

(** Where the goroutine of lines 254-263 stands. *)
Inductive GoroutinePc :=
| GWait                   (* in cmd.Wait() *)
| GSwap (err : string)    (* cmd.Wait() returned err, before the CompareAndSwap *)
| GStore                  (* before atomic.StoreInt32 *)
| GDone                   (* before wg.Done() *)
| GEnd.

(** Where one call of the returned function (lines 265-271) stands. *)
Inductive CloserPc :=
| CSwap                   (* before the CompareAndSwap *)
| CKillProc               (* the swap succeeded, before killProc *)
| CCancel                 (* before cancel() *)
| CWait                   (* in wg.Wait() *)
| CEnd.

Record Sys := {
  state : Z;                  (* the int32 of line 253 *)
  wg : nat;                   (* the WaitGroup counter *)
  cancelled : bool;           (* cancel() was called *)
  killSignals : nat;          (* how often killProc sent its signal *)
  errorLogs : list string;    (* LogRed of line 258 *)
  goroutine : GoroutinePc;
  closers : list CloserPc;    (* the calls of the returned function *)
}.

(** The state when [runFrontendDevWatcherCommand] returns. *)
Definition init : Sys :=
  {| state := stateRunning; wg := 1; cancelled := false; killSignals := 0;
     errorLogs := []; goroutine := GWait; closers := [] |}.

(** Who moves next. *)
Inductive Action :=
| WaitReturns (err : option string)  (* the command ended, cmd.Wait() returns *)
| Goroutine                          (* the goroutine's next step *)
| Call                               (* the returned function is called *)
| Closer (i : nat).                  (* the next step of its i-th call *)

Definition with_goroutine (pc : GoroutinePc) (s : Sys) : Sys :=
  {| state := state s; wg := wg s; cancelled := cancelled s;
     killSignals := killSignals s; errorLogs := errorLogs s;
     goroutine := pc; closers := closers s |}.

Definition with_closer (i : nat) (pc : CloserPc) (s : Sys) : Sys :=
  {| state := state s; wg := wg s; cancelled := cancelled s;
     killSignals := killSignals s; errorLogs := errorLogs s;
     goroutine := goroutine s; closers := <[i := pc]> (closers s) |}.

Definition with_state (v : Z) (s : Sys) : Sys :=
  {| state := v; wg := wg s; cancelled := cancelled s;
     killSignals := killSignals s; errorLogs := errorLogs s;
     goroutine := goroutine s; closers := closers s |}.

(** Modelled from the spec: [killProc] is platform code that is not among
    the sources; section 4.2 says the stop operation, if still running, sends
    the process-group termination signal. *)
Definition killProc (s : Sys) : Sys :=
  {| state := state s; wg := wg s; cancelled := cancelled s;
     killSignals := S (killSignals s); errorLogs := errorLogs s;
     goroutine := goroutine s; closers := closers s |}.

Definition cancel (s : Sys) : Sys :=
  {| state := state s; wg := wg s; cancelled := true;
     killSignals := killSignals s; errorLogs := errorLogs s;
     goroutine := goroutine s; closers := closers s |}.

Definition wg_Done (s : Sys) : Sys :=
  {| state := state s; wg := pred (wg s); cancelled := cancelled s;
     killSignals := killSignals s; errorLogs := errorLogs s;
     goroutine := goroutine s; closers := closers s |}.

Definition LogRed (msg : string) (s : Sys) : Sys :=
  {| state := state s; wg := wg s; cancelled := cancelled s;
     killSignals := killSignals s; errorLogs := errorLogs s ++ [msg];
     goroutine := goroutine s; closers := closers s |}.

(** One step of the goroutine; [None] when it cannot move. *)
Definition goroutine_step (s : Sys) : option Sys :=
  match goroutine s with
  | GWait => None
  | GSwap err =>
      let '(wasRunning, v) := CompareAndSwapInt32 (state s) stateRunning stateStopped in
      let s := with_state v s in
      let s := if negb (String.eqb err "exit status 1") && wasRunning
               then LogRed err s else s in
      Some (with_goroutine GStore s)
  | GStore => Some (with_goroutine GDone (with_state stateStopped s))
  | GDone => Some (with_goroutine GEnd (wg_Done s))
  | GEnd => None
  end.

(** One step of the i-th call of the returned function. *)
Definition closer_step (i : nat) (s : Sys) : option Sys :=
  match closers s !! i with
  | Some CSwap =>
      let '(swapped, v) := CompareAndSwapInt32 (state s) stateRunning stateCanceling in
      Some (with_closer i (if swapped then CKillProc else CCancel) (with_state v s))
  | Some CKillProc => Some (with_closer i CCancel (killProc s))
  | Some CCancel => Some (with_closer i CWait (cancel s))
  | Some CWait => if (wg s =? 0)%nat then Some (with_closer i CEnd s) else None
  | Some CEnd => None
  | None => None
  end.

Definition step (a : Action) (s : Sys) : option Sys :=
  match a with
  | WaitReturns err =>
      match goroutine s with
      | GWait =>
          Some (with_goroutine (match err with
                                | Some e => GSwap e
                                | None => GStore
                                end) s)
      | _ => None
      end
  | Goroutine => goroutine_step s
  | Call =>
      Some {| state := state s; wg := wg s; cancelled := cancelled s;
              killSignals := killSignals s; errorLogs := errorLogs s;
              goroutine := goroutine s; closers := closers s ++ [CSwap] |}
  | Closer i => closer_step i s
  end.

(** A schedule, run from [s]; [None] when it asks a blocked party to move. *)
Fixpoint run (schedule : list Action) (s : Sys) : option Sys :=
  match schedule with
  | [] => Some s
  | a :: later =>
      match step a s with
      | Some s' => run later s'
      | None => None
      end
  end.

(** The calls that have swapped [state] and not yet sent the signal. *)
Definition isKillProc (pc : CloserPc) : bool :=
  match pc with
  | CKillProc => true
  | _ => false
  end.

Definition aboutToKill (s : Sys) : nat :=
  length (List.filter isKillProc (closers s)).

(** The signal was sent, or is about to be sent, by at most one call, and
    then [state] is no longer [stateRunning]. *)
Definition signal_once (s : Sys) : Prop :=
  (killSignals s + aboutToKill s <= 1)%nat /\
  (1 <= killSignals s + aboutToKill s -> state s <> stateRunning)%nat.

(** [state] only ever holds one of its three constants. *)
Definition state_in_range (s : Sys) : Prop :=
  state s = stateRunning \/ state s = stateCanceling \/ state s = stateStopped.

(** The states the goroutine and the calls can reach, step by step. *)
Inductive reachable : Sys -> Prop :=
| reachable_init : reachable init
| reachable_step s a s' : reachable s -> step a s = Some s' -> reachable s'.

End FrontendWatcher.

(** ** A concrete project, for running the definitions *)

Module Scenario.

(** A parent directory in the manner of [filepath.Dir], for clean absolute
    paths: what stands before the last slash. *)
Fixpoint Dir_go (path : string) (before dir : string) : string :=
  match path with
  | EmptyString => dir
  | String c rest =>
      if Ascii.eqb c "/" then Dir_go rest (before +:+ "/") before
      else Dir_go rest (before +:+ String c "") dir
  end.

Definition Dir (path : string) : string := Dir_go path "" "".

(** Collaborators whose builder answers [built], whose kill answers
    [killErr] and whose watcher answers [addErr]. *)
Definition env (built : string + string) (killErr addErr : option string) : Env :=
  {| build_Build := fun _ _ => built;
     os_kill := fun _ _ => killErr;
     cmd_Start := fun _ _ w => inl (100 + size (heap w))%nat;
     shlex_Split := fun s => inl (if String.eqb s "" then [] else [s]);
     os_Remove := fun path w =>
       if bool_decide (path ∈ files w) then None else Some ErrNotExist;
     fs_DeleteFile := fun _ _ => None;
     watcher_Add := fun _ _ => addErr;
     http_Get := fun _ _ => HttpBody (inl "/project/frontend/dist");
     filepath_Dir := Dir;
     filepath_Abs := fun dir _ => inl dir;
     path_Join := fun a b => a +:+ b;
     URL_String := fun u => Scheme u +:+ "://" +:+ Host u +:+ Path u;
     initialiseWatcher := fun cwd _ _ => inl {[cwd]};
     watcher_Close := fun _ => None |}.

Definition app : Process :=
  {| command := "/project/build/bin/app-dev"; args := []; PID := 4242%nat;
     Running := true |}.

(** A project with the application running as process object 0. *)
Definition world : World :=
  {| dirs := {["/project"; "/project/src"; "/project/src-extra"; "/project/new";
               "/project/node_modules/pkg"]};
     files := {["/project/build/bin/app-dev"; "/project/main.go";
                "/project/src/a.js"; "/project/src/main.go"; "/project/src-extra/a.js";
                "/project/notes/todo.txt"]};
     heap := {[0%nat := app]};
     watched := {["/project"]};
     environ := ∅;
     trace := [] |}.

Definition flags (noGoRebuild : bool) : Dev :=
  {| AppArgs := ""; LogLevel := "Info"; AssetDir := ""; DevServer := "localhost:34115";
     FrontendDevServerURL := ""; DlvFlag := ""; Extensions := "go";
     ReloadDirs := "/project/src"; Debounce := 100; NoGoRebuild := noGoRebuild;
     NoReload := false |}.

Definition cfg (noGoRebuild : bool) : LoopCfg :=
  {| buildOptions := {| IgnoreFrontend := true; IgnoreApplication := false;
                        UserTags := [] |};
     f := flags noGoRebuild;
     legacyUseDevServerInsteadofCustomScheme := false;
     extensionsThatTriggerARebuild := sliceToMap (GoStrings.Split "go" ",");
     dirsThatTriggerAReload := ["/project/src"];
     interval := 100;
     skipAssetsReload := false;
     assetDirURL := "http://localhost:34115/wails/assetdir";
     reloadURL := "http://localhost:34115/wails/reload" |}.

(** The loop's variables right after its start. *)
Definition idle : Loop :=
  {| quit := false; rebuild := false; reload := false; assetDir := "";
     changedPaths := ∅; debugBinaryProcess := Some 0%nat; timer_armed := true |}.

Definition write (name : string) : Event :=
  WatcherEvent {| Name := name; Op := fsnotify.Write |}.

Definition create (name : string) : Event :=
  WatcherEvent {| Name := name; Op := fsnotify.Create |}.

(** The builder works, kills work, the watcher accepts directories. *)
Definition healthy : Env := env (inl "/project/build/bin/app-dev") None None.

(** The builder fails. *)
Definition broken : Env := env (inr "exit status 2") None None.

(** The process cannot be killed. *)
Definition unkillable : Env :=
  env (inl "/project/build/bin/app-dev") (Some "operation not permitted") None.

(** The watcher has run out of watches. *)
Definition exhausted : Env :=
  env (inl "/project/build/bin/app-dev") None (Some "no space left on device").

(** The loop's variables with a rebuild pending, with a reload pending. *)
Definition rebuildPending : Loop := set_rebuild true idle.
Definition reloadPending : Loop := set_reload true idle.

(** Two calls of the stop function race, the watcher command dies of the
    signal, and the function is called a third time afterwards. *)
Definition stopTwiceAndAgain : list FrontendWatcher.Action :=
  [FrontendWatcher.Call; FrontendWatcher.Call;
   FrontendWatcher.Closer 0; FrontendWatcher.Closer 1;
   FrontendWatcher.Closer 0; FrontendWatcher.Closer 1; FrontendWatcher.Closer 0;
   FrontendWatcher.WaitReturns (Some "signal: killed");
   FrontendWatcher.Goroutine; FrontendWatcher.Goroutine; FrontendWatcher.Goroutine;
   FrontendWatcher.Closer 0; FrontendWatcher.Closer 1;
   FrontendWatcher.Call; FrontendWatcher.Closer 2; FrontendWatcher.Closer 2;
   FrontendWatcher.Closer 2].

End Scenario.

(** ** The vocabulary of the properties *)

(** [keeps R m]: the states before and after [m] are related by [R]. *)
Definition keeps {S A} (R : S -> S -> Prop) (m : M S A) : Prop :=
  forall s, R s (snd (m s)).

(** [returns m]: [m] ends neither the process nor the iteration. *)
Definition returns {S A} (m : M S A) : Prop :=
  forall s, exists a, fst (m s) = Ok a.

Definition is_build (e : Effect) : bool :=
  match e with
  | EBuild _ _ => true
  | _ => false
  end.

Definition is_http (e : Effect) : bool :=
  match e with
  | EHttpGet _ => true
  | _ => false
  end.

(** [w'] continues [w] with effects that all satisfy [P]. *)
Definition extends (P : Effect -> bool) (w w' : World) : Prop :=
  exists d, trace w' = trace w ++ d /\ forallb P d = true.

(** What the second and third block of the timer case leave alone: the
    processes, the disk, the watch set, the process the loop holds and its
    [quit] and [rebuild]; a pending reload stays pending; the new effects
    satisfy [P]. *)
Definition calm (P : Effect -> bool) (s s' : Loop * World) : Prop :=
  debugBinaryProcess (fst s') = debugBinaryProcess (fst s) /\
  quit (fst s') = quit (fst s) /\
  rebuild (fst s') = rebuild (fst s) /\
  timer_armed (fst s') = timer_armed (fst s) /\
  (reload (fst s) = true -> reload (fst s') = true) /\
  heap (snd s') = heap (snd s) /\
  files (snd s') = files (snd s) /\
  dirs (snd s') = dirs (snd s) /\
  watched (snd s') = watched (snd s) /\
  extends P (snd s) (snd s').

Definition is_process_op (e : Effect) : bool :=
  match e with
  | EKill _ _ | EStart _ _ => true
  | _ => false
  end.

(** The world where the timer case calls the builder. *)
Definition atRebuild (w : World) : World :=
  emit (ELog Green "[Rebuild triggered] files updated" []) w.

(** How many calls of the builder a stretch of the trace has. *)
Definition builds (d : list Effect) : nat := length (List.filter is_build d).

Definition quiet (e : Effect) : bool := negb (is_build e) && negb (is_http e).

Definition not_build (e : Effect) : bool := negb (is_build e).
Definition not_http (e : Effect) : bool := negb (is_http e).

(** The world after [n] resets of the timer. *)
Fixpoint afterResets (c : LoopCfg) (n : nat) (w : World) : World :=
  match n with
  | O => w
  | S n => afterResets c n (emit (ETimerReset (interval c)) w)
  end.

(** A write event for a file, not a directory, whose extension triggers a
    rebuild. *)
Definition eligibleWrite (c : LoopCfg) (w : World) (item : FsEvent) : Prop :=
  has_op fsnotify.Write item = true /\
  (Name item ∉ dirs w) /\
  isEligibleFile (extensionsThatTriggerARebuild c) (Name item) = true.


Definition is_add (e : Effect) : bool :=
  match e with
  | EWatcherAdd _ _ => true
  | _ => false
  end.

(** How many calls of [watcher.Add] a stretch of the trace has. *)
Definition adds (d : list Effect) : nat := length (List.filter is_add d).

(** ** Further vocabulary: paths and extensions *)

(** A character that is neither a path separator nor a dot. *)
Definition plain_char (c : ascii) : bool :=
  negb (GoStrings.IsPathSeparator c) && negb (Ascii.eqb c ".").

(** A string without path separator and without dot. *)
Definition plain (e : string) : bool := forallb plain_char (list_ascii_of_string e).

(** ** Further vocabulary: triples *)

(** [hoare P m Q K X]: from a state in [P], [m] ends in [Q] with its result,
    or leaves the iteration in [K], or ends the process in [X]. *)
Definition hoare {S A} (P : S -> Prop) (m : M S A) (Q : A -> S -> Prop)
    (K X : S -> Prop) : Prop :=
  forall s, P s ->
    match m s with
    | (Ok a, s') => Q a s'
    | (Continue, s') => K s'
    | (Exit, s') => X s'
    end.

(** Every process object that runs is the one named by [holder]. *)
Definition running_only (holder : option ProcRef) (w : World) : Prop :=
  forall p o, heap w !! p = Some o -> Running o = true -> holder = Some p.

(** The loop holds the only process that may be running. *)
Definition held (s : Loop * World) : Prop :=
  running_only (debugBinaryProcess (fst s)) (snd s).

(** The paths [watcher.Add] was called with, in order. *)
Fixpoint added_paths (d : list Effect) : list string :=
  match d with
  | [] => []
  | EWatcherAdd path _ :: rest => path :: added_paths rest
  | _ :: rest => added_paths rest
  end.

(** A write event for a file, not a directory, without a rebuild extension,
    under a reload directory. *)
Definition reloadWrite (c : LoopCfg) (w : World) (item : FsEvent) : Prop :=
  has_op fsnotify.Write item = true /\
  (Name item ∉ dirs w) /\
  isEligibleFile (extensionsThatTriggerARebuild c) (Name item) = false /\
  underReloadDir (Name item) (dirsThatTriggerAReload c) = true.

(** ** Further vocabulary: the stop function of the frontend watcher *)

Module FrontendWatcherInv.
Import FrontendWatcher.

Definition goroutine_finished (pc : GoroutinePc) : bool :=
  match pc with
  | GEnd => true
  | _ => false
  end.

(** The goroutine has stored [stateStopped]. *)
Definition goroutine_stored (pc : GoroutinePc) : bool :=
  match pc with
  | GDone | GEnd => true
  | _ => false
  end.

(** The goroutine is past its compare-and-swap. *)
Definition goroutine_swapped (pc : GoroutinePc) : bool :=
  match pc with
  | GStore | GDone | GEnd => true
  | _ => false
  end.

(** What holds between the goroutine, the wait group and the calls. *)
Definition joined (s : Sys) : Prop :=
  wg s = (if goroutine_finished (goroutine s) then 0 else 1)%nat /\
  (goroutine_stored (goroutine s) = true -> state s = stateStopped) /\
  (forall i pc, closers s !! i = Some pc -> pc = CWait \/ pc = CEnd -> cancelled s = true) /\
  (forall i, closers s !! i = Some CEnd -> goroutine s = GEnd).

(** What holds of the error log. *)
Definition reported (s : Sys) : Prop :=
  errorLogs s = [] \/
  exists err, errorLogs s = [err] /\ err <> "exit status 1" /\
              goroutine_swapped (goroutine s) = true /\
              state s = stateStopped /\
              killSignals s = 0%nat /\ aboutToKill s = 0%nat.

End FrontendWatcherInv.

(** ** Further vocabulary: a started application *)

(** The four variables [restartApp] exports are set from the flags. *)
Definition exported (f : Dev) (w : World) : Prop :=
  environ w !! "loglevel" = Some (LogLevel f) /\
  environ w !! "assetdir" = Some (AssetDir f) /\
  environ w !! "devserver" = Some (DevServer f) /\
  environ w !! "frontenddevserverurl" = Some (FrontendDevServerURL f).

(** The command line [restartApp] starts for the binary [appBinary] and the
    parsed application arguments [parsed]. *)
Definition launched (f : Dev) (appBinary : string) (parsed : list string)
    (pid : nat) : Process :=
  {| command := if (String.length (DlvFlag f) =? 0)%nat then appBinary else "dlv";
     args := if (String.length (DlvFlag f) =? 0)%nat then parsed
             else GoStrings.Split (DlvFlag f) " " ++ ["exec"; appBinary]
                  ++ (if (0 <? length parsed)%nat then ["--"] else []);
     PID := pid; Running := true |}.

(** The ways [restartApp] ends the process, by the message of the fatal
    error that is logged last, with what holds of the world [w'] it leaves
    behind when it was called in [w] and had built [appBinary]. *)
Definition fatal_exit (f : Dev) (w : World) (appBinary : string) (w' : World) : Prop :=
  exists fmt fargs,
    last (trace w') = Some (EFatal fmt fargs) /\
    ((fmt = "Unable to kill debug binary (PID: %d)!" /\
      heap w' = heap w /\ environ w' = environ w /\ appBinary ∈ files w') \/
     (fmt = "Unable to parse appargs: %s" /\
      environ w' = environ w /\ appBinary ∈ files w') \/
     (fmt = "Unable to delete app binary: " +:+ appBinary /\
      exported f w' /\ appBinary ∈ files w') \/
     (fmt = "Unable to start application: %s" /\
      exported f w' /\ appBinary ∉ files w')).

(** ** Further vocabulary: what the loop leaves alone *)

(** An effect that is neither a call of the builder nor an operation on a
    process. *)
Definition hands_off (e : Effect) : bool := not_build e && negb (is_process_op e).

(** Since [w0] the loop holds the process [p0], the process objects, the
    files and the environment are as they were, and nothing was built,
    killed or started. *)
Definition app_untouched (p0 : option ProcRef) (w0 : World) (s : Loop * World) : Prop :=
  debugBinaryProcess (fst s) = p0 /\
  heap (snd s) = heap w0 /\
  files (snd s) = files w0 /\
  environ (snd s) = environ w0 /\
  extends hands_off w0 (snd s).

(** An effect that is no HTTP request, or one to [url]. *)
Definition only_to (url : string) (e : Effect) : bool :=
  match e with
  | EHttpGet to => String.eqb to url
  | _ => true
  end.

(** Since [w0] the asset directory is [known] as it was, and every HTTP
    request went to [url]. *)
Definition assets_unasked (url known : string) (w0 : World) (s : Loop * World) : Prop :=
  assetDir (fst s) = known /\ extends (only_to url) w0 (snd s).

(** ** The single instance lock (single_instance.go)

    [SetupSingleInstance] asks the session bus for a name made from the
    unique id of the application.  The first instance gets the name; a second
    one finds it taken, sends its arguments and working directory to the
    first and exits.  The bus, the operating system and the JSON encoder are
    collaborators: each call has its answer in [Bus]. *)

Module SingleInstance.

(** [strings.ReplaceAll] for a pattern of one byte: every occurrence is
    replaced, from left to right. *)
Fixpoint ReplaceAll (s : string) (old : ascii) (new : string) : string :=
  match s with
  | EmptyString => EmptyString
  | String c rest =>
      if Ascii.eqb c old then new +:+ ReplaceAll rest old new
      else String c (ReplaceAll rest old new)
  end.

(** The local variables [id], [dbusName] and [dbusPath] (lines 24-27). *)
Definition id (uniqueID : string) : string :=
  "wails_app_" +:+ ReplaceAll (ReplaceAll uniqueID "-" "_") "." "_".

Definition dbusName (uniqueID : string) : string :=
  "org." +:+ id uniqueID +:+ ".SingleInstance".

Definition dbusPath (uniqueID : string) : string :=
  "/org/" +:+ id uniqueID +:+ "/SingleInstance".

(** [options.SecondInstanceData]. *)
Record SecondInstanceData := {
  Args : list string;
  WorkingDirectory : string;
}.

(** The replies of [RequestName]. *)
Inductive RequestNameReply :=
| RequestNameReplyPrimaryOwner
| RequestNameReplyInQueue
| RequestNameReplyExists
| RequestNameReplyAlreadyOwner.

Definition is_Exists (reply : RequestNameReply) : bool :=
  match reply with
  | RequestNameReplyExists => true
  | _ => false
  end.

(** The answers of the collaborators; an error is its message. *)
Record Bus := {
  ConnectSessionBus : option string;
  conn_Export : string -> string -> option string;
  conn_RequestName : string -> RequestNameReply + string;
  os_Args : list string;
  os_Getwd : string + string;
  json_Marshal : SecondInstanceData -> string + string;
  object_Call : string -> string -> string -> string -> option string;
}.

(** What the function does to the outside, in program order. *)
Inductive Action :=
| AExport (path name : string)
| ARequestName (name : string)
| ACall (dest path method body : string)
| APrintf (format arg : string).

Definition SI (A : Type) : Type := M (list Action) A.

Definition act (a : Action) : SI unit := fun t => (Ok tt, t ++ [a]).

(** [os.Exit(1)]. *)
Definition os_Exit {A} : SI A := fun t => (Exit, t).

(** [SetupSingleInstance] (lines 23-78). *)
Definition SetupSingleInstance (B : Bus) (uniqueID : string) : SI unit :=
  let dbusName := dbusName uniqueID in
  let dbusPath := dbusPath uniqueID in
  match ConnectSessionBus B with
  | Some _ => ret tt
  | None =>
      act (AExport dbusPath dbusName) ;;;
      match conn_Export B dbusPath dbusName with
      | Some _ => ret tt
      | None =>
          act (ARequestName dbusName) ;;;
          match conn_RequestName B dbusName with
          | inr _ => ret tt
          | inl reply =>
              (* if name already taken, try to send args to existing instance *)
              if is_Exists reply then
                match os_Getwd B with
                | inr err => act (APrintf "Failed to get working directory: %v" err)
                | inl wd =>
                    let data := {| Args := tail (os_Args B); WorkingDirectory := wd |} in
                    match json_Marshal B data with
                    | inr err => act (APrintf "Failed to marshal data: %v" err)
                    | inl serialized =>
                        act (ACall dbusName dbusPath (dbusName +:+ ".SendMessage")
                               serialized) ;;;
                        match object_Call B dbusName dbusPath
                                (dbusName +:+ ".SendMessage") serialized with
                        | Some _ => ret tt
                        | None => os_Exit
                        end
                    end
                end
              else ret tt
          end
      end
  end.

(** The handler exported on the bus (lines 36-43): a message that parses is
    put into [secondInstanceBuffer], another one is dropped. *)
Definition dbusHandler (json_Unmarshal : string -> SecondInstanceData + string)
    (message : string) (secondInstanceBuffer : list SecondInstanceData)
  : list SecondInstanceData :=
  match json_Unmarshal message with
  | inl secondInstanceData => secondInstanceBuffer ++ [secondInstanceData]
  | inr _ => secondInstanceBuffer
  end.

(** What the two replacements make of one character. *)
Definition underscored (c : ascii) : ascii :=
  if Ascii.eqb c "-" then "_"%char else if Ascii.eqb c "." then "_"%char else c.

(** One of the three characters that end up as an underscore. *)
Definition separator (c : ascii) : bool :=
  Ascii.eqb c "-" || Ascii.eqb c "." || Ascii.eqb c "_".

(** Two ids of the same length that agree at every position, up to
    separators. *)
Fixpoint alike (a b : string) : bool :=
  match a, b with
  | EmptyString, EmptyString => true
  | String x a', String y b' =>
      (Ascii.eqb x y || separator x && separator y) && alike a' b'
  | _, _ => false
  end.

(** A string without [-] and without a dot. *)
Definition clean (s : string) : bool :=
  forallb (fun c => negb (Ascii.eqb c "-") && negb (Ascii.eqb c "."))
    (list_ascii_of_string s).

End SingleInstance.

(** ** The dev command as a whole (dev.go, lines 55-272)

    [Application] prepares the build, starts the frontend watcher command,
    builds and starts the application, serves the loop and cleans up.  What
    it calls outside [restartApp], [doWatcherLoop] and
    [killProcessAndCleanupBinary] is answered by [AppEnv]; these calls are
    recorded in a list of their own beside the world. *)

Module App.

(** [flags.Dev]: the fields [Application] reads besides those of [Dev]. *)
Record Flags := {
  dev : Dev;
  NoSyncGoMod : bool;
  SkipModTidy : bool;
  Compiler : string;
  Tags : string;
  Browser : bool;
}.

Definition set_FrontendDevServerURL (url : string) (f : Flags) : Flags :=
  {| dev := {| AppArgs := AppArgs (dev f); LogLevel := LogLevel (dev f);
               AssetDir := AssetDir (dev f); DevServer := DevServer (dev f);
               FrontendDevServerURL := url; DlvFlag := DlvFlag (dev f);
               Extensions := Extensions (dev f); ReloadDirs := ReloadDirs (dev f);
               Debounce := Debounce (dev f); NoGoRebuild := NoGoRebuild (dev f);
               NoReload := NoReload (dev f) |};
     NoSyncGoMod := NoSyncGoMod f; SkipModTidy := SkipModTidy f;
     Compiler := Compiler f; Tags := Tags f; Browser := Browser f |}.

(** [project.Project], as far as [Application] reads it;
    [IsFrontendDevServerURLAutoDiscovery()] and [GetFrontendDir()] are
    fields here. *)
Record Project := {
  DevWatcherCommand : string;
  ReloadDirectories : string;
  FrontendDir : string;
  IsFrontendDevServerURLAutoDiscovery : bool;
}.

Definition set_IgnoreFrontend (b : bool) (o : BuildOptions) : BuildOptions :=
  {| IgnoreFrontend := b; IgnoreApplication := IgnoreApplication o;
     UserTags := UserTags o |}.
Definition set_IgnoreApplication (b : bool) (o : BuildOptions) : BuildOptions :=
  {| IgnoreFrontend := IgnoreFrontend o; IgnoreApplication := b;
     UserTags := UserTags o |}.
Definition set_UserTags (tags : list string) (o : BuildOptions) : BuildOptions :=
  {| IgnoreFrontend := IgnoreFrontend o; IgnoreApplication := IgnoreApplication o;
     UserTags := tags |}.

(** The collaborators of [Application], [runCommand] and the start of
    [runFrontendDevWatcherCommand]; an error is its message. *)
Record AppEnv := {
  os_Getwd : string + string;
  gomod_SyncGoMod : bool -> option string;
  cmd_CombinedOutput : string -> string -> list string -> string * option string;
  buildtags_Parse : string -> list string + string;
  GenerateBuildOptions : Flags -> BuildOptions;
  ProjectConfig : Flags -> Project;
  (* the watcher command: [cmd.Start()], and what the scanner finds in its
     output before the timeouts of 10 and 5 seconds *)
  watcher_Start : string -> string -> list string -> option string;
  scanner_ViteServerURL : option string;
  scanner_ViteServerVersion : option string;
  semver_Compare : string -> string -> Z;
  browser_OpenURL : string -> option string;
  DevServerURL : Dev -> URL;
}.

(** The calls [Application] makes besides the effects on the world, in
    program order. *)
Inductive Call :=
| CSyncGoMod (updateWailsVersionGoMod : bool) (err : option string)
| CCommand (dir command : string) (cmdargs : list string) (err : option string)
| CPrintln (s : string)
| CWatcherStart (dir name : string) (cmdargs : list string) (err : option string)
| CCancel
| CCloser
| CSleep (seconds : Z)
| COpenURL (url : string) (err : option string)
| CLoggerPrintln (msg : string)
| CGo
| CPanic (msg : string).

Record State := {
  world : World;
  calls : list Call;   (* oldest call first *)
}.

Abbreviation AppM := (M State).

Definition lift {A} (m : IO A) : AppM A :=
  fun s => (fst (m (world s)), {| world := snd (m (world s)); calls := calls s |}).

Definition call (c : Call) : AppM unit :=
  fun s => (Ok tt, {| world := world s; calls := calls s ++ [c] |}).

(** [os.Exit(1)], and a panic that nothing recovers. *)
Definition os_Exit {A} : AppM A := fun s => (Exit, s).
Definition panic {A} (msg : string) : AppM A :=
  fun s => (Exit, {| world := world s; calls := calls s ++ [CPanic msg] |}).

Definition viteMinVersion : string := "v3.0.0".

(** A deferred call: it runs when the function returns, which is when the
    body has a result; not when the loop still waits, and not when the
    process has ended. *)
Definition defer {R} (body : AppM (option R)) (deferred : AppM unit)
  : AppM (option R) :=
  r <- body ;;
  match r with
  | Some result => deferred ;;; ret (Some result)
  | None => ret None
  end.

Section App.

Variable E : Env.
Variable A : AppEnv.

(** [runCommand] (lines 192-206). *)
Definition runCommand (dir : string) (exitOnError : bool) (command : string)
    (cmdargs : list string) : AppM (option string) :=
  lift (LogGreen ("Executing: " +:+ command +:+ " " +:+ GoStrings.Join cmdargs " ") []) ;;;
  let '(output, err) := cmd_CombinedOutput A dir command cmdargs in
  call (CCommand dir command cmdargs err) ;;;
  match err with
  | Some e =>
      call (CPrintln output) ;;;
      call (CPrintln e) ;;;
      if exitOnError then os_Exit else ret (Some e)
  | None => ret None
  end.

(** [runFrontendDevWatcherCommand] (lines 209-272) up to its return: the
    watcher command is started, its output is scanned for the server URL
    (when asked for) and for the Vite version, and the stop function is
    returned with them.  The goroutine and the stop function are the subject
    of [FrontendWatcher]; here a result [inl] stands for the stop function
    with the URL and the version. *)
Definition runFrontendDevWatcherCommand (frontendDirectory devCommand : string)
    (discoverViteServerURL : bool) : AppM (string * string + string) :=
  let cmdSlice := GoStrings.Split devCommand " " in
  let name := hd "" cmdSlice in
  let err := watcher_Start A frontendDirectory name (List.tl cmdSlice) in
  call (CWatcherStart frontendDirectory name (List.tl cmdSlice) err) ;;;
  match err with
  | Some e =>
      call CCancel ;;;
      ret (inr ("unable to start frontend DevWatcher: " +:+ e))
  | None =>
      let found :=
        if discoverViteServerURL then scanner_ViteServerURL A else Some "" in
      match found with
      | None =>
          call CCancel ;;;
          ret (inr "failed to find Vite server URL")
      | Some viteServerURL =>
          let viteVersion :=
            match scanner_ViteServerVersion A with
            | Some version => version
            | None => ""
            end in
          lift (LogGreen "Running frontend DevWatcher command: '%s'" [ArgS devCommand]) ;;;
          ret (inl (viteServerURL, viteVersion))
      end
  end.

(** The statements of [Application] that the deferred cleanup covers (lines
    136-173), from the variables [debugBinaryProcess] and [appBinary] the
    deferred function has captured.  The result carries their values at the
    return, which is what the deferred function sees. *)
Definition serve (cwd : string) (projectConfig : Project) (buildOptions : BuildOptions)
    (f : Flags) (legacyUseDevServerInsteadofCustomScheme : bool)
    (debugBinaryProcess : option ProcRef) (appBinary : string) (events : list Event)
  : AppM (option (option string) * option ProcRef * string) :=
  (* open browser *)
  err <- (if Browser f then
            let url := URL_String E (DevServerURL A (dev f)) in
            let err := browser_OpenURL A url in
            call (COpenURL url err) ;;; ret err
          else ret None) ;;
  match err with
  | Some e => ret (Some (Some e), debugBinaryProcess, appBinary)
  | None =>
      lift (LogGreen "Using DevServer URL: %s"
              [ArgS (URL_String E (DevServerURL A (dev f)))]) ;;;
      (if negb (String.eqb (FrontendDevServerURL (dev f)) "") then
         lift (LogGreen "Using Frontend DevServer URL: %s"
                 [ArgS (FrontendDevServerURL (dev f))])
       else ret tt) ;;;
      lift (LogGreen "Using reload debounce setting of %d milliseconds"
              [ArgD (Debounce (dev f))]) ;;;
      (* Show dev server URL in terminal after 3 seconds *)
      call CGo ;;;
      (* Watch for changes and trigger restartApp() *)
      r <- lift (doWatcherLoop E cwd (ReloadDirectories projectConfig) buildOptions
                   debugBinaryProcess (dev f) (DevServerURL A (dev f))
                   legacyUseDevServerInsteadofCustomScheme events) ;;
      match r with
      | None => ret (None, debugBinaryProcess, appBinary)
      | Some (debugBinaryProcess, Some e) =>
          ret (Some (Some e), debugBinaryProcess, appBinary)
      | Some (debugBinaryProcess, None) =>
          (* Kill the current program if running and remove dev binary *)
          err <- lift (killProcessAndCleanupBinary E debugBinaryProcess appBinary) ;;
          match err with
          | Some e => ret (Some (Some e), debugBinaryProcess, appBinary)
          | None =>
              (* Reset the process and the binary so defer knows about it and
                 is a nop. *)
              lift (LogGreen "Development mode exited" []) ;;;
              ret (Some None, None, "")
          end
      end
  end.

(** The initial build and what follows (lines 122-173), with the deferred
    cleanup of lines 130-134. *)
Definition buildAndServe (cwd : string) (projectConfig : Project)
    (buildOptions : BuildOptions) (ignoreFrontend : bool) (f : Flags)
    (legacyUseDevServerInsteadofCustomScheme : bool) (events : list Event)
  : AppM (option (option string)) :=
  (* Do initial build but only for the application. *)
  call (CLoggerPrintln "Building application for development...") ;;;
  let buildOptions := set_IgnoreFrontend true buildOptions in
  r <- lift (restartApp E buildOptions None (dev f)
               legacyUseDevServerInsteadofCustomScheme) ;;
  let '(debugBinaryProcess, appBinary, err) := r in
  let buildOptions :=
    set_IgnoreFrontend
      (ignoreFrontend || negb (String.eqb (FrontendDevServerURL (dev f)) ""))
      buildOptions in
  match err with
  | Some e => ret (Some (Some e))
  | None =>
      served <- serve cwd projectConfig buildOptions f
                  legacyUseDevServerInsteadofCustomScheme debugBinaryProcess appBinary
                  events ;;
      let '(result, debugBinaryProcess, appBinary) := served in
      match result with
      | None => ret None
      | Some returned =>
          (* the deferred function *)
          err <- lift (killProcessAndCleanupBinary E debugBinaryProcess appBinary) ;;
          match err with
          | Some e =>
              lift (LogDarkYellow "Unable to kill process and cleanup binary: %s"
                      [ArgS e])
          | None => ret tt
          end ;;;
          ret (Some returned)
      end
  end.

(** [Application] (lines 55-174), run over the events the loop receives.
    The result is [None] while the loop still waits, and the returned error
    otherwise. *)
Definition Application (f : Flags) (events : list Event) : AppM (option (option string)) :=
  match os_Getwd A with
  | inr e => panic e
  | inl cwd =>
      (* Update go.mod to use current wails version *)
      let err := gomod_SyncGoMod A (negb (NoSyncGoMod f)) in
      call (CSyncGoMod (negb (NoSyncGoMod f)) err) ;;;
      match err with
      | Some e => ret (Some (Some e))
      | None =>
          err <- (if negb (SkipModTidy f) then
                    (* Run go mod tidy to ensure we're up-to-date *)
                    runCommand cwd false (Compiler f) ["mod"; "tidy"]
                  else ret None) ;;
          match err with
          | Some e => ret (Some (Some e))
          | None =>
              let buildOptions := GenerateBuildOptions A f in
              match buildtags_Parse A (Tags f) with
              | inr e => ret (Some (Some e))
              | inl userTags =>
                  let buildOptions := set_UserTags userTags buildOptions in
                  let projectConfig := ProjectConfig A f in
                  (* Build the frontend if requested, but ignore building the
                     application itself. *)
                  let ignoreFrontend := IgnoreFrontend buildOptions in
                  built <- (if negb ignoreFrontend then
                              r <- lift (Build E (set_IgnoreApplication true buildOptions)) ;;
                              match r with
                              | inr e => ret (inr e)
                              | inl _ => ret (inl (set_IgnoreApplication false buildOptions))
                              end
                            else ret (inl buildOptions)) ;;
                  match built with
                  | inr e => ret (Some (Some e))
                  | inl buildOptions =>
                      (* frontend:dev:watcher command. *)
                      let frontendDevAutoDiscovery :=
                        IsFrontendDevServerURLAutoDiscovery projectConfig in
                      let command := DevWatcherCommand projectConfig in
                      if negb (String.eqb command "") then
                        started <- runFrontendDevWatcherCommand (FrontendDir projectConfig)
                                     command frontendDevAutoDiscovery ;;
                        match started with
                        | inr e => ret (Some (Some e))
                        | inl (devServerURL, devServerViteVersion) =>
                            let f := if negb (String.eqb devServerURL "")
                                     then set_FrontendDevServerURL devServerURL f
                                     else f in
                            defer
                              (if negb (String.eqb devServerViteVersion "")
                                  && (semver_Compare A devServerViteVersion viteMinVersion <? 0)
                               then
                                 lift (LogRed "Please upgrade your Vite Server to at least '%s' future Wails versions will require at least Vite '%s'"
                                         [ArgS viteMinVersion; ArgS viteMinVersion]) ;;;
                                 call (CSleep 3) ;;;
                                 buildAndServe cwd projectConfig buildOptions ignoreFrontend
                                   f true events
                               else
                                 buildAndServe cwd projectConfig buildOptions ignoreFrontend
                                   f false events)
                              (call CCloser)
                        end
                      else if frontendDevAutoDiscovery then
                        ret (Some (Some "unable to auto discover frontend:dev:serverUrl without a frontend:dev:watcher command, please either set frontend:dev:watcher or remove the auto discovery from frontend:dev:serverUrl"))
                      else
                        buildAndServe cwd projectConfig buildOptions ignoreFrontend f false
                          events
                  end
              end
          end
      end
  end.

End App.

(** *** Vocabulary for the calls *)

Definition is_closer (c : Call) : bool :=
  match c with
  | CCloser => true
  | _ => false
  end.

Definition is_cancel (c : Call) : bool :=
  match c with
  | CCancel => true
  | _ => false
  end.

(** A watcher command that was started without error. *)
Definition started_ok (c : Call) : bool :=
  match c with
  | CWatcherStart _ _ _ None => true
  | _ => false
  end.

(** Whether the stop function was called, a watcher command was started, its
    context was cancelled by [runFrontendDevWatcherCommand]. *)
Definition tally (d : list Call) : bool * bool * bool :=
  (existsb is_closer d, existsb started_ok d, existsb is_cancel d).

(** The calls made since [s0] have the tally [b]. *)
Definition tallied (s0 : State) (b : bool * bool * bool) (s : State) : Prop :=
  exists d, calls s = calls s0 ++ d /\ tally d = b.

(** Since [s0] the stop function was not called. *)
Definition not_stopped (s0 s : State) : Prop :=
  exists d, calls s = calls s0 ++ d /\ existsb is_closer d = false.

(** Since [s0] the stop function was called once, at the very end, when a
    watcher command was started and not cancelled, and not at all
    otherwise. *)
Definition stopped_at_return (s0 s : State) : Prop :=
  exists d, calls s = calls s0 ++ d /\
    if existsb started_ok d && negb (existsb is_cancel d)
    then exists d', d = d' ++ [CCloser] /\ existsb is_closer d' = false
    else existsb is_closer d = false.

(** *** Vocabulary for the processes *)

Definition is_kill (e : Effect) : bool :=
  match e with
  | EKill _ _ => true
  | _ => false
  end.

Definition is_started (e : Effect) : bool :=
  match e with
  | EStart _ None => true
  | _ => false
  end.

(** Since [w0] nothing was killed, and what was started runs. *)
Definition started_runs (w0 w : World) : Prop :=
  exists d, trace w = trace w0 ++ d /\
    forallb (fun e => negb (is_kill e)) d = true /\
    forall p, In (EStart p None) d ->
      exists o, heap w !! p = Some o /\ Running o = true.

(** No process object runs. *)
Definition all_stopped (w : World) : Prop :=
  forall q o, heap w !! q = Some o -> Running o = false.

End App.

(** ** Further concrete inputs *)

Module Scenario2.
Import Scenario.

(** The project with the application stopped. *)
Definition worldStopped : World := set_heap {[0%nat := stopped app]} world.

(** The loop's variables with the asset directory known. *)
Definition assetsKnown : Loop := set_assetDir "/project/frontend/dist" idle.

(** The watcher command dies of itself; the stop function is called
    afterwards. *)
Definition watcherDies : list FrontendWatcher.Action :=
  [FrontendWatcher.WaitReturns (Some "exit status 2");
   FrontendWatcher.Goroutine; FrontendWatcher.Goroutine; FrontendWatcher.Goroutine;
   FrontendWatcher.Call; FrontendWatcher.Closer 0; FrontendWatcher.Closer 0;
   FrontendWatcher.Closer 0].

(** The dev server of the concrete project. *)
Definition devServerURL : URL :=
  {| Scheme := "http"; Host := "localhost:34115"; Path := "" |}.

(** A Go file is written, the timer fires, and the application exits with
    status 0. *)
Definition rebuildAndQuit : list Event :=
  [write "/project/main.go"; TimerC; ExitCode 0].

(** The loop of the concrete project with the reloading of assets
    switched off. *)
Definition cfgNoReload : LoopCfg :=
  {| buildOptions := buildOptions (cfg false);
     f := f (cfg false);
     legacyUseDevServerInsteadofCustomScheme := false;
     extensionsThatTriggerARebuild := extensionsThatTriggerARebuild (cfg false);
     dirsThatTriggerAReload := dirsThatTriggerAReload (cfg false);
     interval := interval (cfg false);
     skipAssetsReload := true;
     assetDirURL := assetDirURL (cfg false);
     reloadURL := reloadURL (cfg false) |}.

(** The project before the application is started. *)
Definition worldFresh : World := set_heap ∅ world.

(** The watcher cannot be created. *)
Definition noWatcher : Env :=
  {| build_Build := build_Build healthy;
     os_kill := os_kill healthy;
     cmd_Start := cmd_Start healthy;
     shlex_Split := shlex_Split healthy;
     os_Remove := os_Remove healthy;
     fs_DeleteFile := fs_DeleteFile healthy;
     watcher_Add := watcher_Add healthy;
     http_Get := http_Get healthy;
     filepath_Dir := filepath_Dir healthy;
     filepath_Abs := filepath_Abs healthy;
     path_Join := path_Join healthy;
     URL_String := URL_String healthy;
     initialiseWatcher := fun _ _ _ => inr "too many open files";
     watcher_Close := watcher_Close healthy |}.

(** A project with a Vite watcher command of an old version, whose server
    URL is discovered.  The two versions at hand compare as their strings
    do. *)
Definition appEnv : App.AppEnv :=
  {| App.os_Getwd := inl "/project";
     App.gomod_SyncGoMod := fun _ => None;
     App.cmd_CombinedOutput := fun _ _ _ => ("", None);
     App.buildtags_Parse := fun _ => inl [];
     App.GenerateBuildOptions := fun _ =>
       {| IgnoreFrontend := false; IgnoreApplication := false; UserTags := [] |};
     App.ProjectConfig := fun _ =>
       {| App.DevWatcherCommand := "npm run dev"; App.ReloadDirectories := "";
          App.FrontendDir := "/project/frontend";
          App.IsFrontendDevServerURLAutoDiscovery := true |};
     App.watcher_Start := fun _ _ _ => None;
     App.scanner_ViteServerURL := Some "http://localhost:5173/";
     App.scanner_ViteServerVersion := Some "v2.9.0";
     App.semver_Compare := fun v w =>
       match String.compare v w with
       | Lt => -1
       | Eq => 0
       | Gt => 1
       end;
     App.browser_OpenURL := fun _ => None;
     App.DevServerURL := fun _ => devServerURL |}.

Definition appFlags : App.Flags :=
  {| App.dev := flags false; App.NoSyncGoMod := false; App.SkipModTidy := false;
     App.Compiler := "go"; App.Tags := ""; App.Browser := true |}.

(** The dev command is started. *)
Definition start : App.State := {| App.world := worldFresh; App.calls := [] |}.

End Scenario2.

(** * Properties *)

(** ** Unfolding the monad *)

Lemma bind_Ok {S A B} (m : M S A) (k : A -> M S B) s a s' :
  m s = (Ok a, s') -> bind m k s = k a s'.
Proof. intros H. unfold bind. now rewrite H. Qed.

Lemma bind_Continue {S A B} (m : M S A) (k : A -> M S B) s s' :
  m s = (Continue, s') -> bind m k s = (Continue, s').
Proof. intros H. unfold bind. now rewrite H. Qed.

Lemma bind_Exit {S A B} (m : M S A) (k : A -> M S B) s s' :
  m s = (Exit, s') -> bind m k s = (Exit, s').
Proof. intros H. unfold bind. now rewrite H. Qed.

Lemma trace_emit e w : trace (emit e w) = trace w ++ [e].
Proof. reflexivity. Qed.

(** ** What a computation leaves as it was, and whether it comes back *)

Section Keeps.

Context {S : Type} (R : S -> S -> Prop).
Hypothesis R_refl : forall s, R s s.
Hypothesis R_trans : forall s1 s2 s3, R s1 s2 -> R s2 s3 -> R s1 s3.

Lemma keeps_ret {A} (a : A) : keeps R (ret a).
Proof using R_refl. intros s. apply R_refl. Qed.

Lemma keeps_bind {A B} (m : M S A) (k : A -> M S B) :
  keeps R m -> (forall a, keeps R (k a)) -> keeps R (bind m k).
Proof using R_trans.
  intros Hm Hk s. unfold bind. specialize (Hm s).
  destruct (m s) as [[a | |] s']; cbn in *; auto.
  eapply R_trans; [exact Hm | apply Hk].
Qed.

End Keeps.

Lemma returns_ret {S A} (a : A) : returns (@ret S A a).
Proof. intros s. now exists a. Qed.

Lemma returns_bind {S A B} (m : M S A) (k : A -> M S B) :
  returns m -> (forall a, returns (k a)) -> returns (bind m k).
Proof.
  intros Hm Hk s. unfold bind. destruct (Hm s) as [a Ha].
  destruct (m s) as [[a' | |] s']; cbn in Ha; try discriminate. apply Hk.
Qed.

Lemma returns_effect e : returns (effect e).
Proof. intros w. now exists tt. Qed.

Lemma returns_io {A} (m : IO A) : returns m -> returns (io m).
Proof.
  intros Hm [l w]. destruct (Hm w) as [a Ha]. exists a. unfold io. cbn.
  destruct (m w) as [r w']. cbn in *. exact Ha.
Qed.

Lemma returns_assign upd : returns (assign upd).
Proof. intros s. now exists tt. Qed.

Lemma returns_vars : returns vars.
Proof. intros s. now exists (fst s). Qed.

Lemma returns_Get E url : returns (Get E url).
Proof. intros w. eexists. reflexivity. Qed.

Section KillAndCleanup.

Variable E : Env.

(** C2.  [killProcessAndCleanupBinary] called with a running process and a
    non-empty binary path first kills.  If the kill fails, the function
    returns that error and has done nothing else: no file was removed.  If
    the kill succeeds, the one [os.Remove] of the binary comes after it, when
    the process object no longer runs. *)
Theorem killProcessAndCleanupBinary_kill_before_delete
    (p : ProcRef) (o : Process) (binary : string) (w : World) :
  heap w !! p = Some o ->
  Running o = true ->
  binary <> "" ->
  exists (r : option string) (w' : World),
    killProcessAndCleanupBinary E (Some p) binary w = (Ok r, w') /\
    ((exists err, os_kill E p w = Some err /\ r = Some err /\
                  trace w' = trace w ++ [EKill p (Some err)] /\
                  files w' = files w /\ heap w' = heap w)
     \/
     (os_kill E p w = None /\
      heap w' !! p = Some (stopped o) /\
      exists rm, trace w' = trace w ++ [EKill p None; ERemove binary rm])).
Proof.
  intros Hp Hrun Hbin.
  unfold killProcessAndCleanupBinary.
  assert (Hne : negb (String.eqb binary "") = true).
  { destruct (String.eqb_spec binary ""); [contradiction | reflexivity]. }
  unfold bind, process_Running, process_Kill.
  cbv beta. rewrite Hp, Hrun. cbv beta iota. rewrite Hp, Hrun.
  destruct (os_kill E p w) as [err|] eqn:Hk.
  - exists (Some err), (emit (EKill p (Some err)) w). split; [reflexivity|].
    left. exists err. auto.
  - unfold ret, Remove. rewrite Hne.
    destruct (os_Remove E binary _) as [e|] eqn:Hr.
    + destruct e; cbn; eexists _, _; (split; [reflexivity|]); right;
        (split; [reflexivity|]); cbn; rewrite lookup_insert_eq;
        (split; [reflexivity|]); eexists; rewrite <- app_assoc; reflexivity.
    + cbn. eexists _, _. split; [reflexivity|]. right.
      split; [reflexivity|]. cbn. rewrite lookup_insert_eq.
      split; [reflexivity|]. eexists. rewrite <- app_assoc. reflexivity.
Qed.

End KillAndCleanup.

(** ** The effects of the timer case, block by block *)

Lemma extends_refl P w : extends P w w.
Proof. exists []. split; [now rewrite app_nil_r | reflexivity]. Qed.

Lemma extends_same_trace P w w' : trace w' = trace w -> extends P w w'.
Proof. intros H. exists []. split; [now rewrite app_nil_r | reflexivity]. Qed.

Lemma extends_trans P w1 w2 w3 : extends P w1 w2 -> extends P w2 w3 -> extends P w1 w3.
Proof.
  intros (d1 & H1 & F1) (d2 & H2 & F2). exists (d1 ++ d2). split.
  - now rewrite H2, H1, app_assoc.
  - rewrite forallb_app, F1, F2. reflexivity.
Qed.

Lemma extends_emit P e w : P e = true -> extends P w (emit e w).
Proof. intros H. exists [e]. split; [reflexivity | cbn; now rewrite H]. Qed.

Lemma calm_refl P s : calm P s s.
Proof. unfold calm. repeat split; auto using extends_refl. Qed.

Lemma calm_trans P s1 s2 s3 : calm P s1 s2 -> calm P s2 s3 -> calm P s1 s3.
Proof.
  unfold calm. intros (A1 & A2 & A3 & A4 & A5 & A6 & A7 & A8 & A9 & A10)
    (B1 & B2 & B3 & B4 & B5 & B6 & B7 & B8 & B9 & B10).
  repeat split; try congruence; eauto using extends_trans.
Qed.

Lemma calm_effect P e : P e = true -> keeps (calm P) (io (effect e)).
Proof.
  intros H [l w]. unfold calm. cbn. repeat split; auto using extends_emit.
Qed.

Lemma calm_Get E P url : P (EHttpGet url) = true -> keeps (calm P) (io (Get E url)).
Proof.
  intros H [l w]. unfold calm. cbn. repeat split; auto using extends_emit.
Qed.

Lemma calm_assign P upd :
  (forall l, debugBinaryProcess (upd l) = debugBinaryProcess l /\
             quit (upd l) = quit l /\ rebuild (upd l) = rebuild l /\
             timer_armed (upd l) = timer_armed l /\
             (reload l = true -> reload (upd l) = true)) ->
  keeps (calm P) (assign upd).
Proof.
  intros H [l w]. destruct (H l) as (H1 & H2 & H3 & H4 & H5).
  unfold calm. cbn. repeat split; auto using extends_refl.
Qed.

Create HintDb calm.
#[local] Hint Resolve calm_refl calm_trans : calm.

Lemma calm_vars P : keeps (calm P) vars.
Proof. intros s. apply calm_refl. Qed.

Ltac calm_step :=
  first
    [ apply keeps_bind; [eauto with calm | | intros ?]
    | apply keeps_ret; eauto with calm
    | apply calm_vars
    | apply calm_effect; solve [auto]
    | apply calm_Get; solve [auto]
    | apply calm_assign; intros ?; cbn; tauto
    | match goal with
      | |- keeps _ (if ?b then _ else _) => destruct b
      | |- keeps _ (match ?x with _ => _ end) => destruct x
      end ].

Ltac returns_step :=
  first
    [ apply returns_bind; [| intros ?]
    | apply returns_vars | apply returns_ret | apply returns_assign
    | apply returns_io; first [apply returns_effect | apply returns_Get]
    | match goal with
      | |- returns (if ?b then _ else _) => destruct b
      | |- returns (match ?x with _ => _ end) => destruct x
      end ].

Section TimerBlocks.

Variable E : Env.
Variable c : LoopCfg.

(** Any property of effects that HTTP requests and log lines have. *)
Variable P : Effect -> bool.
Hypothesis P_http : forall url, P (EHttpGet url) = true.
Hypothesis P_log : forall colour format fargs, P (ELog colour format fargs) = true.

Lemma assetsBlock_calm : keeps (calm P) (assetsBlock E c).
Proof using P_http P_log. unfold assetsBlock, LogRed. repeat calm_step. Qed.

Lemma assetsBlock_returns : returns (assetsBlock E c).
Proof. unfold assetsBlock, LogRed. repeat returns_step. Qed.

Lemma reloadBlock_calm_but_reload :
  forall s, let s' := snd (reloadBlock E c s) in
    debugBinaryProcess (fst s') = debugBinaryProcess (fst s) /\
    quit (fst s') = quit (fst s) /\
    rebuild (fst s') = rebuild (fst s) /\
    timer_armed (fst s') = timer_armed (fst s) /\
    reload (fst s') = false /\
    heap (snd s') = heap (snd s) /\
    files (snd s') = files (snd s) /\
    dirs (snd s') = dirs (snd s) /\
    watched (snd s') = watched (snd s) /\
    extends P (snd s) (snd s').
Proof using P_http P_log.
  intros [l w]. unfold reloadBlock, bind, vars. cbn.
  destruct (reload l) eqn:Hr; cbn.
  - destruct (http_Get E (reloadURL c) w); cbn; repeat split; auto.
    + eapply extends_trans; apply extends_emit; auto.
    + apply extends_emit; auto.
  - repeat split; auto using extends_refl.
Qed.

Lemma reloadBlock_returns : returns (reloadBlock E c).
Proof. unfold reloadBlock, LogRed. repeat returns_step. Qed.

End TimerBlocks.

(** ** A failed build *)

Section BuildFailure.

Variable E : Env.

Lemma restartApp_build_failure opts prev f legacy w err :
  build_Build E opts w = inr err ->
  restartApp E opts prev f legacy w =
  (Ok (None, "", None),
   emit (ELog DarkYellow
           match prev with
           | None => "No version running, build will be retriggered as soon as changes have been detected"
           | Some _ => "Continuing to run current version"
           end [])
     (emit (ELog Red ("Build error - " +:+ err) [])
        (emit EPrintln (emit (EBuild opts (inr err)) w)))).
Proof.
  intros Hb. unfold restartApp, bind, Build. rewrite Hb. reflexivity.
Qed.

Lemma rebuildBlock_build_failure c l w err :
  rebuild l = true ->
  NoGoRebuild (f c) = false ->
  build_Build E (buildOptions c) (atRebuild w) = inr err ->
  exists w',
    rebuildBlock E c (l, w) = (Ok tt, (set_rebuild false l, w')) /\
    heap w' = heap w /\ files w' = files w /\ dirs w' = dirs w /\
    watched w' = watched w /\
    extends (fun e => negb (is_process_op e) && negb (is_http e)) w w'.
Proof.
  intros Hr Hn Hb. unfold rebuildBlock, bind, vars. cbn. rewrite Hr, Hn. cbn.
  unfold io. cbn.
  rewrite (restartApp_build_failure _ _ _ _ _ _ Hb). cbn.
  eexists. split; [reflexivity|]. cbn. repeat split; auto.
  eexists [_; _; _; _; _]. unfold atRebuild. rewrite !trace_emit, <- !app_assoc.
  cbn. split; reflexivity.
Qed.

(** C1.  When the builder fails, [restartApp] returns a nil process, an empty
    binary path and a nil error, and has only logged: the process objects and
    the files are as before.  In the loop, a timer case whose rebuild attempt
    fails that way goes on with the same process handle, and the object
    behind it (PID, command, [Running]) has not changed; no process was
    killed or started. *)
Theorem failed_build_keeps_running_app :
  (forall opts prev f legacy w err,
      build_Build E opts w = inr err ->
      exists w',
        restartApp E opts prev f legacy w = (Ok (None, "", None), w') /\
        heap w' = heap w /\ files w' = files w /\
        extends (fun e => negb (is_process_op e)) w w')
  /\
  (forall c l w err,
      rebuild l = true ->
      NoGoRebuild (f c) = false ->
      build_Build E (buildOptions c) (atRebuild w) = inr err ->
      exists l' w',
        iteration E c TimerC (l, w) = (Ok tt, (l', w')) /\
        debugBinaryProcess l' = debugBinaryProcess l /\
        quit l' = quit l /\
        heap w' = heap w /\ files w' = files w /\
        extends (fun e => negb (is_process_op e)) w w').
Proof.
  split.
  - intros opts prev f legacy w err Hb.
    rewrite (restartApp_build_failure _ _ _ _ _ _ Hb).
    eexists. split; [reflexivity|]. cbn. repeat split.
    eexists [_; _; _; _]. rewrite !trace_emit, <- !app_assoc. cbn.
    split; reflexivity.
  - intros c l w err Hr Hn Hb.
    set (P := fun e => negb (is_process_op e)).
    assert (P_http : forall url, P (EHttpGet url) = true) by reflexivity.
    assert (P_log : forall k fm fa, P (ELog k fm fa) = true) by reflexivity.
    destruct (rebuildBlock_build_failure c (set_timer_armed false l) w err Hr Hn Hb)
      as (w1 & Hblock & Hh1 & Hf1 & Hd1 & Hw1 & Hx1).
    unfold iteration, onTimer.
    rewrite (bind_Ok _ _ (l, w) tt (set_timer_armed false l, w)) by reflexivity.
    rewrite (bind_Ok _ _ _ _ _ Hblock).
    set (s1 := (set_rebuild false (set_timer_armed false l), w1)).
    pose proof (assetsBlock_calm E c P P_http P_log s1) as Ha.
    destruct (assetsBlock_returns E c s1) as [[] Hra].
    destruct (assetsBlock E c s1) as [ra s2] eqn:Hs2. cbn in Hra, Ha. subst ra.
    rewrite (bind_Ok _ _ _ _ _ Hs2).
    pose proof (reloadBlock_calm_but_reload E c P P_http P_log s2) as Hb2.
    destruct (reloadBlock_returns E c s2) as [[] Hrb].
    destruct (reloadBlock E c s2) as [rb s3] eqn:Hs3. cbn in Hrb, Hb2. subst rb.
    rewrite (bind_Ok _ _ _ _ _ Hs3).
    destruct s3 as [l3 w3]. cbn.
    exists (set_changedPaths ∅ l3), w3. split; [reflexivity|].
    destruct Ha as (A1 & A2 & A3 & A4 & A5 & A6 & A7 & A8 & A9 & A10).
    destruct Hb2 as (B1 & B2 & B3 & B4 & B5 & B6 & B7 & B8 & B9 & B10).
    subst s1. cbn [fst snd] in *.
    split; [change (debugBinaryProcess l3 = debugBinaryProcess l);
            rewrite B1, A1; reflexivity|].
    split; [change (quit l3 = quit l); rewrite B2, A2; reflexivity|].
    split; [congruence|]. split; [congruence|].
    eapply extends_trans; [| eapply extends_trans; [exact A10 | exact B10]].
    destruct Hx1 as (d & Hd & Fd). exists d. split; [exact Hd|].
    clear -Fd. induction d as [|e d IH]; [reflexivity|]. cbn in *.
    apply andb_prop in Fd as [Fe Fd']. apply andb_prop in Fe as [Fe _].
    unfold P. rewrite Fe. now apply IH.
Qed.

End BuildFailure.

(** ** The effects of [restartApp] *)

Section RestartEffects.

Variable E : Env.

(** Any property that all effects have, builds and HTTP requests apart. *)
Variable P : Effect -> bool.
Hypothesis P_other : forall e, is_build e = false -> is_http e = false -> P e = true.

Lemma extends_effect e :
  is_build e = false -> is_http e = false -> keeps (extends P) (effect e).
Proof using P_other. intros Hb Hh w. apply extends_emit. auto. Qed.

Lemma extends_Fatal {A} format fargs : keeps (extends P) (@Logger_Fatal A format fargs).
Proof using P_other. intros w. apply extends_emit. auto. Qed.

Lemma extends_process_Kill p : keeps (extends P) (process_Kill E p).
Proof using P_other.
  intros w. unfold process_Kill.
  destruct (heap w !! p) as [o|]; [|apply extends_refl].
  destruct (Running o); [|apply extends_refl].
  destruct (os_kill E p w); cbn; eexists [_]; (split; [reflexivity|]);
    cbn; rewrite P_other; reflexivity.
Qed.

Lemma extends_process_PID p : keeps (extends P) (process_PID p).
Proof. intros w. apply extends_refl. Qed.

Lemma extends_Setenv key value : keeps (extends P) (Setenv key value).
Proof using P_other.
  intros w. cbn. eexists [_]. split; [reflexivity|]. cbn. rewrite P_other; reflexivity.
Qed.

Lemma extends_NewProcess cmd cmdargs : keeps (extends P) (NewProcess cmd cmdargs).
Proof. intros w. now apply extends_same_trace. Qed.

Lemma extends_process_Start p : keeps (extends P) (process_Start E p).
Proof using P_other.
  intros w. unfold process_Start.
  destruct (heap w !! p) as [o|]; [|apply extends_refl].
  destruct (cmd_Start E (command o) (args o) w); cbn; eexists [_];
    (split; [reflexivity|]); cbn; rewrite P_other; reflexivity.
Qed.

Lemma extends_fs_FileExists path : keeps (extends P) (fs_FileExists path).
Proof. intros w. apply extends_refl. Qed.

Lemma extends_DeleteFile path : keeps (extends P) (DeleteFile E path).
Proof using P_other.
  intros w. unfold DeleteFile.
  destruct (fs_DeleteFile E path w); cbn; eexists [_]; (split; [reflexivity|]);
    cbn; rewrite P_other; reflexivity.
Qed.

Ltac extends_step :=
  first
    [ apply keeps_bind; [apply extends_trans | | intros ?]
    | apply keeps_ret; apply extends_refl
    | apply extends_effect; reflexivity
    | apply extends_Fatal
    | apply extends_process_Kill
    | apply extends_process_PID
    | apply extends_Setenv
    | apply extends_NewProcess
    | apply extends_process_Start
    | apply extends_fs_FileExists
    | apply extends_DeleteFile
    | match goal with
      | |- keeps _ (if ?b then _ else _) => destruct b
      | |- keeps _ (match ?x with _ => _ end) => destruct x
      | |- keeps _ (let '(_, _) := ?x in _) => destruct x
      end ].

(** [restartApp] calls the builder once, first, and then never again, and it
    sends no HTTP request. *)
Lemma restartApp_effects opts prev f legacy w :
  exists w1, extends P w1 (snd (restartApp E opts prev f legacy w)) /\
             trace w1 = trace w ++ [EBuild opts (build_Build E opts w)].
Proof using P_other.
  unfold restartApp.
  match goal with
  | |- context [bind (Build E opts) ?k] =>
      assert (Hk : forall built, keeps (extends P) (k built))
  end.
  { intros [appBinary | err]; cbv beta iota;
      unfold LogGreen, LogRed, LogDarkYellow, println; repeat extends_step. }
  destruct (Build E opts w) as [r w1] eqn:HB.
  assert (r = Ok (build_Build E opts w) /\
          trace w1 = trace w ++ [EBuild opts (build_Build E opts w)]) as [-> Ht].
  { unfold Build in HB. destruct (build_Build E opts w); inversion HB; auto. }
  exists w1. split; [|exact Ht].
  rewrite (bind_Ok _ _ _ _ _ HB). apply Hk.
Qed.

End RestartEffects.

(** ** The shape of one timer case *)

Lemma builds_app d1 d2 : builds (d1 ++ d2) = (builds d1 + builds d2)%nat.
Proof. unfold builds. now rewrite List.filter_app, length_app. Qed.

Lemma builds_none d : forallb (fun e => negb (is_build e)) d = true -> builds d = 0%nat.
Proof.
  unfold builds. induction d as [|e d IH]; [reflexivity|]. cbn.
  intros H. apply andb_prop in H as [He Hd].
  destruct (is_build e); [discriminate | now apply IH].
Qed.

Lemma forallb_weaken (P Q : Effect -> bool) d :
  (forall e, P e = true -> Q e = true) -> forallb P d = true -> forallb Q d = true.
Proof.
  intros H. induction d as [|e d IH]; [reflexivity|]. cbn.
  intros F. apply andb_prop in F as [Fe Fd]. now rewrite (H e Fe), IH.
Qed.

Section TimerCase.

Variable E : Env.
Variable c : LoopCfg.

(** The first block: afterwards no rebuild is pending, wherever the block
    ends; [quit] and [reload] are as before; the builder was called once, or
    not at all under [-nogorebuild]; no HTTP request was sent.  Without a
    pending rebuild the block does nothing. *)
Lemma rebuildBlock_shape l w :
  let res := rebuildBlock E c (l, w) in
  let l' := fst (snd res) in
  let w' := snd (snd res) in
  rebuild l' = false /\
  quit l' = quit l /\
  reload l' = reload l /\
  (rebuild l = false -> res = (Ok tt, (l, w))) /\
  (NoGoRebuild (f c) = true -> fst res = Ok tt) /\
  exists d,
    trace w' = trace w ++ d /\
    forallb (fun e => negb (is_http e)) d = true /\
    builds d = (if rebuild l && negb (NoGoRebuild (f c)) then 1 else 0)%nat.
Proof.
  unfold rebuildBlock, bind, vars, assign, io, ret. cbv beta iota. cbn [fst snd].
  destruct (rebuild l) eqn:Hr; cbn [andb].
  2:{ cbn. repeat split; auto. exists []. now rewrite app_nil_r. }
  destruct (NoGoRebuild (f c)) eqn:Hn; cbn [negb].
  { cbn. repeat split; auto; try discriminate. eexists [_]. repeat split. }
  cbn [LogGreen effect fst snd].
  set (w0 := emit (ELog Green "[Rebuild triggered] files updated" []) w).
  destruct (restartApp_effects E quiet
              ltac:(intros e Hb Hh; unfold quiet; now rewrite Hb, Hh)
              (buildOptions c) (debugBinaryProcess l) (f c)
              (legacyUseDevServerInsteadofCustomScheme c) w0)
    as (w1 & (d & Hd & Fd) & Hw1).
  assert (Hshape : forall w', trace w' = trace w1 ++ d ->
            exists d', trace w' = trace w ++ d' /\
              forallb (fun e => negb (is_http e)) d' = true /\ builds d' = 1%nat).
  { intros w' Hw'. eexists ([_; _] ++ d). split; [|split].
    - rewrite Hw', Hw1. unfold w0. rewrite trace_emit, <- !app_assoc. reflexivity.
    - cbn. eapply forallb_weaken; [|exact Fd]. unfold quiet. intros e He.
      apply andb_prop in He as [_ He]. exact He.
    - rewrite builds_app. rewrite (builds_none d); [reflexivity|].
      eapply forallb_weaken; [|exact Fd]. unfold quiet. intros e He.
      apply andb_prop in He as [He _]. exact He. }
  destruct (restartApp E _ _ _ _ w0) as [[[[newp bin] [e|]] | | ] w2]; cbn in Hd |- *.
  - repeat split; try discriminate.
    exists (([ELog Green "[Rebuild triggered] files updated" [];
              EBuild (buildOptions c) (build_Build E (buildOptions c) w0)] ++ d)
            ++ [ELog Red "Error during build: %s" [ArgS e]]).
    split; [|split].
    + rewrite Hd, Hw1. unfold w0. rewrite trace_emit, <- !app_assoc. reflexivity.
    + rewrite forallb_app. cbn. rewrite andb_true_r.
      eapply forallb_weaken; [|exact Fd]. unfold quiet. intros e0 He.
      apply andb_prop in He as [_ He]. exact He.
    + rewrite !builds_app. rewrite (builds_none d); [reflexivity|].
      eapply forallb_weaken; [|exact Fd]. unfold quiet. intros e0 He.
      apply andb_prop in He as [He _]. exact He.
  - destruct newp; cbn; repeat split; try discriminate; apply Hshape; exact Hd.
  - repeat split; try discriminate. apply Hshape; exact Hd.
  - repeat split; try discriminate. apply Hshape; exact Hd.
Qed.

(** The third block sends the reload request when a reload is pending, and
    nothing otherwise. *)
Lemma reloadBlock_sends l w :
  let w' := snd (snd (reloadBlock E c (l, w))) in
  if reload l then exists d, trace w' = trace w ++ EHttpGet (reloadURL c) :: d
  else w' = w.
Proof.
  unfold reloadBlock, bind, vars. cbn. destruct (reload l); cbn; [|reflexivity].
  destruct (http_Get E (reloadURL c) w); cbn.
  - eexists [_]. rewrite <- app_assoc. reflexivity.
  - exists []. reflexivity.
Qed.

(** One timer case, whole.  Its effects come in two stretches: the rebuild
    block's, with the calls of the builder and without HTTP requests, and the
    rest, with the HTTP requests and without calls of the builder.  No rebuild
    is pending afterwards.  When the rebuild block comes back, which it does
    under [-nogorebuild] and when no rebuild was pending, a pending reload is
    sent and the batch is cleared. *)
Lemma timer_case_shape l w :
  let res := iteration E c TimerC (l, w) in
  let l' := fst (snd res) in
  let w' := snd (snd res) in
  rebuild l' = false /\
  quit l' = quit l /\
  exists d1 d2,
    trace w' = trace w ++ d1 ++ d2 /\
    forallb not_http d1 = true /\
    forallb not_build d2 = true /\
    builds d1 = (if rebuild l && negb (NoGoRebuild (f c)) then 1 else 0)%nat /\
    (NoGoRebuild (f c) = true \/ rebuild l = false ->
     fst res = Ok tt /\ reload l' = false /\ changedPaths l' = ∅ /\
     (reload l = true -> In (EHttpGet (reloadURL c)) d2)).
Proof.
  cbv zeta. unfold iteration, onTimer.
  rewrite (bind_Ok _ _ (l, w) tt (set_timer_armed false l, w)) by reflexivity.
  pose proof (rebuildBlock_shape (set_timer_armed false l) w) as Hrb.
  cbv zeta in Hrb. destruct Hrb as (R1 & R2 & R3 & R4 & R5 & d1 & Hd1 & F1 & B1).
  change (rebuild (set_timer_armed false l)) with (rebuild l) in *.
  change (quit (set_timer_armed false l)) with (quit l) in *.
  change (reload (set_timer_armed false l)) with (reload l) in *.
  destruct (rebuildBlock E c (set_timer_armed false l, w)) as [r1 [l1 w1]] eqn:Hblock.
  cbn [fst snd] in *.
  assert (Hskip : NoGoRebuild (f c) = true \/ rebuild l = false -> r1 = Ok tt).
  { intros [Hn | Hr]; [now apply R5|]. specialize (R4 Hr). now inversion R4. }
  destruct r1 as [[] | | ].
  - rewrite (bind_Ok _ _ _ _ _ Hblock).
    assert (P_http : forall url, not_build (EHttpGet url) = true) by reflexivity.
    assert (P_log : forall k fm fa, not_build (ELog k fm fa) = true) by reflexivity.
    pose proof (assetsBlock_calm E c not_build P_http P_log (l1, w1)) as Ha.
    destruct (assetsBlock_returns E c (l1, w1)) as [[] Hra].
    destruct (assetsBlock E c (l1, w1)) as [ra [l2 w2]] eqn:Hs2.
    cbn in Hra. subst ra. rewrite (bind_Ok _ _ _ _ _ Hs2).
    pose proof (reloadBlock_calm_but_reload E c not_build P_http P_log (l2, w2)) as Hb.
    pose proof (reloadBlock_sends l2 w2) as Hsend.
    destruct (reloadBlock_returns E c (l2, w2)) as [[] Hrr].
    destruct (reloadBlock E c (l2, w2)) as [rb [l3 w3]] eqn:Hs3.
    cbn in Hrr. subst rb. rewrite (bind_Ok _ _ _ _ _ Hs3).
    cbv zeta in Hb, Hsend. cbn [fst snd] in *.
    destruct Ha as (A1 & A2 & A3 & A4 & A5 & A6 & A7 & A8 & A9 & d2 & Hd2 & F2).
    destruct Hb as (C1 & C2 & C3 & C4 & C5 & C6 & C7 & C8 & C9 & d3 & Hd3 & F3).
    unfold assign. cbn [fst snd] in *.
    change (rebuild (set_changedPaths ∅ l3)) with (rebuild l3).
    change (quit (set_changedPaths ∅ l3)) with (quit l3).
    change (reload (set_changedPaths ∅ l3)) with (reload l3).
    change (changedPaths (set_changedPaths ∅ l3)) with (∅ : gset string).
    split; [congruence|]. split; [congruence|].
    exists d1, (d2 ++ d3). split; [|split; [|split; [|split]]].
    + rewrite Hd3, Hd2, Hd1, <- !app_assoc. reflexivity.
    + exact F1.
    + rewrite forallb_app, F2, F3. reflexivity.
    + exact B1.
    + intros _. repeat split; auto. intros Hre.
      assert (Hre2 : reload l2 = true) by (apply A5; congruence).
      rewrite Hre2 in Hsend. destruct Hsend as (tl & Htl).
      rewrite Hd3 in Htl. apply app_inv_head in Htl. subst d3.
      apply in_or_app. right. now left.
  - rewrite (bind_Continue _ _ _ _ Hblock). cbn [fst snd].
    split; [exact R1|]. split; [exact R2|].
    exists d1, []. rewrite app_nil_r.
    split; [exact Hd1|]. split; [exact F1|]. split; [reflexivity|].
    split; [exact B1|]. intros Hs. specialize (Hskip Hs). discriminate.
  - rewrite (bind_Exit _ _ _ _ Hblock). cbn [fst snd].
    split; [exact R1|]. split; [exact R2|].
    exists d1, []. rewrite app_nil_r.
    split; [exact Hd1|]. split; [exact F1|]. split; [reflexivity|].
    split; [exact B1|]. intros Hs. specialize (Hskip Hs). discriminate.
Qed.

End TimerCase.

(** ** The loop over several events *)

Section Loop.

Variable E : Env.
Variable c : LoopCfg.

Lemma loop_nil s : loop E c [] s = (Ok (quit (fst s)), s).
Proof. cbn. now destruct (quit (fst s)). Qed.

(** Serving [evs1 ++ evs2] is serving [evs1] and, if the loop still waits,
    serving [evs2]. *)
Lemma loop_app evs1 evs2 s :
  loop E c (evs1 ++ evs2) s =
  match loop E c evs1 s with
  | (Ok false, s') => loop E c evs2 s'
  | other => other
  end.
Proof.
  revert s. induction evs1 as [|ev evs1 IH]; intros s.
  - cbn [app]. rewrite loop_nil. destruct (quit (fst s)) eqn:Hq; [|reflexivity].
    destruct evs2; cbn; now rewrite Hq.
  - cbn [app loop]. destruct (quit (fst s)); [reflexivity|].
    destruct (iteration E c ev s) as [[[] | | ] s']; auto.
Qed.

(** The loop that is not quitting serves the first event and goes on, unless
    the process ended. *)
Lemma loop_cons ev later s :
  quit (fst s) = false ->
  loop E c (ev :: later) s =
  match iteration E c ev s with
  | (Exit, s') => (Exit, s')
  | (_, s') => loop E c later s'
  end.
Proof. intros Hq. cbn [loop]. now rewrite Hq. Qed.

(** A write to a file, not a directory, with a rebuild extension: the rebuild
    is pending, the timer is reset, and the rest of the iteration is skipped. *)
Lemma eligible_write item l w :
  has_op fsnotify.Write item = true ->
  Name item ∉ dirs w ->
  isEligibleFile (extensionsThatTriggerARebuild c) (Name item) = true ->
  iteration E c (WatcherEvent item) (l, w) =
  (Continue, (set_timer_armed true (set_rebuild true l),
              emit (ETimerReset (interval c)) w)).
Proof.
  intros Hw Hd He. unfold iteration, onWatcherEvent.
  rewrite Hw, He. unfold bind, io, fs_DirExists. cbn.
  rewrite bool_decide_eq_false_2 by exact Hd. reflexivity.
Qed.

Lemma afterResets_dirs n w : dirs (afterResets c n w) = dirs w.
Proof. revert w. induction n as [|n IH]; intros w; [reflexivity|]. cbn. now rewrite IH. Qed.

Lemma afterResets_trace n w :
  trace (afterResets c n w) = trace w ++ repeat (ETimerReset (interval c)) n.
Proof.
  revert w. induction n as [|n IH]; intros w; cbn.
  - now rewrite app_nil_r.
  - rewrite IH, trace_emit, <- app_assoc. reflexivity.
Qed.

Lemma eligible_writes items : forall l w,
  items <> [] ->
  quit l = false ->
  Forall (eligibleWrite c w) items ->
  loop E c (map WatcherEvent items) (l, w) =
  (Ok false, (set_timer_armed true (set_rebuild true l), afterResets c (length items) w)).
Proof.
  induction items as [|item items IH]; intros l w Hne Hq Hall; [contradiction|].
  inversion Hall as [|? ? (Hw & Hd & He) Hrest]; subst.
  cbn [map length afterResets]. rewrite loop_cons by exact Hq.
  rewrite (eligible_write item l w Hw Hd He).
  destruct items as [|item' items'].
  - cbn. now rewrite Hq.
  - rewrite IH; [reflexivity | discriminate | exact Hq |].
    eapply Forall_impl; [exact Hrest|]. intros it (H1 & H2 & H3). now repeat split.
Qed.

End Loop.

(** ** Debouncing: rebuild and reload at the timer *)

Section Debounce.

Variable E : Env.
Variable c : LoopCfg.

(** C3, as the code has it.  [N >= 1] write events for files with a rebuild
    extension, served before the timer fires: each one sets the rebuild flag
    and resets the timer, and leaves nothing else behind.  When the timer case
    is served after them, the flag is cleared and the builder is called
    exactly once, unless [-nogorebuild] is set: then it is not called. *)
Theorem eligible_writes_coalesce (items : list FsEvent) (l : Loop) (w : World) :
  items <> [] ->
  quit l = false ->
  Forall (eligibleWrite c w) items ->
  let wN := afterResets c (length items) w in
  (forall item l0 w0, eligibleWrite c w0 item ->
     iteration E c (WatcherEvent item) (l0, w0) =
     (Continue, (set_timer_armed true (set_rebuild true l0),
                 emit (ETimerReset (interval c)) w0))) /\
  loop E c (map WatcherEvent items) (l, w) =
    (Ok false, (set_timer_armed true (set_rebuild true l), wN)) /\
  trace wN = trace w ++ repeat (ETimerReset (interval c)) (length items) /\
  let res := loop E c (map WatcherEvent items ++ [TimerC]) (l, w) in
  rebuild (fst (snd res)) = false /\
  exists d,
    trace (snd (snd res)) = trace wN ++ d /\
    builds d = (if NoGoRebuild (f c) then 0 else 1)%nat.
Proof.
  intros Hne Hq Hall wN.
  split; [intros item l0 w0 (H1 & H2 & H3); now apply eligible_write|].
  split; [now apply eligible_writes|].
  split; [apply afterResets_trace|].
  cbv zeta. rewrite loop_app, (eligible_writes E c items l w Hne Hq Hall).
  fold wN. set (lN := set_timer_armed true (set_rebuild true l)).
  rewrite loop_cons by exact Hq.
  pose proof (timer_case_shape E c lN wN) as Hshape. cbv zeta in Hshape.
  destruct Hshape as (Hr & _ & d1 & d2 & Hd & _ & F2 & B1 & _).
  assert (Hb : builds (d1 ++ d2) = (if NoGoRebuild (f c) then 0 else 1)%nat).
  { rewrite builds_app, (builds_none d2 F2), B1. cbn.
    destruct (NoGoRebuild (f c)); reflexivity. }
  destruct (iteration E c TimerC (lN, wN)) as [[[] | | ] [l' w']];
    cbn [fst snd] in *; try rewrite loop_nil; cbn [fst snd];
    (split; [exact Hr | exists (d1 ++ d2); split; [exact Hd | exact Hb]]).
Qed.

(** C4.  The effects of one timer case split in two stretches: the first has
    no HTTP request and the second no call of the builder, so whatever is
    built is built before anything is requested.  A pending rebuild that is
    not overridden calls the builder, once.  Under [-nogorebuild] the builder
    is not called, the timer case comes back, and a pending reload is still
    requested. *)
Theorem rebuild_before_reload (l : Loop) (w : World) :
  let res := iteration E c TimerC (l, w) in
  exists d1 d2,
    trace (snd (snd res)) = trace w ++ d1 ++ d2 /\
    forallb not_http d1 = true /\
    forallb not_build d2 = true /\
    (rebuild l = true -> NoGoRebuild (f c) = false -> builds d1 = 1%nat) /\
    (NoGoRebuild (f c) = true ->
       fst res = Ok tt /\ builds (d1 ++ d2) = 0%nat /\
       (reload l = true -> In (EHttpGet (reloadURL c)) d2)).
Proof.
  pose proof (timer_case_shape E c l w) as Hshape. cbv zeta in Hshape |- *.
  destruct Hshape as (_ & _ & d1 & d2 & Hd & F1 & F2 & B1 & Hskip).
  exists d1, d2. split; [exact Hd|]. split; [exact F1|]. split; [exact F2|]. split.
  - intros Hr Hn. rewrite B1, Hr, Hn. reflexivity.
  - intros Hn. destruct (Hskip (or_introl Hn)) as (Hres & _ & _ & Hsend).
    split; [exact Hres|]. split; [|exact Hsend].
    rewrite builds_app, (builds_none d2 F2), B1, Hn, andb_false_r. reflexivity.
Qed.

End Debounce.

(** ** One event of the watcher, one exit code *)

Section Events.

Variable E : Env.
Variable c : LoopCfg.

Lemma DirExists_true path w : path ∈ dirs w -> fs_DirExists path w = (Ok true, w).
Proof. intros H. unfold fs_DirExists. now rewrite bool_decide_eq_true_2. Qed.

Lemma DirExists_false path w : path ∉ dirs w -> fs_DirExists path w = (Ok false, w).
Proof. intros H. unfold fs_DirExists. now rewrite bool_decide_eq_false_2. Qed.

(** C5.  In the running loop an exit code of zero sets [quit]: the loop is
    left at once, with nothing done to the world, whatever else is waiting to
    be served, so no rebuild follows.  Any other exit code changes nothing
    and the loop serves what comes next. *)
Theorem exit_code_quits_iff_zero (exitCode : Z) (later : list Event) (l : Loop) (w : World) :
  quit l = false ->
  (exists l', iteration E c (ExitCode exitCode) (l, w) = (Ok tt, (l', w)) /\
              (quit l' = true <-> exitCode = 0)) /\
  (exitCode = 0 ->
     loop E c (ExitCode exitCode :: later) (l, w) = (Ok true, (set_quit true l, w))) /\
  (exitCode <> 0 ->
     loop E c (ExitCode exitCode :: later) (l, w) = loop E c later (l, w)).
Proof.
  intros Hq. split; [|split].
  - unfold iteration. destruct (Z.eqb_spec exitCode 0) as [-> | Hne].
    + exists (set_quit true l). split; [reflexivity|]. cbn. tauto.
    + exists l. split; [reflexivity|]. rewrite Hq. split; [discriminate | contradiction].
  - intros ->. rewrite loop_cons by exact Hq. cbn. now destruct later.
  - intros Hne. rewrite loop_cons by exact Hq. unfold iteration.
    destruct (Z.eqb_spec exitCode 0); [contradiction | reflexivity].
Qed.

(** C10.  A create event for a directory outside node_modules whose
    [watcher.Add] fails ends the process through [Logger.Fatal]: the
    iteration does not come back, the loop serves nothing after it, and the
    line about the added directory is not logged.  An error on the watcher's
    error channel is logged, and the loop goes on with the same variables. *)
Theorem watcher_add_failure_is_fatal (item : FsEvent) (err : string) (later : list Event)
    (l : Loop) (w : World) :
  quit l = false ->
  has_op fsnotify.Write item = false ->
  has_op fsnotify.Create item = true ->
  Name item ∈ dirs w ->
  GoStrings.Contains (Name item) "node_modules" = false ->
  watcher_Add E (Name item) w = Some err ->
  let w' := emit (EFatal "%s" [ArgS err]) (emit (EWatcherAdd (Name item) (Some err)) w) in
  iteration E c (WatcherEvent item) (l, w) = (Exit, (l, w')) /\
  loop E c (WatcherEvent item :: later) (l, w) = (Exit, (l, w')) /\
  watched w' = watched w /\
  (forall e,
     iteration E c (WatcherError e) (l, w) = (Ok tt, (l, emit (ELog DarkYellow e []) w)) /\
     loop E c (WatcherError e :: later) (l, w) =
       loop E c later (l, emit (ELog DarkYellow e []) w)).
Proof.
  intros Hq Hw Hc Hd Hn Ha w'.
  assert (Hit : iteration E c (WatcherEvent item) (l, w) = (Exit, (l, w'))).
  { unfold iteration, onWatcherEvent. rewrite Hw, Hc, Hn.
    unfold bind, io, ret. cbn [fst snd]. rewrite (DirExists_true _ _ Hd).
    cbv beta iota. cbn [fst snd negb]. unfold Add. rewrite Ha. reflexivity. }
  split; [exact Hit|]. split; [|split; [reflexivity|]].
  - rewrite loop_cons by exact Hq. now rewrite Hit.
  - intros e. split; [reflexivity|]. rewrite loop_cons by exact Hq. reflexivity.
Qed.

Lemma underReloadDir_In itemName reloadDir reloadDirs :
  In reloadDir reloadDirs ->
  GoStrings.HasPrefix itemName reloadDir = true ->
  underReloadDir itemName reloadDirs = true.
Proof.
  intros Hin Hp. induction reloadDirs as [|d rest IH]; [contradiction|].
  cbn. destruct Hin as [-> | Hin]; [now rewrite Hp|].
  destruct (GoStrings.HasPrefix itemName d); [reflexivity | now apply IH].
Qed.

(** The write branch for a file without a rebuild extension. *)
Lemma other_write item l w :
  has_op fsnotify.Write item = true ->
  Name item ∉ dirs w ->
  isEligibleFile (extensionsThatTriggerARebuild c) (Name item) = false ->
  iteration E c (WatcherEvent item) (l, w) =
  (Ok tt,
   (set_timer_armed true
      (if underReloadDir (Name item) (dirsThatTriggerAReload c) then set_reload true l
       else if reload l then l
       else set_changedPaths ({[filepath_Dir E (Name item)]} ∪ changedPaths l) l),
    emit (ETimerReset (interval c)) w)).
Proof.
  intros Hw Hd He. unfold iteration, onWatcherEvent. rewrite Hw, He.
  unfold bind, io, ret, vars, assign, timer_Reset. cbn [fst snd].
  rewrite (DirExists_false _ _ Hd). cbv beta iota. cbn [fst snd].
  destruct (underReloadDir (Name item) (dirsThatTriggerAReload c)); cbn [fst snd].
  - cbn. unfold bind, io. cbn.
    destruct (has_op fsnotify.Create item); [|reflexivity].
    cbn. rewrite bool_decide_eq_false_2 by exact Hd. reflexivity.
  - destruct (reload l) eqn:Hr; cbn; unfold bind, io; cbn;
      (destruct (has_op fsnotify.Create item); [|reflexivity]);
      cbn; rewrite bool_decide_eq_false_2 by exact Hd; reflexivity.
Qed.

(** C7, as the code has it.  A write to a file, not a directory, without a
    rebuild extension and under no reload directory, served while no reload
    is pending, puts the parent directory of the file into [changedPaths] and
    resets the timer.  Served while a reload is pending, it only resets the
    timer. *)
Theorem other_write_records_parent (item : FsEvent) (l : Loop) (w : World) :
  has_op fsnotify.Write item = true ->
  Name item ∉ dirs w ->
  isEligibleFile (extensionsThatTriggerARebuild c) (Name item) = false ->
  underReloadDir (Name item) (dirsThatTriggerAReload c) = false ->
  let res := iteration E c (WatcherEvent item) (l, w) in
  fst res = Ok tt /\
  snd (snd res) = emit (ETimerReset (interval c)) w /\
  (reload l = false ->
     changedPaths (fst (snd res)) = {[filepath_Dir E (Name item)]} ∪ changedPaths l /\
     filepath_Dir E (Name item) ∈ changedPaths (fst (snd res))) /\
  (reload l = true -> changedPaths (fst (snd res)) = changedPaths l).
Proof.
  intros Hw Hd He Hu. cbv zeta. rewrite (other_write item l w Hw Hd He), Hu.
  cbn [fst snd]. split; [reflexivity|]. split; [reflexivity|]. split.
  - intros ->. cbn. split; [reflexivity | set_solver].
  - intros ->. reflexivity.
Qed.

(** C9, as the code has it.  A reload directory is matched as a prefix of the
    path string, with no regard to path separators: a write to a file, not a
    directory, without a rebuild extension, whose path begins with a
    configured reload directory sets the reload flag.  The asset directory is
    matched in the same way at the timer: a changed directory that begins
    with the asset directory sets the flag. *)
Theorem reload_dirs_match_by_prefix :
  (forall (item : FsEvent) (reloadDir : string) (l : Loop) (w : World),
      has_op fsnotify.Write item = true ->
      Name item ∉ dirs w ->
      isEligibleFile (extensionsThatTriggerARebuild c) (Name item) = false ->
      In reloadDir (dirsThatTriggerAReload c) ->
      String.prefix reloadDir (Name item) = true ->
      iteration E c (WatcherEvent item) (l, w) =
      (Ok tt, (set_timer_armed true (set_reload true l),
               emit (ETimerReset (interval c)) w)))
  /\
  (forall (thePath : string) (l : Loop) (w : World),
      skipAssetsReload c = false ->
      assetDir l <> "" ->
      thePath ∈ changedPaths l ->
      String.prefix (assetDir l) thePath = true ->
      assetsBlock E c (l, w) = (Ok tt, (set_reload true l, w))).
Proof.
  split.
  - intros item reloadDir l w Hw Hd He Hin Hp.
    rewrite (other_write item l w Hw Hd He).
    now rewrite (underReloadDir_In _ _ _ Hin Hp).
  - intros thePath l w Hs Ha Hin Hp.
    assert (Hsize : (size (changedPaths l) =? 0)%nat = false).
    { apply Nat.eqb_neq. intros H0. apply size_empty_inv in H0. set_solver. }
    assert (Hne : String.eqb (assetDir l) "" = false).
    { destruct (String.eqb_spec (assetDir l) ""); [contradiction | reflexivity]. }
    assert (Hunder : underAssetDir (changedPaths l) (assetDir l) = true).
    { unfold underAssetDir. apply existsb_exists. exists thePath. split; [|exact Hp].
      apply list_elem_of_In, elem_of_elements, Hin. }
    unfold assetsBlock, bind, vars, ret, assign. cbn [fst snd].
    rewrite Hs, Hsize, Hne. cbn. rewrite Hne, Hunder. reflexivity.
Qed.

(** C8, as the code has it.  A create event, not also a write event, for a
    directory: outside node_modules, [watcher.Add] is called for it exactly
    once; if the call succeeds the directory is in the watch set, and if it
    fails the process ends and the watch set is as it was.  With node_modules
    in its path nothing is done at all; and no event whatever, for such a
    path, changes the watch set or calls [watcher.Add]. *)
Theorem created_directory_is_watched :
  (forall (item : FsEvent) (l : Loop) (w : World),
      has_op fsnotify.Create item = true ->
      has_op fsnotify.Write item = false ->
      Name item ∈ dirs w ->
      let res := iteration E c (WatcherEvent item) (l, w) in
      let w' := snd (snd res) in
      if GoStrings.Contains (Name item) "node_modules" then res = (Ok tt, (l, w))
      else
        exists d,
          trace w' = trace w ++ d /\ adds d = 1%nat /\
          In (EWatcherAdd (Name item) (watcher_Add E (Name item) w)) d /\
          match watcher_Add E (Name item) w with
          | None => fst res = Ok tt /\ watched w' = {[Name item]} ∪ watched w
          | Some _ => fst res = Exit /\ watched w' = watched w
          end)
  /\
  (forall (item : FsEvent) (l : Loop) (w : World),
      GoStrings.Contains (Name item) "node_modules" = true ->
      let w' := snd (snd (iteration E c (WatcherEvent item) (l, w))) in
      watched w' = watched w /\ extends (fun e => negb (is_add e)) w w').
Proof.
  split.
  - intros item l w Hc Hw Hd. cbv zeta.
    unfold iteration, onWatcherEvent. rewrite Hw, Hc.
    unfold bind, io, ret. cbn [fst snd]. rewrite (DirExists_true _ _ Hd).
    cbv beta iota. cbn [fst snd].
    destruct (GoStrings.Contains (Name item) "node_modules"); [reflexivity|].
    cbn [negb]. unfold Add. cbv beta iota. cbn [fst snd].
    destruct (watcher_Add E (Name item) w) as [err|]; cbn.
    + eexists [_; _]. rewrite <- app_assoc. repeat split. now left.
    + eexists [_; _]. rewrite <- app_assoc. repeat split. now left.
  - intros item l w Hn. cbv zeta.
    unfold iteration, onWatcherEvent. rewrite Hn.
    unfold bind, io, ret, vars, assign, timer_Reset, fs_DirExists, continue.
    repeat (cbn; match goal with
                 | |- context [if ?b then _ else _] => destruct b eqn:?
                 end).
    all: cbn; (split; [reflexivity|]);
      first [ apply extends_refl | apply extends_emit; reflexivity ].
Qed.

End Events.

(** ** Stopping the frontend watcher *)

Module FrontendWatcherProps.
Import FrontendWatcher.

Lemma run_reachable schedule : forall s s',
  reachable s -> run schedule s = Some s' -> reachable s'.
Proof.
  induction schedule as [|a later IH]; intros s s' Hs Hrun; cbn in Hrun.
  - inversion Hrun; subst. exact Hs.
  - destruct (step a s) as [s1|] eqn:Hstep; [|discriminate].
    eapply IH; [|exact Hrun]. eapply reachable_step; eassumption.
Qed.

(** Replacing the position of one call in the list of calls. *)
Lemma aboutToKill_insert (pcs : list CloserPc) i pc pc' :
  pcs !! i = Some pc ->
  (length (List.filter isKillProc (<[i := pc']> pcs)) + (if isKillProc pc then 1 else 0) =
   length (List.filter isKillProc pcs) + (if isKillProc pc' then 1 else 0))%nat.
Proof.
  revert i. induction pcs as [|x pcs IH]; intros [|i] H; try discriminate.
  - cbn in H. inversion H; subst. cbn.
    destruct (isKillProc pc), (isKillProc pc'); cbn; lia.
  - cbn in H. specialize (IH i H).
    change (<[S i := pc']> (x :: pcs)) with (x :: <[i := pc']> pcs).
    cbn [List.filter]. destruct (isKillProc x); cbn [length]; lia.
Qed.

Lemma aboutToKill_call (pcs : list CloserPc) :
  length (List.filter isKillProc (pcs ++ [CSwap])) = length (List.filter isKillProc pcs).
Proof. rewrite List.filter_app, length_app. apply Nat.add_0_r. Qed.

Lemma signal_once_step a s s' : signal_once s -> step a s = Some s' -> signal_once s'.
Proof.
  unfold signal_once, aboutToKill. intros [Hle Hst] Hstep.
  destruct a as [err | | | i]; cbn in Hstep.
  - destruct (goroutine s); try discriminate. inversion Hstep; subst. cbn. auto.
  - unfold goroutine_step in Hstep. destruct (goroutine s); try discriminate.
    + unfold CompareAndSwapInt32 in Hstep.
      destruct (Z.eqb_spec (state s) stateRunning) as [Hrun | Hrun];
        destruct (negb _ && _); inversion Hstep; subst; cbn; split; auto;
        intros _; discriminate.
    + inversion Hstep; subst. cbn. split; auto; intros _; discriminate.
    + inversion Hstep; subst. cbn. auto.
  - inversion Hstep; subst. cbn. rewrite aboutToKill_call. auto.
  - unfold closer_step in Hstep.
    destruct (closers s !! i) as [pc|] eqn:Hi; [|discriminate].
    destruct pc.
    + unfold CompareAndSwapInt32 in Hstep.
      destruct (Z.eqb_spec (state s) stateRunning) as [Hrun | Hrun];
        inversion Hstep; subst; cbn.
      * pose proof (aboutToKill_insert _ _ _ CKillProc Hi) as Hins. cbn in Hins.
        assert (killSignals s + length (List.filter isKillProc (closers s)) = 0)%nat.
        { destruct (killSignals s + length (List.filter isKillProc (closers s)))%nat
            eqn:Hsum; [reflexivity|]. exfalso. apply Hst; [lia | exact Hrun]. }
        split; [lia | intros _; discriminate].
      * pose proof (aboutToKill_insert _ _ _ CCancel Hi) as Hins. cbn in Hins.
        rewrite Nat.add_0_r in Hins. rewrite Nat.add_0_r in Hins.
        rewrite Hins. auto.
    + inversion Hstep; subst. cbn.
      pose proof (aboutToKill_insert _ _ _ CCancel Hi) as Hins. cbn in Hins.
      split; [lia | intros H; apply Hst; lia].
    + inversion Hstep; subst. cbn.
      pose proof (aboutToKill_insert _ _ _ CWait Hi) as Hins. cbn in Hins.
      rewrite !Nat.add_0_r in Hins. rewrite Hins. auto.
    + destruct (wg s =? 0)%nat; [|discriminate]. inversion Hstep; subst. cbn.
      pose proof (aboutToKill_insert _ _ _ CEnd Hi) as Hins. cbn in Hins.
      rewrite !Nat.add_0_r in Hins. rewrite Hins. auto.
    + discriminate.
Qed.

Lemma signal_once_reachable s : reachable s -> signal_once s.
Proof.
  induction 1 as [|s a s' _ IH Hstep].
  - unfold signal_once. cbn. split; [lia | intros H; lia].
  - eapply signal_once_step; eassumption.
Qed.

Lemma state_in_range_step a s s' :
  state_in_range s -> step a s = Some s' -> state_in_range s'.
Proof.
  unfold state_in_range. intros Hr Hstep.
  destruct a as [err | | | i]; cbn in Hstep.
  - destruct (goroutine s); try discriminate. inversion Hstep; subst. exact Hr.
  - unfold goroutine_step, CompareAndSwapInt32 in Hstep.
    destruct (goroutine s); try discriminate.
    + destruct (state s =? stateRunning); destruct (negb _ && _);
        inversion Hstep; subst; cbn; auto.
    + inversion Hstep; subst. cbn. auto.
    + inversion Hstep; subst. exact Hr.
  - inversion Hstep; subst. exact Hr.
  - unfold closer_step, CompareAndSwapInt32 in Hstep.
    destruct (closers s !! i) as [[| | | |]|]; try discriminate.
    + destruct (state s =? stateRunning); inversion Hstep; subst; cbn; auto.
    + inversion Hstep; subst. exact Hr.
    + inversion Hstep; subst. exact Hr.
    + destruct (wg s =? 0)%nat; [|discriminate]. inversion Hstep; subst. exact Hr.
Qed.

Lemma state_in_range_reachable s : reachable s -> state_in_range s.
Proof.
  induction 1 as [|s a s' _ IH Hstep].
  - left. reflexivity.
  - eapply state_in_range_step; eassumption.
Qed.

(** C6.  However the goroutine and any number of calls of the stop function
    are interleaved, and whenever the watcher command ends, [killProc] has
    sent its signal at most once; it is sent only by a call whose
    compare-and-swap took [state] from [stateRunning] to [stateCanceling], so
    once it is sent, or about to be sent, [state] is never [stateRunning]
    again. *)
Theorem kill_signal_sent_at_most_once (schedule : list Action) (s : Sys) :
  run schedule init = Some s ->
  (killSignals s + aboutToKill s <= 1)%nat /\
  (killSignals s <= 1)%nat /\
  ((1 <= killSignals s + aboutToKill s)%nat ->
   state s = stateCanceling \/ state s = stateStopped).
Proof.
  intros Hrun.
  pose proof (run_reachable schedule init s reachable_init Hrun) as Hreach.
  destruct (signal_once_reachable s Hreach) as [Hle Hst].
  split; [exact Hle|]. split; [lia|]. intros Hsent.
  destruct (state_in_range_reachable s Hreach) as [Hrun0 | Hother]; [|exact Hother].
  exfalso. now apply Hst.
Qed.

End FrontendWatcherProps.

(** ** The properties at work in the concrete project *)

Import Scenario.

Lemma not_in_dirs_world path :
  bool_decide (path ∈ dirs world) = false -> path ∉ dirs world.
Proof. intros H. now apply bool_decide_eq_false in H. Defined.

Lemma in_dirs_world path :
  bool_decide (path ∈ dirs world) = true -> path ∈ dirs world.
Proof. intros H. now apply bool_decide_eq_true in H. Defined.

(** C1 at work: the builder fails while the application runs as object 0. *)
Lemma failed_build_keeps_running_app_witness :
  (rebuild rebuildPending = true /\
   NoGoRebuild (f (cfg false)) = false /\
   build_Build broken (buildOptions (cfg false)) (atRebuild world) = inr "exit status 2") /\
  exists l' w',
    iteration broken (cfg false) TimerC (rebuildPending, world) = (Ok tt, (l', w')) /\
    debugBinaryProcess l' = Some 0%nat /\
    quit l' = false /\
    heap w' = heap world /\ files w' = files world /\
    extends (fun e => negb (is_process_op e)) world w'.
Proof.
  split; [repeat split|].
  apply (proj2 (failed_build_keeps_running_app broken) (cfg false) rebuildPending world
           "exit status 2"); reflexivity.
Defined.

(** C2 at work: the kill fails, the binary stays. *)
Lemma killProcessAndCleanupBinary_kill_before_delete_witness :
  (heap world !! 0%nat = Some app /\ Running app = true /\
   "/project/build/bin/app-dev" <> "") /\
  exists (r : option string) (w' : World),
    killProcessAndCleanupBinary unkillable (Some 0%nat) "/project/build/bin/app-dev" world
    = (Ok r, w') /\
    ((exists err, os_kill unkillable 0%nat world = Some err /\ r = Some err /\
                  trace w' = trace world ++ [EKill 0%nat (Some err)] /\
                  files w' = files world /\ heap w' = heap world)
     \/
     (os_kill unkillable 0%nat world = None /\
      heap w' !! 0%nat = Some (stopped app) /\
      exists rm, trace w' = trace world ++
                   [EKill 0%nat None; ERemove "/project/build/bin/app-dev" rm])).
Proof.
  split; [repeat split; first [discriminate | vm_compute; reflexivity]|].
  apply (killProcessAndCleanupBinary_kill_before_delete unkillable 0%nat app
           "/project/build/bin/app-dev" world);
    [vm_compute; reflexivity | reflexivity | discriminate].
Defined.

(** C5 at work: the application exits with status 0 while a rebuild is
    pending and the timer is about to fire. *)
Lemma exit_code_quits_iff_zero_witness :
  quit rebuildPending = false /\
  loop healthy (cfg false) [ExitCode 0; TimerC] (rebuildPending, world) =
  (Ok true, (set_quit true rebuildPending, world)).
Proof.
  split; [reflexivity|].
  apply (exit_code_quits_iff_zero healthy (cfg false) 0 [TimerC] rebuildPending world);
    reflexivity.
Defined.

(** C10 at work: a new directory when the watcher has no watches left. *)
Lemma watcher_add_failure_is_fatal_witness :
  (quit idle = false /\
   has_op fsnotify.Write {| Name := "/project/new"; Op := fsnotify.Create |} = false /\
   has_op fsnotify.Create {| Name := "/project/new"; Op := fsnotify.Create |} = true /\
   ("/project/new" ∈ dirs world) /\
   GoStrings.Contains "/project/new" "node_modules" = false /\
   watcher_Add exhausted "/project/new" world = Some "no space left on device") /\
  loop exhausted (cfg false) [create "/project/new"; TimerC] (idle, world) =
  (Exit, (idle, emit (EFatal "%s" [ArgS "no space left on device"])
                  (emit (EWatcherAdd "/project/new" (Some "no space left on device"))
                     world))).
Proof.
  assert (Hd : "/project/new" ∈ dirs world) by (apply in_dirs_world; vm_compute; reflexivity).
  split; [repeat split; exact Hd|].
  apply (watcher_add_failure_is_fatal exhausted (cfg false)
           {| Name := "/project/new"; Op := fsnotify.Create |}
           "no space left on device" [TimerC] idle world);
    first [exact Hd | reflexivity].
Defined.

(** C4 at work: a rebuild and a reload are pending under [-nogorebuild]. *)
Lemma rebuild_before_reload_witness :
  (NoGoRebuild (f (cfg true)) = true /\ reload (set_reload true rebuildPending) = true) /\
  exists d1 d2,
    trace (snd (snd (iteration healthy (cfg true) TimerC
                       (set_reload true rebuildPending, world)))) =
      trace world ++ d1 ++ d2 /\
    forallb not_http d1 = true /\
    forallb not_build d2 = true /\
    fst (iteration healthy (cfg true) TimerC (set_reload true rebuildPending, world)) = Ok tt /\
    builds (d1 ++ d2) = 0%nat /\
    In (EHttpGet (reloadURL (cfg true))) d2.
Proof.
  split; [split; reflexivity|].
  destruct (rebuild_before_reload healthy (cfg true) (set_reload true rebuildPending) world)
    as (d1 & d2 & Hd & F1 & F2 & _ & Hskip).
  destruct (Hskip eq_refl) as (Hres & Hb & Hsend).
  exists d1, d2. repeat split; auto.
Defined.

(** C6 at work: two racing calls and a late third one. *)
Lemma kill_signal_sent_at_most_once_witness :
  exists s,
    FrontendWatcher.run stopTwiceAndAgain FrontendWatcher.init = Some s /\
    (FrontendWatcher.killSignals s <= 1)%nat /\
    length (FrontendWatcher.closers s) = 3%nat.
Proof.
  eexists. split; [vm_compute; reflexivity|]. split; [|reflexivity].
  eapply (FrontendWatcherProps.kill_signal_sent_at_most_once stopTwiceAndAgain).
  vm_compute. reflexivity.
Defined.

(** C3 at work: two writes to main.go, then the timer. *)
Lemma eligible_writes_coalesce_witness :
  Forall (eligibleWrite (cfg false) world)
    [{| Name := "/project/main.go"; Op := fsnotify.Write |};
     {| Name := "/project/main.go"; Op := fsnotify.Write |}] /\
  rebuild (fst (snd (loop healthy (cfg false)
                       [write "/project/main.go"; write "/project/main.go"; TimerC]
                       (idle, world)))) = false /\
  exists d,
    trace (snd (snd (loop healthy (cfg false)
                       [write "/project/main.go"; write "/project/main.go"; TimerC]
                       (idle, world)))) =
      trace (afterResets (cfg false) 2 world) ++ d /\
    builds d = 1%nat.
Proof.
  assert (Hall : Forall (eligibleWrite (cfg false) world)
                   [{| Name := "/project/main.go"; Op := fsnotify.Write |};
                    {| Name := "/project/main.go"; Op := fsnotify.Write |}]).
  { repeat constructor; apply not_in_dirs_world; vm_compute; reflexivity. }
  split; [exact Hall|].
  destruct (eligible_writes_coalesce healthy (cfg false) _ idle world
              (@not_eq_sym _ _ _ (@nil_cons _ _ _)) eq_refl Hall) as (_ & _ & _ & Hr & Hd).
  split; [exact Hr | exact Hd].
Defined.

(** C3 as stated fails under [-nogorebuild]: two writes to main.go set the
    flag, the timer clears it, and the builder is not called at all. *)
Lemma eligible_writes_coalesce_counterexample :
  NoGoRebuild (f (cfg true)) = true /\
  has_op fsnotify.Write {| Name := "/project/main.go"; Op := fsnotify.Write |} = true /\
  bool_decide ("/project/main.go" ∈ dirs world) = false /\
  isEligibleFile (extensionsThatTriggerARebuild (cfg true)) "/project/main.go" = true /\
  rebuild (fst (snd (loop healthy (cfg true)
                       [write "/project/main.go"; write "/project/main.go"]
                       (idle, world)))) = true /\
  fst (loop healthy (cfg true)
         [write "/project/main.go"; write "/project/main.go"; TimerC] (idle, world)) =
    Ok false /\
  builds (trace (snd (snd (loop healthy (cfg true)
                             [write "/project/main.go"; write "/project/main.go"; TimerC]
                             (idle, world))))) = 0%nat.
Proof. vm_compute. repeat split. Qed.

(** C7 at work: a write to notes/todo.txt while nothing is pending. *)
Lemma other_write_records_parent_witness :
  (has_op fsnotify.Write {| Name := "/project/notes/todo.txt"; Op := fsnotify.Write |} = true /\
   ("/project/notes/todo.txt" ∉ dirs world) /\
   isEligibleFile (extensionsThatTriggerARebuild (cfg false)) "/project/notes/todo.txt" = false /\
   underReloadDir "/project/notes/todo.txt" (dirsThatTriggerAReload (cfg false)) = false /\
   reload idle = false) /\
  filepath_Dir healthy "/project/notes/todo.txt" ∈
    changedPaths (fst (snd (iteration healthy (cfg false) (write "/project/notes/todo.txt")
                              (idle, world)))).
Proof.
  assert (Hd : "/project/notes/todo.txt" ∉ dirs world)
    by (apply not_in_dirs_world; vm_compute; reflexivity).
  split; [repeat split; exact Hd|].
  apply (other_write_records_parent healthy (cfg false)
           {| Name := "/project/notes/todo.txt"; Op := fsnotify.Write |} idle world);
    first [exact Hd | reflexivity].
Defined.

(** C7 as stated fails while a reload is pending: after a write under the
    reload directory, the write to notes/todo.txt records nothing. *)
Lemma other_write_records_parent_counterexample :
  has_op fsnotify.Write {| Name := "/project/notes/todo.txt"; Op := fsnotify.Write |} = true /\
  bool_decide ("/project/notes/todo.txt" ∈ files world) = true /\
  bool_decide ("/project/notes/todo.txt" ∈ dirs world) = false /\
  isEligibleFile (extensionsThatTriggerARebuild (cfg false)) "/project/notes/todo.txt" = false /\
  underReloadDir "/project/notes/todo.txt" (dirsThatTriggerAReload (cfg false)) = false /\
  reload (fst (snd (loop healthy (cfg false) [write "/project/src/a.js"] (idle, world)))) = true /\
  elements (changedPaths (fst (snd (loop healthy (cfg false)
                                      [write "/project/src/a.js";
                                       write "/project/notes/todo.txt"]
                                      (idle, world))))) = [] /\
  elements (changedPaths
              (fst (snd (iteration healthy (cfg false) (write "/project/notes/todo.txt")
                           (reloadPending, world))))) = [].
Proof. vm_compute. repeat split. Qed.

(** C8 at work: the directory /project/new appears, and so does a package
    directory under node_modules. *)
Lemma created_directory_is_watched_witness :
  (has_op fsnotify.Create {| Name := "/project/new"; Op := fsnotify.Create |} = true /\
   has_op fsnotify.Write {| Name := "/project/new"; Op := fsnotify.Create |} = false /\
   ("/project/new" ∈ dirs world) /\
   ("/project/node_modules/pkg" ∈ dirs world)) /\
  (exists d,
     trace (snd (snd (iteration healthy (cfg false) (create "/project/new") (idle, world)))) =
       trace world ++ d /\
     adds d = 1%nat /\
     In (EWatcherAdd "/project/new" None) d /\
     fst (iteration healthy (cfg false) (create "/project/new") (idle, world)) = Ok tt /\
     watched (snd (snd (iteration healthy (cfg false) (create "/project/new")
                          (idle, world)))) = {["/project/new"]} ∪ watched world) /\
  iteration healthy (cfg false) (create "/project/node_modules/pkg") (idle, world) =
    (Ok tt, (idle, world)).
Proof.
  assert (Hd : "/project/new" ∈ dirs world) by (apply in_dirs_world; vm_compute; reflexivity).
  assert (Hn : "/project/node_modules/pkg" ∈ dirs world)
    by (apply in_dirs_world; vm_compute; reflexivity).
  split; [repeat split; assumption|]. split.
  - destruct (proj1 (created_directory_is_watched healthy (cfg false))
                {| Name := "/project/new"; Op := fsnotify.Create |} idle world
                eq_refl eq_refl Hd) as (d & Ht & Ha & Hin & Hres & Hw).
    exists d. repeat split; assumption.
  - exact (proj1 (created_directory_is_watched healthy (cfg false))
             {| Name := "/project/node_modules/pkg"; Op := fsnotify.Create |} idle world
             eq_refl eq_refl Hn).
Defined.

(** C8 as stated fails in two ways.  When [watcher.Add] fails, the created
    directory is not in the watch set and the process ends.  When the event
    carries the write bit beside the create bit, the write branch meets a
    directory and leaves the iteration: [watcher.Add] is not called. *)
Lemma created_directory_is_watched_counterexample :
  (bool_decide ("/project/new" ∈ dirs world) = true /\
   GoStrings.Contains "/project/new" "node_modules" = false /\
   has_op fsnotify.Create {| Name := "/project/new"; Op := fsnotify.Create |} = true /\
   fst (iteration exhausted (cfg false) (create "/project/new") (idle, world)) = Exit /\
   bool_decide ("/project/new" ∈
                watched (snd (snd (iteration exhausted (cfg false) (create "/project/new")
                                     (idle, world))))) = false)
  /\
  (has_op fsnotify.Create {| Name := "/project/new"; Op := 3 |} = true /\
   iteration healthy (cfg false) (WatcherEvent {| Name := "/project/new"; Op := 3 |})
     (idle, world) = (Continue, (idle, world)) /\
   bool_decide ("/project/new" ∈ watched world) = false).
Proof. vm_compute. repeat split. Qed.

(** C9 at work: a.js in the sibling directory src-extra, for the reload
    directory src; and a changed directory under the asset directory. *)
Lemma reload_dirs_match_by_prefix_witness :
  (has_op fsnotify.Write {| Name := "/project/src-extra/a.js"; Op := fsnotify.Write |} = true /\
   ("/project/src-extra/a.js" ∉ dirs world) /\
   isEligibleFile (extensionsThatTriggerARebuild (cfg false)) "/project/src-extra/a.js" = false /\
   In "/project/src" (dirsThatTriggerAReload (cfg false)) /\
   String.prefix "/project/src" "/project/src-extra/a.js" = true) /\
  iteration healthy (cfg false) (write "/project/src-extra/a.js") (idle, world) =
    (Ok tt, (set_timer_armed true (set_reload true idle),
             emit (ETimerReset (interval (cfg false))) world)) /\
  assetsBlock healthy (cfg false)
    (set_changedPaths {["/project/frontend/dist-old"]}
       (set_assetDir "/project/frontend/dist" idle), world) =
    (Ok tt, (set_reload true
               (set_changedPaths {["/project/frontend/dist-old"]}
                  (set_assetDir "/project/frontend/dist" idle)), world)).
Proof.
  assert (Hd : "/project/src-extra/a.js" ∉ dirs world)
    by (apply not_in_dirs_world; vm_compute; reflexivity).
  split; [repeat split; first [exact Hd | now left]|]. split.
  - apply (proj1 (reload_dirs_match_by_prefix healthy (cfg false))
             {| Name := "/project/src-extra/a.js"; Op := fsnotify.Write |}
             "/project/src" idle world); first [exact Hd | reflexivity | now left].
  - apply (proj2 (reload_dirs_match_by_prefix healthy (cfg false))
             "/project/frontend/dist-old"
             (set_changedPaths {["/project/frontend/dist-old"]}
                (set_assetDir "/project/frontend/dist" idle)) world);
      first [reflexivity | discriminate | cbn; set_solver].
Defined.

(** C9 as stated fails for a file with a rebuild extension: main.go under
    the reload directory src marks a rebuild and leaves the reload flag
    alone. *)
Lemma reload_dirs_match_by_prefix_counterexample :
  has_op fsnotify.Write {| Name := "/project/src/main.go"; Op := fsnotify.Write |} = true /\
  bool_decide ("/project/src/main.go" ∈ files world) = true /\
  dirsThatTriggerAReload (cfg false) = ["/project/src"] /\
  String.prefix "/project/src" "/project/src/main.go" = true /\
  iteration healthy (cfg false) (write "/project/src/main.go") (idle, world) =
    (Continue, (set_timer_armed true (set_rebuild true idle),
                emit (ETimerReset 100) world)) /\
  reload (fst (snd (iteration healthy (cfg false) (write "/project/src/main.go")
                      (idle, world)))) = false.
Proof. vm_compute. repeat split. Qed.

(** * Further properties of the code *)

(** ** Which files trigger a rebuild *)

Lemma list_ascii_of_string_app a b :
  list_ascii_of_string (a +:+ b) = list_ascii_of_string a ++ list_ascii_of_string b.
Proof.
  induction a as [|c a IH]; [reflexivity|]. simpl. rewrite IH. reflexivity.
Qed.

Lemma string_of_list_ascii_app a b :
  string_of_list_ascii (a ++ b) = string_of_list_ascii a +:+ string_of_list_ascii b.
Proof.
  induction a as [|c a IH]; [reflexivity|]. simpl. rewrite IH. reflexivity.
Qed.

Lemma forallb_rev {A} (p : A -> bool) (l : list A) : forallb p (rev l) = forallb p l.
Proof.
  induction l as [|x l IH]; [reflexivity|].
  change (rev (x :: l)) with (rev l ++ [x]).
  rewrite forallb_app, IH. simpl. rewrite andb_true_r. apply andb_comm.
Qed.

(** The scan walks over plain characters. *)
Lemma Ext_scan_plain re rest s :
  forallb plain_char re = true ->
  GoStrings.Ext_scan (re ++ rest) s = GoStrings.Ext_scan rest (rev re ++ s).
Proof.
  revert s. induction re as [|ch re IH]; intros s H; [reflexivity|].
  cbn in H. apply andb_prop in H as [Hc Hre].
  unfold plain_char in Hc. apply andb_prop in Hc as [Hsep Hdot].
  apply negb_true_iff in Hsep, Hdot.
  change (GoStrings.Ext_scan ((ch :: re) ++ rest) s)
    with (if GoStrings.IsPathSeparator ch then []
          else if Ascii.eqb ch "." then ch :: s
               else GoStrings.Ext_scan (re ++ rest) (ch :: s)).
  rewrite Hsep, Hdot, IH by exact Hre.
  change (rev (ch :: re)) with (rev re ++ [ch]). now rewrite <- app_assoc.
Qed.

(** A scan that finds an extension stopped at a dot, after plain characters. *)
Lemma Ext_scan_found rl : forall s x,
  GoStrings.Ext_scan rl s = x -> x <> [] ->
  exists re rest,
    rl = re ++ "."%char :: rest /\ forallb plain_char re = true /\
    x = "."%char :: rev re ++ s.
Proof.
  induction rl as [|ch rl IH]; intros s x Hx Hne; cbn in Hx; [congruence|].
  destruct (GoStrings.IsPathSeparator ch) eqn:Hsep; [congruence|].
  destruct (Ascii.eqb_spec ch ".") as [-> | Hdot].
  - exists [], rl. subst x. repeat split.
  - destruct (IH _ _ Hx Hne) as (re & rest & -> & Hre & ->).
    exists (ch :: re), rest. split; [reflexivity|]. split.
    + cbn. unfold plain_char at 1. rewrite Hsep, Hre.
      destruct (Ascii.eqb_spec ch "."); [contradiction | reflexivity].
    + cbn [rev]. now rewrite <- app_assoc.
Qed.

Lemma Ext_of_dotted stem e :
  plain e = true -> GoStrings.Ext (stem +:+ "." +:+ e) = "." +:+ e.
Proof.
  intros He. unfold GoStrings.Ext, plain in *.
  rewrite !list_ascii_of_string_app, !rev_app_distr. cbn [list_ascii_of_string rev app].
  rewrite <- app_assoc. cbn [app].
  rewrite Ext_scan_plain by (now rewrite forallb_rev).
  cbn. rewrite rev_involutive, app_nil_r. now rewrite string_of_list_ascii_of_string.
Qed.

Lemma Ext_dotted name :
  GoStrings.Ext name <> "" ->
  exists stem e, name = stem +:+ "." +:+ e /\ plain e = true /\
                 GoStrings.Ext name = "." +:+ e.
Proof.
  intros Hne. unfold GoStrings.Ext in *.
  destruct (Ext_scan_found (rev (list_ascii_of_string name)) [] _ eq_refl)
    as (re & rest & Hrev & Hre & Hx).
  { intros H0. apply Hne. now rewrite H0. }
  exists (string_of_list_ascii (rev rest)), (string_of_list_ascii (rev re)).
  split; [|split].
  - rewrite <- (string_of_list_ascii_of_string name).
    rewrite <- (rev_involutive (list_ascii_of_string name)), Hrev.
    rewrite rev_app_distr. cbn [rev]. rewrite <- app_assoc. cbn [app].
    now rewrite string_of_list_ascii_app.
  - unfold plain. rewrite list_ascii_of_string_of_list_ascii. now rewrite forallb_rev.
  - rewrite Hx, app_nil_r. reflexivity.
Qed.

Lemma isEligibleFile_dotted (extensions : gset string) (fileName : string) :
  isEligibleFile extensions fileName = true <->
  exists stem ext,
    fileName = stem +:+ "." +:+ ext /\ plain ext = true /\ ext ∈ extensions.
Proof.
  unfold isEligibleFile. split.
  - destruct (String.eqb_spec (GoStrings.Ext fileName) "") as [|Hne]; [discriminate|].
    cbn [negb]. destruct (Ext_dotted fileName Hne) as (stem & e & Hname & Hp & HE).
    rewrite HE. cbn [GoStrings.tail String.append]. case_bool_decide; [|discriminate].
    intros _. now exists stem, e.
  - intros (stem & e & -> & Hp & Hin). rewrite (Ext_of_dotted stem e Hp).
    cbn. now rewrite bool_decide_eq_true_2.
Qed.

(** X1.  [isEligibleFile] accepts exactly the names of the form stem.ext
    where ext is one of the rebuild extensions and has itself neither a dot
    nor a path separator: only what follows the last dot of the last path
    element counts. *)
Theorem isEligibleFile_iff (extensions : gset string) (fileName : string) :
  isEligibleFile extensions fileName = true <->
  exists stem ext,
    fileName = stem +:+ "." +:+ ext /\ plain ext = true /\ ext ∈ extensions.
Proof. apply isEligibleFile_dotted. Qed.

(** X2.  A configured extension that contains a dot or a path separator,
    such as .go or tar.gz, never matches: if every configured extension is of
    that kind, no file triggers a rebuild. *)
Theorem dotted_extensions_never_match (extensions : gset string) (fileName : string) :
  (forall ext, ext ∈ extensions -> plain ext = false) ->
  isEligibleFile extensions fileName = false.
Proof.
  intros Hall. destruct (isEligibleFile extensions fileName) eqn:He; [|reflexivity].
  apply isEligibleFile_dotted in He as (stem & e & _ & Hp & Hin).
  rewrite (Hall e Hin) in Hp. discriminate.
Qed.

(** [sliceToMap] keeps exactly the elements of the slice. *)
Lemma sliceToMap_In input value : value ∈ sliceToMap input <-> In value input.
Proof.
  induction input as [|x input IH]; cbn; [set_solver|].
  rewrite elem_of_union, elem_of_singleton, IH. intuition congruence.
Qed.

(** X3.  [sliceToMap] turns a slice into the set of its elements: a value is
    a key of the result exactly when it occurs in the slice, however often,
    so the result never has more keys than the slice has elements. *)
Theorem sliceToMap_elements (input : list string) :
  (forall value, value ∈ sliceToMap input <-> In value input) /\
  (size (sliceToMap input) <= length input)%nat.
Proof.
  split; [intros value; apply sliceToMap_In|].
  induction input as [|x input IH]; cbn; [now rewrite size_empty|].
  rewrite size_union_alt, size_singleton.
  assert (Hsub : (size (sliceToMap input ∖ {[x]}) <= size (sliceToMap input))%nat).
  { apply subseteq_size, subseteq_difference_l. reflexivity. }
  lia.
Qed.

(** ** Triples *)

Section Hoare.

Context {S : Type}.

Lemma hoare_ret {A} (a : A) (Q : A -> S -> Prop) K X : hoare (Q a) (ret a) Q K X.
Proof. intros s H. exact H. Qed.

Lemma hoare_bind {A B} (m : M S A) (k : A -> M S B) P Q1 (Q : B -> S -> Prop) K X :
  hoare P m Q1 K X -> (forall a, hoare (Q1 a) (k a) Q K X) -> hoare P (bind m k) Q K X.
Proof.
  intros Hm Hk s Hs. unfold bind. specialize (Hm s Hs).
  destruct (m s) as [[a | |] s']; auto. now apply Hk.
Qed.

Lemma hoare_conseq {A} (m : M S A) (P P' : S -> Prop) (Q Q' : A -> S -> Prop)
    (K K' X X' : S -> Prop) :
  hoare P' m Q' K' X' ->
  (forall s, P s -> P' s) -> (forall a s, Q' a s -> Q a s) ->
  (forall s, K' s -> K s) -> (forall s, X' s -> X s) ->
  hoare P m Q K X.
Proof.
  intros Hm HP HQ HK HX s Hs. specialize (Hm s (HP s Hs)).
  destruct (m s) as [[a | |] s']; auto.
Qed.

End Hoare.

(** ** Cleaning up without a running process *)

Section CleanupOnly.

Variable E : Env.

(** X4.  [killProcessAndCleanupBinary] with no process, or with one that does
    not run, never calls [Kill].  With an empty binary path it does nothing at
    all.  Otherwise it calls [os.Remove] once, and a binary that is already
    gone ([os.ErrNotExist]) is not an error: only another failure of the
    removal is returned. *)
Theorem killProcessAndCleanupBinary_without_running_process
    (process : option ProcRef) (binary : string) (w : World) :
  (forall p o, process = Some p -> heap w !! p = Some o -> Running o = false) ->
  exists (r : option string) (w' : World),
    killProcessAndCleanupBinary E process binary w = (Ok r, w') /\
    heap w' = heap w /\
    (binary = "" -> r = None /\ w' = w) /\
    (binary <> "" ->
       trace w' = trace w ++ [ERemove binary (os_Remove E binary w)] /\
       match os_Remove E binary w with
       | None => r = None /\ files w' = files w ∖ {[binary]}
       | Some ErrNotExist => r = None /\ files w' = files w
       | Some (ErrOther msg) => r = Some msg /\ files w' = files w
       end).
Proof.
  intros Hidle. unfold killProcessAndCleanupBinary.
  assert (Hkill : (match process with
                   | Some p => running <- process_Running p ;;
                               if running then process_Kill E p else ret None
                   | None => ret None
                   end) w = (Ok None, w)).
  { destruct process as [p|]; [|reflexivity].
    unfold bind, process_Running. destruct (heap w !! p) as [o|] eqn:Hp; [|reflexivity].
    now rewrite (Hidle p o eq_refl Hp). }
  rewrite (bind_Ok _ _ _ _ _ Hkill).
  destruct (String.eqb_spec binary "") as [-> | Hne]; cbn [negb].
  - exists None, w. split; [reflexivity|]. split; [reflexivity|].
    split; [auto | intros Hc; now contradiction Hc].
  - unfold bind, Remove, ret.
    destruct (os_Remove E binary w) as [[|msg]|]; cbn;
      eexists _, _; (split; [reflexivity|]); (split; [reflexivity|]);
      (split; [intros ->; now contradiction Hne | intros _; repeat split]).
Qed.

End CleanupOnly.

(** ** What [restartApp] returns *)

Ltac unfold_prims :=
  unfold LogGreen, LogRed, LogDarkYellow, println, effect, Logger_Fatal,
    process_Kill, process_PID, process_Running, Setenv, NewProcess, process_Start,
    fs_FileExists, fs_DirExists, DeleteFile, Remove, Add, Get, ret.

(** A triple for one primitive, by running it. *)
Ltac hoare_prim :=
  let w := fresh "w" in
  let Hw := fresh "Hw" in
  intros w Hw; unfold_prims; repeat case_match; simplify_eq; cbn in *.

Tactic Notation "hoare_next" constr(post) "as" ident(x) :=
  eapply hoare_bind with (Q1 := post); [| intros x].

Section RestartResult.

Variable E : Env.

Lemma Build_runs opts w :
  Build E opts w =
  (Ok (build_Build E opts w),
   emit (EBuild opts (build_Build E opts w))
     (match build_Build E opts w with
      | inl binary => set_files ({[binary]} ∪ files w) w
      | inr _ => w
      end)).
Proof. unfold Build. now destruct (build_Build E opts w). Qed.

Lemma restartApp_result
    (opts : BuildOptions) (prev : option ProcRef) (f : Dev) (legacy : bool) (w : World) :
  match restartApp E opts prev f legacy w with
  | (Ok (newProcess, binary, err), _) =>
      err = None /\
      match newProcess with
      | None => binary = "" /\ exists e, build_Build E opts w = inr e
      | Some _ => build_Build E opts w = inl binary
      end
  | (Continue, _) => False
  | (Exit, _) => exists binary, build_Build E opts w = inl binary
  end.
Proof.
  destruct (build_Build E opts w) as [appBinary | e] eqn:Hb.
  2:{ rewrite (restartApp_build_failure E opts prev f legacy w e Hb). eauto. }
  unfold restartApp.
  match goal with |- context [bind (Build E opts) ?k] => set (K := k) end.
  assert (HK : hoare (fun _ => True) (K (inl appBinary))
                 (fun r _ => exists p, r = (Some p, appBinary, None))
                 (fun _ => False) (fun _ => True)).
  { subst K. cbv beta iota.
    hoare_next (fun (_ : unit) (_ : World) => True) as u; [hoare_prim; auto|].
    hoare_next (fun (_ : unit) (_ : World) => True) as u1.
    { destruct prev as [p|]; [|hoare_prim; auto].
      hoare_next (fun (_ : option string) (_ : World) => True) as killError;
        [hoare_prim; auto|].
      destruct killError; [|hoare_prim; auto].
      hoare_next (fun (_ : Z) (_ : World) => True) as pid; hoare_prim; auto. }
    hoare_next (fun (_ : list string) (_ : World) => True) as parsed.
    { destruct (shlex_Split E (AppArgs f)); hoare_prim; auto. }
    hoare_next (fun (_ : unit) (_ : World) => True) as u2; [hoare_prim; auto|].
    hoare_next (fun (_ : unit) (_ : World) => True) as u3; [hoare_prim; auto|].
    hoare_next (fun (_ : unit) (_ : World) => True) as u4; [hoare_prim; auto|].
    hoare_next (fun (_ : unit) (_ : World) => True) as u5; [hoare_prim; auto|].
    match goal with |- hoare _ (let '(_, _) := ?x in _) _ _ _ => destruct x end.
    hoare_next (fun (_ : unit) (_ : World) => True) as u6; [hoare_prim; auto|].
    hoare_next (fun (_ : ProcRef) (_ : World) => True) as newProcess; [hoare_prim; auto|].
    hoare_next (fun (_ : option string) (_ : World) => True) as err; [hoare_prim; auto|].
    destruct err; [|hoare_prim; eauto].
    hoare_next (fun (_ : bool) (_ : World) => True) as there; [hoare_prim; auto|].
    hoare_next (fun (_ : unit) (_ : World) => True) as u7; [|hoare_prim; auto].
    destruct there; [|hoare_prim; auto].
    hoare_next (fun (_ : option string) (_ : World) => True) as deleteError;
      [hoare_prim; auto|].
    destruct deleteError; hoare_prim; auto. }
  rewrite (bind_Ok _ _ _ _ _ (Build_runs opts w)), Hb.
  specialize (HK (emit (EBuild opts (inl appBinary)) (set_files ({[appBinary]} ∪ files w) w)) I).
  destruct (K (inl appBinary) _) as [[[[newp bin] err] | | ] w']; eauto.
  destruct HK as (p & Hp). now inversion Hp.
Qed.

(** X5.  [restartApp] never returns an error, so the loop's branch for an
    error during the build cannot be taken.  It returns no process and an
    empty path exactly when the builder fails; when the builder succeeds it
    returns the new process with the path of the built binary, or the process
    has ended in [Logger.Fatal]. *)
Theorem restartApp_never_returns_error
    (opts : BuildOptions) (prev : option ProcRef) (f : Dev) (legacy : bool) (w : World) :
  match restartApp E opts prev f legacy w with
  | (Ok (newProcess, binary, err), _) =>
      err = None /\
      match newProcess with
      | None => binary = "" /\ exists e, build_Build E opts w = inr e
      | Some _ => build_Build E opts w = inl binary
      end
  | (Continue, _) => False
  | (Exit, _) => exists binary, build_Build E opts w = inl binary
  end.
Proof. apply restartApp_result. Qed.

End RestartResult.

(** ** At most one running application *)

Section OneRunning.

Variable E : Env.

Lemma running_only_weaken holder w : running_only None w -> running_only holder w.
Proof. intros H p o Hp Hr. discriminate (H p o Hp Hr). Qed.

Lemma process_Kill_running p :
  hoare (running_only (Some p)) (process_Kill E p)
    (fun r w => match r with
                | None => running_only None w
                | Some _ => running_only (Some p) w
                end)
    (fun _ => False) (fun _ => False).
Proof.
  intros w Hw. unfold process_Kill.
  destruct (heap w !! p) as [o|] eqn:Hp.
  - destruct (Running o) eqn:Hr.
    + destruct (os_kill E p w); [exact Hw|].
      intros q o' Hq Hrun. cbn in Hq.
      apply lookup_insert_Some in Hq as [[<- <-] | [Hne Hq]]; [discriminate Hrun|].
      pose proof (Hw q o' Hq Hrun). congruence.
    + intros q o' Hq Hrun. pose proof (Hw q o' Hq Hrun). congruence.
  - intros q o' Hq Hrun. pose proof (Hw q o' Hq Hrun). congruence.
Qed.

Lemma NewProcess_running cmd cmdargs :
  hoare (running_only None) (NewProcess cmd cmdargs) (fun _ => running_only None)
    (fun _ => False) (fun _ => False).
Proof.
  intros w Hw q o Hq Hrun. cbn in Hq.
  apply lookup_insert_Some in Hq as [[<- <-] | [Hne Hq]]; [discriminate Hrun|].
  exact (Hw q o Hq Hrun).
Qed.

Lemma process_Start_running p :
  hoare (running_only None) (process_Start E p)
    (fun r w => match r with
                | None => running_only (Some p) w
                | Some _ => running_only None w
                end)
    (fun _ => False) (fun _ => False).
Proof.
  intros w Hw. unfold process_Start.
  destruct (heap w !! p) as [o|] eqn:Hp; [|exact Hw].
  destruct (cmd_Start E (command o) (args o) w); [|exact Hw].
  intros q o' Hq Hrun. cbn in Hq.
  apply lookup_insert_Some in Hq as [[<- <-] | [Hne Hq]]; [reflexivity|].
  discriminate (Hw q o' Hq Hrun).
Qed.

(** Primitives that leave the process objects alone keep [running_only]. *)
Ltac heap_same :=
  hoare_prim; try contradiction;
  match goal with
  | H : running_only _ _ |- _ => first [exact H | apply running_only_weaken; exact H]
  end.

(** [restartApp], called with the only process that may be running, leaves at
    most one process running: the one it returns, or the previous one when it
    returns none or ends the process. *)
Lemma restartApp_running opts prev f legacy :
  hoare (running_only prev) (restartApp E opts prev f legacy)
    (fun r w => match r with
                | (Some p, _, None) => running_only (Some p) w
                | (None, _, None) => running_only prev w
                | (_, _, Some _) => False
                end)
    (fun _ => False) (running_only prev).
Proof.
  unfold restartApp.
  hoare_next (fun (_ : string + string) => running_only prev) as built.
  { intros w Hw. rewrite Build_runs. destruct (build_Build E opts w); exact Hw. }
  hoare_next (fun (_ : unit) => running_only prev) as u; [heap_same|].
  destruct built as [appBinary | e].
  2:{ hoare_next (fun (_ : unit) => running_only prev) as u1; [heap_same|].
      hoare_next (fun (_ : unit) => running_only prev) as u2; heap_same. }
  hoare_next (fun (_ : unit) => running_only None) as u1.
  { destruct prev as [p|]; [|heap_same].
    hoare_next (fun (r : option string) w =>
                  match r with
                  | None => running_only None w
                  | Some _ => running_only (Some p) w
                  end) as killError.
    { eapply hoare_conseq; [apply process_Kill_running | auto ..]; contradiction. }
    destruct killError; [|heap_same].
    hoare_next (fun (_ : Z) => running_only (Some p)) as pid; heap_same. }
  hoare_next (fun (_ : list string) => running_only None) as parsed.
  { destruct (shlex_Split E (AppArgs f)); heap_same. }
  hoare_next (fun (_ : unit) => running_only None) as u2; [heap_same|].
  hoare_next (fun (_ : unit) => running_only None) as u3; [heap_same|].
  hoare_next (fun (_ : unit) => running_only None) as u4; [heap_same|].
  hoare_next (fun (_ : unit) => running_only None) as u5; [heap_same|].
  match goal with |- hoare _ (let '(_, _) := ?x in _) _ _ _ => destruct x as [cmd cmdargs] end.
  hoare_next (fun (_ : unit) => running_only None) as u6; [heap_same|].
  hoare_next (fun (_ : ProcRef) => running_only None) as newProcess.
  { eapply hoare_conseq; [apply NewProcess_running | auto ..]; contradiction. }
  hoare_next (fun (r : option string) w =>
                match r with
                | None => running_only (Some newProcess) w
                | Some _ => running_only None w
                end) as err.
  { eapply hoare_conseq; [apply process_Start_running | auto ..]; contradiction. }
  destruct err; [|intros w Hw; exact Hw].
  hoare_next (fun (_ : bool) => running_only None) as there; [heap_same|].
  hoare_next (fun (_ : unit) => running_only None) as u7; [|heap_same].
  destruct there; [|heap_same].
  hoare_next (fun (_ : option string) => running_only None) as deleteError; [heap_same|].
  destruct deleteError; heap_same.
Qed.

Variable c : LoopCfg.

(** Loop code that touches neither the process objects nor the handle. *)
Ltac held_leaf :=
  let l := fresh "l" in
  let w := fresh "w" in
  let H := fresh "H" in
  intros [l w] H; unfold io, vars, assign, continue; unfold_prims; cbn;
  repeat case_match; simplify_eq; cbn; exact H.

Ltac held_steps :=
  repeat first
    [ eapply hoare_bind with (Q1 := fun _ => held); [| intros ?]
    | match goal with
      | |- hoare _ (if ?b then _ else _) _ _ _ => destruct b
      | |- hoare _ (match ?x with _ => _ end) _ _ _ => destruct x
      end
    | held_leaf ].

Lemma onWatcherEvent_held item :
  hoare held (onWatcherEvent E c item) (fun _ => held) held held.
Proof. unfold onWatcherEvent, timer_Reset. held_steps. Qed.

Lemma assetsBlock_held : hoare held (assetsBlock E c) (fun _ => held) held held.
Proof. unfold assetsBlock. held_steps. Qed.

Lemma reloadBlock_held : hoare held (reloadBlock E c) (fun _ => held) held held.
Proof. unfold reloadBlock. held_steps. Qed.

Lemma rebuildBlock_held : hoare held (rebuildBlock E c) (fun _ => held) held held.
Proof.
  intros [l w] H. unfold rebuildBlock, bind, vars, assign, io, ret. cbn [fst snd].
  destruct (rebuild l); [|exact H].
  destruct (NoGoRebuild (f c)); [exact H|].
  cbn [LogGreen effect fst snd].
  set (w0 := emit (ELog Green "[Rebuild triggered] files updated" []) w).
  pose proof (restartApp_running (buildOptions c) (debugBinaryProcess l) (f c)
                (legacyUseDevServerInsteadofCustomScheme c) w0 H) as Hr.
  destruct (restartApp E _ _ _ _ w0) as [[[[newp bin] [e|]] | | ] w1]; cbn.
  - destruct newp; contradiction.
  - destruct newp; exact Hr.
  - contradiction.
  - exact Hr.
Qed.

Lemma iteration_held ev : hoare held (iteration E c ev) (fun _ => held) held held.
Proof.
  destruct ev as [exitCode | err | item | | ]; cbn [iteration].
  - held_steps.
  - held_steps.
  - apply onWatcherEvent_held.
  - unfold onTimer.
    eapply hoare_bind with (Q1 := fun _ => held); [held_leaf | intros _].
    eapply hoare_bind with (Q1 := fun _ => held); [apply rebuildBlock_held | intros _].
    eapply hoare_bind with (Q1 := fun _ => held); [apply assetsBlock_held | intros _].
    eapply hoare_bind with (Q1 := fun _ => held); [apply reloadBlock_held | intros _].
    held_leaf.
  - held_steps.
Qed.

Lemma loop_held events : hoare held (loop E c events) (fun _ => held) held held.
Proof.
  induction events as [|ev later IH]; intros s H; cbn [loop].
  - destruct (quit (fst s)); exact H.
  - destruct (quit (fst s)); [exact H|].
    pose proof (iteration_held ev s H) as Hit.
    destruct (iteration E c ev s) as [[[] | | ] s']; [apply IH | apply IH |]; exact Hit.
Qed.

(** X6.  The loop never has two application processes running, and none that
    it does not hold: if every running process object is the one in
    [debugBinaryProcess] when the loop starts serving events, the same is true
    whenever it waits again, returns or the process ends, whatever was served
    in between. *)
Theorem loop_holds_the_only_running_process (events : list Event) (l : Loop) (w : World) :
  running_only (debugBinaryProcess l) w ->
  running_only (debugBinaryProcess (fst (snd (loop E c events (l, w)))))
    (snd (snd (loop E c events (l, w)))).
Proof.
  intros H. pose proof (loop_held events (l, w) H) as Hl.
  destruct (loop E c events (l, w)) as [[b | | ] s']; exact Hl.
Qed.

End OneRunning.

(** ** What the loop never undoes *)

(** Loop code as a sequence of steps that all keep [I]. *)
Ltac loop_leaf fin :=
  let l := fresh "l" in
  let w := fresh "w" in
  let H := fresh "H" in
  intros [l w] H; unfold io, vars, assign, continue; unfold_prims; cbn;
  repeat case_match; simplify_eq; cbn; fin.

Ltac inv_steps I fin :=
  repeat first
    [ eapply hoare_bind with (Q1 := fun _ => I); [| intros ?]
    | match goal with
      | |- hoare _ (if ?b then _ else _) _ _ _ => destruct b
      | |- hoare _ (match ?x with _ => _ end) _ _ _ => destruct x
      end
    | loop_leaf fin ].

Section WorldInvariant.

Variable E : Env.
Variable c : LoopCfg.

(** A property of the world that no effect, no change of the files, of the
    process objects or of the environment, and no growth of the watch set can
    undo. *)
Variable J : World -> Prop.
Hypothesis J_emit : forall e w, J w -> J (emit e w).
Hypothesis J_files : forall fs w, J w -> J (set_files fs w).
Hypothesis J_heap : forall h w, J w -> J (set_heap h w).
Hypothesis J_environ : forall m w, J w -> J (set_environ m w).
Hypothesis J_watch : forall path w, J w -> J (set_watched ({[path]} ∪ watched w) w).

Ltac J_solve := repeat first [assumption | apply J_emit | apply J_files | apply J_heap
                              | apply J_environ | apply J_watch].

Ltac J_prim :=
  let w := fresh "w" in
  let Hw := fresh "Hw" in
  intros w Hw; unfold_prims; repeat case_match; simplify_eq; cbn; J_solve.

Lemma restartApp_keeps opts prev f legacy :
  hoare J (restartApp E opts prev f legacy) (fun _ => J) J J.
Proof using J_emit J_files J_heap J_environ.
  unfold restartApp.
  eapply hoare_bind with (Q1 := fun _ => J); [| intros built].
  { intros w Hw. rewrite Build_runs. destruct (build_Build E opts w); J_solve. }
  repeat first
    [ eapply hoare_bind with (Q1 := fun _ => J); [| intros ?]
    | match goal with
      | |- hoare _ (if ?b then _ else _) _ _ _ => destruct b
      | |- hoare _ (let '(_, _) := ?x in _) _ _ _ => destruct x
      | |- hoare _ (match ?x with _ => _ end) _ _ _ => destruct x
      end
    | J_prim ].
Qed.

Lemma rebuildBlock_keeps : hoare (fun s : Loop * World => J (snd s)) (rebuildBlock E c)
    (fun _ s => J (snd s)) (fun s : Loop * World => J (snd s))
    (fun s : Loop * World => J (snd s)).
Proof using J_emit J_files J_heap J_environ.
  intros [l w] H. unfold rebuildBlock, bind, vars, assign, io, ret. cbn [fst snd].
  destruct (rebuild l); [|exact H].
  destruct (NoGoRebuild (f c)); [apply J_emit; exact H|].
  cbn [LogGreen effect fst snd].
  set (w0 := emit (ELog Green "[Rebuild triggered] files updated" []) w).
  pose proof (restartApp_keeps (buildOptions c) (debugBinaryProcess l) (f c)
                (legacyUseDevServerInsteadofCustomScheme c) w0 (J_emit _ _ H)) as Hr.
  destruct (restartApp E _ _ _ _ w0) as [[[[newp bin] [e|]] | | ] w1]; cbn.
  - apply J_emit. exact Hr.
  - destruct newp; exact Hr.
  - exact Hr.
  - exact Hr.
Qed.

Lemma iteration_keeps ev : hoare (fun s : Loop * World => J (snd s)) (iteration E c ev)
    (fun _ s => J (snd s)) (fun s : Loop * World => J (snd s))
    (fun s : Loop * World => J (snd s)).
Proof using J_emit J_files J_heap J_environ J_watch.
  destruct ev as [exitCode | err | item | | ]; cbn [iteration].
  - inv_steps (fun s : Loop * World => J (snd s)) ltac:(cbn in *; J_solve).
  - inv_steps (fun s : Loop * World => J (snd s)) ltac:(cbn in *; J_solve).
  - unfold onWatcherEvent, timer_Reset.
    inv_steps (fun s : Loop * World => J (snd s)) ltac:(cbn in *; J_solve).
  - unfold onTimer.
    eapply hoare_bind with (Q1 := fun _ (s : Loop * World) => J (snd s));
      [loop_leaf ltac:(cbn in *; J_solve) | intros _].
    eapply hoare_bind with (Q1 := fun _ (s : Loop * World) => J (snd s)); [apply rebuildBlock_keeps | intros _].
    unfold assetsBlock, reloadBlock.
    inv_steps (fun s : Loop * World => J (snd s)) ltac:(cbn in *; J_solve).
  - inv_steps (fun s : Loop * World => J (snd s)) ltac:(cbn in *; J_solve).
Qed.

Lemma loop_keeps events : hoare (fun s : Loop * World => J (snd s)) (loop E c events)
    (fun _ s => J (snd s)) (fun s : Loop * World => J (snd s))
    (fun s : Loop * World => J (snd s)).
Proof using J_emit J_files J_heap J_environ J_watch.
  induction events as [|ev later IH]; intros s H; cbn [loop].
  - destruct (quit (fst s)); exact H.
  - destruct (quit (fst s)); [exact H|].
    pose proof (iteration_keeps ev s H) as Hit.
    destruct (iteration E c ev s) as [[[] | | ] s']; [apply IH | apply IH |]; exact Hit.
Qed.

End WorldInvariant.

(** X7.  The loop never takes a directory out of the watch set: whatever
    events it serves, every directory watched before is watched after. *)
Theorem watch_set_only_grows (E : Env) (c : LoopCfg) (events : list Event)
    (l : Loop) (w : World) :
  watched w ⊆ watched (snd (snd (loop E c events (l, w)))).
Proof.
  pose proof (loop_keeps E c (fun w' => watched w ⊆ watched w')) as Hk.
  specialize (Hk ltac:(auto) ltac:(auto) ltac:(auto) ltac:(auto)).
  specialize (Hk ltac:(intros path w' H; cbn; set_solver) events (l, w)).
  cbv beta in Hk. specialize (Hk ltac:(reflexivity)).
  destruct (loop E c events (l, w)) as [[b | | ] s']; exact Hk.
Qed.

(** ** The timer case drains the batch; the asset directory is asked for once *)

Section Drain.

Variable E : Env.
Variable c : LoopCfg.

(** The rebuild block never leaves the iteration, and of the loop's variables
    it changes [rebuild] and [debugBinaryProcess] only. *)
Lemma rebuildBlock_vars l w :
  let res := rebuildBlock E c (l, w) in
  let l' := fst (snd res) in
  fst res <> Continue /\
  quit l' = quit l /\ reload l' = reload l /\ assetDir l' = assetDir l /\
  changedPaths l' = changedPaths l /\ timer_armed l' = timer_armed l /\
  rebuild l' = false.
Proof.
  cbv zeta. unfold rebuildBlock, bind, vars, assign, io, ret. cbn [fst snd].
  destruct (rebuild l) eqn:Hr; [|cbn; repeat split; auto; discriminate].
  destruct (NoGoRebuild (f c)); [cbn; repeat split; discriminate|].
  cbn [LogGreen effect fst snd].
  set (w0 := emit (ELog Green "[Rebuild triggered] files updated" []) w).
  pose proof (restartApp_result E (buildOptions c) (debugBinaryProcess l) (f c)
                (legacyUseDevServerInsteadofCustomScheme c) w0) as Hres.
  destruct (restartApp E _ _ _ _ w0) as [[[[newp bin] [e|]] | | ] w1]; cbn.
  - destruct Hres as [Hres _]. discriminate Hres.
  - destruct newp; cbn; repeat split; discriminate.
  - contradiction.
  - repeat split; discriminate.
Qed.

(** X8.  A timer case never takes the loop's branch for a build error, so it
    ends the process or runs to its end; and when it runs to its end nothing
    is pending any more: no rebuild, no reload, no changed directory, and the
    timer waits for the next reset.  [quit] is as before. *)
Theorem timer_case_drains (l : Loop) (w : World) :
  let res := iteration E c TimerC (l, w) in
  let l' := fst (snd res) in
  fst res <> Continue /\
  (fst res = Ok tt ->
   rebuild l' = false /\ reload l' = false /\ changedPaths l' = ∅ /\
   timer_armed l' = false /\ quit l' = quit l).
Proof.
  cbv zeta. unfold iteration, onTimer.
  rewrite (bind_Ok _ _ (l, w) tt (set_timer_armed false l, w)) by reflexivity.
  pose proof (rebuildBlock_vars (set_timer_armed false l) w) as Hrb. cbv zeta in Hrb.
  destruct Hrb as (Hnc & Hq & Hre & Ha & Hcp & Hta & Hrb).
  destruct (rebuildBlock E c (set_timer_armed false l, w)) as [r1 [l1 w1]] eqn:Hblock.
  cbn [fst snd] in *.
  destruct r1 as [[] | | ]; [| contradiction |].
  2:{ rewrite (bind_Exit _ _ _ _ Hblock). cbn. split; discriminate. }
  rewrite (bind_Ok _ _ _ _ _ Hblock).
  assert (P_http : forall url, not_build (EHttpGet url) = true) by reflexivity.
  assert (P_log : forall k fm fa, not_build (ELog k fm fa) = true) by reflexivity.
  pose proof (assetsBlock_calm E c not_build P_http P_log (l1, w1)) as Hcalm.
  destruct (assetsBlock_returns E c (l1, w1)) as [[] Hra].
  destruct (assetsBlock E c (l1, w1)) as [ra [l2 w2]] eqn:Hs2.
  cbn in Hra. subst ra. rewrite (bind_Ok _ _ _ _ _ Hs2).
  pose proof (reloadBlock_calm_but_reload E c not_build P_http P_log (l2, w2)) as Hrl.
  destruct (reloadBlock_returns E c (l2, w2)) as [[] Hrr].
  destruct (reloadBlock E c (l2, w2)) as [rb [l3 w3]] eqn:Hs3.
  cbn in Hrr. subst rb. rewrite (bind_Ok _ _ _ _ _ Hs3).
  cbv zeta in Hrl. unfold calm in Hcalm. cbn [fst snd] in *.
  destruct Hcalm as (_ & A2 & A3 & A4 & _).
  destruct Hrl as (_ & C2 & C3 & C4 & C5 & _).
  unfold assign. cbn [fst snd]. split; [discriminate|]. intros _.
  change (rebuild (set_changedPaths ∅ l3)) with (rebuild l3).
  change (reload (set_changedPaths ∅ l3)) with (reload l3).
  change (timer_armed (set_changedPaths ∅ l3)) with (timer_armed l3).
  change (quit (set_changedPaths ∅ l3)) with (quit l3).
  change (changedPaths (set_changedPaths ∅ l3)) with (∅ : gset string).
  change (timer_armed (set_timer_armed false l)) with false in Hta.
  change (quit (set_timer_armed false l)) with (quit l) in Hq.
  repeat split; congruence.
Qed.

(** With the asset directory known, the second block of the timer case
    sends no request and logs nothing. *)
Lemma assetsBlock_known l w :
  assetDir l <> "" ->
  exists l', assetsBlock E c (l, w) = (Ok tt, (l', w)) /\ assetDir l' = assetDir l.
Proof.
  intros Hne.
  assert (Heq : String.eqb (assetDir l) "" = false)
    by (destruct (String.eqb_spec (assetDir l) ""); [contradiction | reflexivity]).
  unfold assetsBlock, bind, vars, assign, ret. cbn [fst snd].
  destruct (negb (skipAssetsReload c) && negb (size (changedPaths l) =? 0)%nat);
    [|eauto].
  rewrite Heq. cbn. rewrite Heq. cbn.
  destruct (underAssetDir (changedPaths l) (assetDir l)); cbn; eauto.
Qed.

Lemma iteration_assetDir ev l w :
  assetDir l <> "" -> assetDir (fst (snd (iteration E c ev (l, w)))) = assetDir l.
Proof.
  intros Hne.
  assert (Hres : forall (m : LoopM unit),
             hoare (fun s => assetDir (fst s) = assetDir l) m
               (fun _ s => assetDir (fst s) = assetDir l)
               (fun s => assetDir (fst s) = assetDir l)
               (fun s => assetDir (fst s) = assetDir l) ->
             assetDir (fst (snd (m (l, w)))) = assetDir l).
  { intros m Hm. specialize (Hm (l, w) eq_refl).
    destruct (m (l, w)) as [[[] | | ] s']; exact Hm. }
  apply Hres.
  destruct ev as [exitCode | err | item | | ]; cbn [iteration].
  - inv_steps (fun s : Loop * World => assetDir (fst s) = assetDir l) ltac:(assumption).
  - inv_steps (fun s : Loop * World => assetDir (fst s) = assetDir l) ltac:(assumption).
  - unfold onWatcherEvent, timer_Reset.
    inv_steps (fun s : Loop * World => assetDir (fst s) = assetDir l) ltac:(assumption).
  - unfold onTimer.
    eapply hoare_bind with (Q1 := fun _ (s : Loop * World) => assetDir (fst s) = assetDir l);
      [loop_leaf ltac:(assumption) | intros _].
    eapply hoare_bind with (Q1 := fun _ (s : Loop * World) => assetDir (fst s) = assetDir l);
      [| intros _].
    { intros [l0 w0] H0. pose proof (rebuildBlock_vars l0 w0) as Hv. cbv zeta in Hv.
      destruct Hv as (_ & _ & _ & Ha & _).
      destruct (rebuildBlock E c (l0, w0)) as [[[] | | ] s']; cbn in *; congruence. }
    eapply hoare_bind with (Q1 := fun _ (s : Loop * World) => assetDir (fst s) = assetDir l);
      [| intros _].
    { intros [l0 w0] H0. cbn in H0.
      destruct (assetsBlock_known l0 w0) as (l' & -> & Hl'); [congruence|].
      cbn. congruence. }
    unfold reloadBlock.
    inv_steps (fun s : Loop * World => assetDir (fst s) = assetDir l) ltac:(assumption).
  - inv_steps (fun s : Loop * World => assetDir (fst s) = assetDir l) ltac:(assumption).
Qed.

(** X9.  The asset directory is resolved once: when it is known, the
    second block of the timer case asks nothing of the application (it
    leaves the world as it is), and no event the loop serves changes or
    forgets it. *)
Theorem asset_directory_is_resolved_once (events : list Event) (l : Loop) (w : World) :
  assetDir l <> "" ->
  snd (snd (assetsBlock E c (l, w))) = w /\
  assetDir (fst (snd (loop E c events (l, w)))) = assetDir l.
Proof.
  intros Hne. split.
  - destruct (assetsBlock_known l w Hne) as (l' & -> & _). reflexivity.
  - revert l w Hne. induction events as [|ev later IH]; intros l w Hne; cbn [loop fst].
    + destruct (quit l); reflexivity.
    + destruct (quit l); [reflexivity|].
      pose proof (iteration_assetDir ev l w Hne) as Hit.
      destruct (iteration E c ev (l, w)) as [[[] | | ] [l' w']]; cbn [fst snd] in *;
        try (rewrite IH; congruence); exact Hit.
Qed.

End Drain.

(** ** More about single events *)

Section MoreEvents.

Variable E : Env.
Variable c : LoopCfg.

Lemma eligible_create item l w :
  has_op fsnotify.Write item = false ->
  has_op fsnotify.Create item = true ->
  Name item ∉ dirs w ->
  isEligibleFile (extensionsThatTriggerARebuild c) (Name item) = true ->
  iteration E c (WatcherEvent item) (l, w) =
  (Continue, (set_timer_armed true (set_rebuild true l),
              emit (ETimerReset (interval c)) w)).
Proof.
  intros Hw Hc Hd He. unfold iteration, onWatcherEvent.
  rewrite Hw, Hc, He. unfold bind, io, ret. cbn [fst snd].
  rewrite (DirExists_false _ _ Hd). reflexivity.
Qed.

(** X10.  The creation of a file with a rebuild extension is treated like a
    write to it: whether the event carries the write bit, the create bit or
    both, a rebuild becomes pending, the timer is reset and nothing else
    happens. *)
Theorem eligible_create_is_like_write (item : FsEvent) (l : Loop) (w : World) :
  has_op fsnotify.Write item = true \/ has_op fsnotify.Create item = true ->
  Name item ∉ dirs w ->
  isEligibleFile (extensionsThatTriggerARebuild c) (Name item) = true ->
  iteration E c (WatcherEvent item) (l, w) =
  (Continue, (set_timer_armed true (set_rebuild true l),
              emit (ETimerReset (interval c)) w)).
Proof.
  intros Hop Hd He. destruct (has_op fsnotify.Write item) eqn:Hw.
  - now apply eligible_write.
  - destruct Hop as [Hop | Hop]; [discriminate|]. now apply eligible_create.
Qed.

(** X11.  An event that carries neither the create nor the write bit, that
    is any combination of remove, rename and chmod, is ignored: the loop's
    variables and the world are as before, and the timer is not reset. *)
Theorem other_operations_are_ignored (item : FsEvent) (l : Loop) (w : World) :
  Z.land (Op item) (Z.lor fsnotify.Create fsnotify.Write) = 0 ->
  iteration E c (WatcherEvent item) (l, w) = (Ok tt, (l, w)).
Proof.
  intros Hop.
  assert (Hw : has_op fsnotify.Write item = false).
  { unfold has_op. apply Z.eqb_neq.
    replace (Z.land (Op item) fsnotify.Write)
      with (Z.land (Z.land (Op item) (Z.lor fsnotify.Create fsnotify.Write)) fsnotify.Write)
      by (rewrite <- Z.land_assoc; reflexivity).
    rewrite Hop. discriminate. }
  assert (Hc : has_op fsnotify.Create item = false).
  { unfold has_op. apply Z.eqb_neq.
    replace (Z.land (Op item) fsnotify.Create)
      with (Z.land (Z.land (Op item) (Z.lor fsnotify.Create fsnotify.Write)) fsnotify.Create)
      by (rewrite <- Z.land_assoc; reflexivity).
    rewrite Hop. discriminate. }
  unfold iteration, onWatcherEvent. rewrite Hw, Hc. reflexivity.
Qed.

Lemma reload_writes items : forall l w,
  items <> [] ->
  quit l = false ->
  Forall (reloadWrite c w) items ->
  loop E c (map WatcherEvent items) (l, w) =
  (Ok false, (set_timer_armed true (set_reload true l), afterResets c (length items) w)).
Proof.
  induction items as [|item items IH]; intros l w Hne Hq Hall; [contradiction|].
  inversion Hall as [|? ? (Hw & Hd & He & Hu) Hrest]; subst.
  cbn [map length afterResets]. rewrite loop_cons by exact Hq.
  rewrite (other_write E c item l w Hw Hd He), Hu.
  destruct items as [|item' items'].
  - cbn. now rewrite Hq.
  - rewrite IH; [reflexivity | discriminate | exact Hq |].
    eapply Forall_impl; [exact Hrest|]. intros it (H1 & H2 & H3 & H4). now repeat split.
Qed.

Lemma assetsBlock_empty l w :
  changedPaths l = ∅ -> assetsBlock E c (l, w) = (Ok tt, (l, w)).
Proof.
  intros Hcp. unfold assetsBlock, bind, vars. cbn [fst snd].
  rewrite Hcp, size_empty. cbn [Nat.eqb negb]. now rewrite andb_false_r.
Qed.

Lemma reloadBlock_pending l w :
  reload l = true ->
  reloadBlock E c (l, w) =
  (Ok tt, (set_reload false l,
           match http_Get E (reloadURL c) w with
           | HttpError e =>
               emit (ELog Red "Error during refresh: %s" [ArgS e])
                 (emit (EHttpGet (reloadURL c)) w)
           | HttpBody _ => emit (EHttpGet (reloadURL c)) w
           end)).
Proof.
  intros Hr. unfold reloadBlock, bind, vars. cbn [fst snd]. rewrite Hr.
  unfold assign, io, Get. cbn. now destruct (http_Get E (reloadURL c) w).
Qed.

(** X12.  Writes under a reload directory coalesce into one reload request:
    [N >= 1] such writes to files without a rebuild extension, served from a
    loop with nothing pending, and then the timer, give [N] timer resets and
    exactly one request to the reload endpoint.  The builder is not called,
    the asset directory is not asked for, and this is so whether or not
    reloading of assets is switched off ([-noreload], a frontend dev server). *)
Theorem reload_writes_coalesce (items : list FsEvent) (l : Loop) (w : World) :
  items <> [] ->
  quit l = false ->
  rebuild l = false ->
  changedPaths l = ∅ ->
  Forall (reloadWrite c w) items ->
  let res := loop E c (map WatcherEvent items ++ [TimerC]) (l, w) in
  fst res = Ok false /\
  reload (fst (snd res)) = false /\
  exists d,
    trace (snd (snd res)) =
      trace w ++ repeat (ETimerReset (interval c)) (length items)
              ++ EHttpGet (reloadURL c) :: d /\
    forallb quiet d = true.
Proof.
  intros Hne Hq Hr Hcp Hall. cbv zeta.
  rewrite loop_app, (reload_writes items l w Hne Hq Hall).
  set (wN := afterResets c (length items) w).
  rewrite loop_cons by exact Hq.
  unfold iteration, onTimer.
  rewrite (bind_Ok _ _ _ tt (set_timer_armed false (set_reload true l), wN))
    by reflexivity.
  destruct (rebuildBlock_shape E c (set_timer_armed false (set_reload true l)) wN)
    as (_ & _ & _ & Hskip & _).
  rewrite (bind_Ok _ _ _ _ _ (Hskip Hr)).
  rewrite (bind_Ok _ _ _ _ _
             (assetsBlock_empty (set_timer_armed false (set_reload true l)) wN Hcp)).
  rewrite (bind_Ok _ _ _ _ _
             (reloadBlock_pending (set_timer_armed false (set_reload true l)) wN eq_refl)).
  unfold assign. cbn [fst snd]. rewrite loop_nil. cbn [fst snd quit reload].
  change (quit (set_changedPaths ∅ (set_reload false (set_timer_armed false (set_reload true l)))))
    with (quit l).
  rewrite Hq. split; [reflexivity|]. split; [reflexivity|].
  destruct (http_Get E (reloadURL c) wN) as [e | body].
  - eexists [_]. split.
    + rewrite !trace_emit. subst wN. rewrite afterResets_trace, <- !app_assoc.
      reflexivity.
    + reflexivity.
  - exists []. split; [|reflexivity].
    rewrite !trace_emit. subst wN. rewrite afterResets_trace, <- !app_assoc. reflexivity.
Qed.

(** X13.  The reload directories of the loop are exactly the paths
    [watcher.Add] was called with while they were set up, in that order: an
    empty entry and an entry that cannot be made absolute are skipped, and a
    directory that the watcher refuses is a reload directory all the same.
    Setting them up never ends the process. *)
Theorem watchReloadDirs_are_the_added_paths (dirnames : list string) :
  forall (acc : list string) (w : World),
  exists (result : list string) (w' : World) (d : list Effect),
    watchReloadDirs E dirnames acc w = (Ok result, w') /\
    trace w' = trace w ++ d /\
    result = acc ++ added_paths d /\
    (length (added_paths d) <= length (List.filter (fun dir => negb (String.eqb dir "")) dirnames))%nat.
Proof.
  induction dirnames as [|dir rest IH]; intros acc w; cbn [watchReloadDirs].
  - exists acc, w, []. rewrite !app_nil_r. repeat split. cbn. lia.
  - destruct (String.eqb dir "") eqn:Hdir.
    + destruct (IH acc w) as (result & w' & d & Hrun & Ht & Hres & Hlen).
      exists result, w', d. repeat split; auto. cbn. rewrite Hdir. exact Hlen.
    + destruct (filepath_Abs E dir w) as [thePath | err] eqn:Habs.
      * unfold bind, Add.
        destruct (watcher_Add E thePath w) as [e|]; cbn;
          match goal with
          | |- context [watchReloadDirs E rest ?acc' ?w1] =>
              destruct (IH acc' w1) as (result & w' & d & Hrun & Ht & Hres & Hlen)
          end;
          rewrite Hrun; eexists result, w', (_ :: _ :: d);
          (split; [reflexivity|]); (split; [rewrite Ht, !trace_emit, <- !app_assoc;
                                           reflexivity|]);
          (split; [rewrite Hres, <- app_assoc; reflexivity|]);
          cbn; rewrite Hdir; cbn; lia.
      * unfold bind. cbn.
        match goal with
        | |- context [watchReloadDirs E rest ?acc' ?w1] =>
            destruct (IH acc' w1) as (result & w' & d & Hrun & Ht & Hres & Hlen)
        end.
        rewrite Hrun. eexists result, w', (_ :: d).
        split; [reflexivity|]. split; [rewrite Ht, trace_emit, <- app_assoc; reflexivity|].
        split; [exact Hres|]. cbn. rewrite Hdir. cbn. lia.
Qed.

End MoreEvents.

(** ** More about stopping the frontend watcher *)

Module FrontendWatcherMore.
Import FrontendWatcher FrontendWatcherInv.

Lemma joined_step a s s' : joined s -> step a s = Some s' -> joined s'.
Proof.
  unfold joined. intros (Hwg & Hst & Hcan & Hend) Hstep.
  destruct a as [err | | | i]; cbn in Hstep.
  - destruct (goroutine s) eqn:Hg; try discriminate. inversion Hstep; subst; clear Hstep.
    cbn in *. try rewrite Hg in *. cbn in *.
    assert (Hno : forall i, closers s !! i = Some CEnd -> False).
    { intros i Hi. discriminate (Hend i Hi). }
    destruct err; cbn; repeat split; auto; try discriminate;
      intros i Hi; destruct (Hno i Hi).
  - unfold goroutine_step, CompareAndSwapInt32 in Hstep.
    destruct (goroutine s) eqn:Hg; try discriminate; cbn in *.
    + assert (Hno : forall i, closers s !! i = Some CEnd -> False).
      { intros i Hi. discriminate (Hend i Hi). }
      destruct (state s =? stateRunning); destruct (negb _ && _);
        inversion Hstep; subst; cbn; repeat split; auto; try discriminate;
        intros i Hi; destruct (Hno i Hi).
    + assert (Hno : forall i, closers s !! i = Some CEnd -> False).
      { intros i Hi. discriminate (Hend i Hi). }
      inversion Hstep; subst; cbn. repeat split; auto.
      intros i Hi; destruct (Hno i Hi).
    + inversion Hstep; subst; cbn. rewrite Hwg. repeat split; auto.
  - inversion Hstep; subst; clear Hstep. cbn. repeat split; auto.
    + intros i pc Hi Hpc. apply lookup_app_Some in Hi as [Hi | [_ Hi]]; [eauto|].
      destruct (i - length (closers s))%nat as [|n]; cbn in Hi; [|discriminate].
      inversion Hi; subst. destruct Hpc; discriminate.
    + intros i Hi. apply lookup_app_Some in Hi as [Hi | [_ Hi]]; [eauto|].
      destruct (i - length (closers s))%nat as [|n]; cbn in Hi; discriminate.
  - unfold closer_step, CompareAndSwapInt32 in Hstep.
    destruct (closers s !! i) as [pc|] eqn:Hi; [|discriminate].
    assert (Hlt : (i < length (closers s))%nat) by (eapply lookup_lt_Some; eauto).
    destruct pc.
    + destruct (Z.eqb_spec (state s) stateRunning) as [Hrun | Hrun];
        inversion Hstep; subst; clear Hstep; cbn.
      * repeat split; auto.
        -- intros Hg. specialize (Hst Hg). rewrite Hst in Hrun. discriminate.
        -- intros j pc Hj Hpc. destruct (decide (i = j)) as [<- | Hne].
           ++ rewrite list_lookup_insert_eq in Hj by exact Hlt. inversion Hj; subst.
              destruct Hpc; discriminate.
           ++ rewrite list_lookup_insert_ne in Hj by exact Hne. eauto.
        -- intros j Hj. destruct (decide (i = j)) as [<- | Hne].
           ++ rewrite list_lookup_insert_eq in Hj by exact Hlt. discriminate.
           ++ rewrite list_lookup_insert_ne in Hj by exact Hne. eauto.
      * repeat split; auto.
        -- intros j pc Hj Hpc. destruct (decide (i = j)) as [<- | Hne].
           ++ rewrite list_lookup_insert_eq in Hj by exact Hlt. inversion Hj; subst.
              destruct Hpc; discriminate.
           ++ rewrite list_lookup_insert_ne in Hj by exact Hne. eauto.
        -- intros j Hj. destruct (decide (i = j)) as [<- | Hne].
           ++ rewrite list_lookup_insert_eq in Hj by exact Hlt. discriminate.
           ++ rewrite list_lookup_insert_ne in Hj by exact Hne. eauto.
    + inversion Hstep; subst; clear Hstep; cbn. repeat split; auto.
      * intros j pc Hj Hpc. destruct (decide (i = j)) as [<- | Hne].
        -- rewrite list_lookup_insert_eq in Hj by exact Hlt. inversion Hj; subst.
           destruct Hpc; discriminate.
        -- rewrite list_lookup_insert_ne in Hj by exact Hne. eauto.
      * intros j Hj. destruct (decide (i = j)) as [<- | Hne].
        -- rewrite list_lookup_insert_eq in Hj by exact Hlt. discriminate.
        -- rewrite list_lookup_insert_ne in Hj by exact Hne. eauto.
    + inversion Hstep; subst; clear Hstep; cbn. repeat split; auto.
      intros j Hj. destruct (decide (i = j)) as [<- | Hne].
      * rewrite list_lookup_insert_eq in Hj by exact Hlt. discriminate.
      * rewrite list_lookup_insert_ne in Hj by exact Hne. eauto.
    + destruct (Nat.eqb_spec (wg s) 0) as [Hz | Hz]; [|discriminate].
      inversion Hstep; subst; clear Hstep; cbn. repeat split; auto.
      * intros j pc Hj Hpc. destruct (decide (i = j)) as [<- | Hne].
        -- eapply Hcan; [exact Hi | now left].
        -- rewrite list_lookup_insert_ne in Hj by exact Hne. eauto.
      * intros j Hj. destruct (decide (i = j)) as [<- | Hne].
        -- rewrite Hz in Hwg. destruct (goroutine s); cbn in Hwg; congruence.
        -- rewrite list_lookup_insert_ne in Hj by exact Hne. eauto.
    + discriminate.
Qed.

Lemma joined_reachable s : reachable s -> joined s.
Proof.
  induction 1 as [|s a s' _ IH Hstep].
  - unfold joined. cbn. repeat split; auto; try discriminate.
  - eapply joined_step; eassumption.
Qed.

(** X14.  When a call of the stop function has returned, the watcher is
    stopped for good: the context is cancelled, the goroutine has seen the
    command end and has finished, the wait group is at zero and [state] is
    [stateStopped]. *)
Theorem stop_returns_after_the_goroutine (schedule : list Action) (s : Sys) (i : nat) :
  run schedule init = Some s ->
  closers s !! i = Some CEnd ->
  cancelled s = true /\ goroutine s = GEnd /\ wg s = 0%nat /\ state s = stateStopped.
Proof.
  intros Hrun Hi.
  pose proof (FrontendWatcherProps.run_reachable schedule init s reachable_init Hrun)
    as Hreach.
  destruct (joined_reachable s Hreach) as (Hwg & Hst & Hcan & Hend).
  pose proof (Hend i Hi) as Hg. rewrite Hg in *. cbn in *.
  repeat split; auto. eapply Hcan; [exact Hi | now right].
Qed.

Lemma reported_step a s s' :
  signal_once s -> reported s -> step a s = Some s' -> reported s'.
Proof.
  unfold reported, signal_once, aboutToKill. intros [Hle Hrunning] Hrep Hstep.
  destruct a as [err | | | i]; cbn in Hstep.
  - destruct (goroutine s) eqn:Hg; try discriminate. inversion Hstep; subst; clear Hstep.
    cbn. destruct Hrep as [Hnil | (e & _ & _ & Hsw & _)]; [now left|].
    try rewrite Hg in Hsw. cbn in Hsw. discriminate.
  - unfold goroutine_step, CompareAndSwapInt32 in Hstep.
    destruct (goroutine s) eqn:Hg; try discriminate.
    + destruct Hrep as [Hnil | (e & _ & _ & Hsw & _)]; [|try rewrite Hg in Hsw; cbn in Hsw; discriminate].
      destruct (Z.eqb_spec (state s) stateRunning) as [Hrun | Hrun].
      * destruct (String.eqb_spec err "exit status 1") as [Herr | Herr];
          inversion Hstep; subst; clear Hstep; cbn; [now left|].
        right. exists err. rewrite Hnil. repeat split; auto.
        all: destruct (killSignals s + length (List.filter isKillProc (closers s)))%nat
               eqn:Hsum; [lia | exfalso; apply Hrunning; [lia | exact Hrun]].
      * destruct (negb _ && false) eqn:Hb; [now rewrite andb_false_r in Hb|].
        inversion Hstep; subst; clear Hstep; cbn. now left.
    + inversion Hstep; subst; clear Hstep; cbn.
      destruct Hrep as [Hnil | (e & He & Hne & _ & _ & Hk & Ha)]; [now left|].
      right. exists e. repeat split; auto.
    + inversion Hstep; subst; clear Hstep; cbn.
      destruct Hrep as [Hnil | (e & He & Hne & _ & Hst & Hk & Ha)]; [now left|].
      right. exists e. repeat split; auto.
  - inversion Hstep; subst; clear Hstep. cbn.
    destruct Hrep as [Hnil | (e & He & Hne & Hsw & Hst & Hk & Ha)]; [now left|].
    right. exists e. rewrite FrontendWatcherProps.aboutToKill_call. repeat split; auto.
  - unfold closer_step, CompareAndSwapInt32 in Hstep.
    destruct (closers s !! i) as [pc|] eqn:Hi; [|discriminate].
    destruct Hrep as [Hnil | (e & He & Hne & Hsw & Hst & Hk & Ha)].
    { left. destruct pc; try discriminate.
      - destruct (state s =? stateRunning); inversion Hstep; subst; exact Hnil.
      - inversion Hstep; subst; exact Hnil.
      - inversion Hstep; subst; exact Hnil.
      - destruct (wg s =? 0)%nat; inversion Hstep; subst; exact Hnil. }
    right. exists e.
    destruct pc.
    + rewrite Hst in Hstep. cbn in Hstep. inversion Hstep; subst; clear Hstep; cbn.
      pose proof (FrontendWatcherProps.aboutToKill_insert _ _ _ CCancel Hi) as Hins.
      cbn in Hins. repeat split; auto. lia.
    + pose proof (FrontendWatcherProps.aboutToKill_insert _ _ _ CCancel Hi) as Hins.
      cbn in Hins. lia.
    + inversion Hstep; subst; clear Hstep; cbn.
      pose proof (FrontendWatcherProps.aboutToKill_insert _ _ _ CWait Hi) as Hins.
      cbn in Hins. repeat split; auto. lia.
    + destruct (wg s =? 0)%nat; [|discriminate].
      inversion Hstep; subst; clear Hstep; cbn.
      pose proof (FrontendWatcherProps.aboutToKill_insert _ _ _ CEnd Hi) as Hins.
      cbn in Hins. repeat split; auto. lia.
    + discriminate.
Qed.

Lemma reported_reachable s : reachable s -> reported s.
Proof.
  induction 1 as [|s a s' Hs IH Hstep].
  - now left.
  - eapply reported_step; [| exact IH | exact Hstep].
    now apply FrontendWatcherProps.signal_once_reachable.
Qed.

(** X15.  An error of the watcher command is reported at most once, never
    when it is "exit status 1", and only when the goroutine found [state]
    still at [stateRunning]: then no call of the stop function has sent the
    kill signal and none will, so a watcher that was stopped on purpose is
    never reported as failed. *)
Theorem watcher_error_reported_only_if_not_stopped (schedule : list Action) (s : Sys) :
  run schedule init = Some s ->
  errorLogs s = [] \/
  exists err, errorLogs s = [err] /\ err <> "exit status 1" /\
              state s = stateStopped /\
              killSignals s = 0%nat /\ aboutToKill s = 0%nat.
Proof.
  intros Hrun.
  pose proof (FrontendWatcherProps.run_reachable schedule init s reachable_init Hrun)
    as Hreach.
  destruct (reported_reachable s Hreach) as [Hnil | (e & He & Hne & _ & Hst & Hk & Ha)];
    [now left|].
  right. exists e. repeat split; auto.
Qed.

Lemma step_state_le a s s' :
  state_in_range s -> step a s = Some s' -> state s <= state s'.
Proof.
  unfold state_in_range, stateRunning, stateCanceling, stateStopped.
  intros Hr Hstep. destruct a as [err | | | i]; cbn in Hstep.
  - destruct (goroutine s); try discriminate. inversion Hstep; subst. cbn. lia.
  - unfold goroutine_step, CompareAndSwapInt32, stateRunning, stateStopped in Hstep.
    destruct (goroutine s); try discriminate.
    + destruct (Z.eqb_spec (state s) 0); destruct (negb _ && _);
        inversion Hstep; subst; cbn; lia.
    + inversion Hstep; subst. cbn. unfold stateStopped. lia.
    + inversion Hstep; subst. cbn. lia.
  - inversion Hstep; subst. cbn. lia.
  - unfold closer_step, CompareAndSwapInt32, stateRunning, stateCanceling in Hstep.
    destruct (closers s !! i) as [[| | | |]|]; try discriminate.
    + destruct (Z.eqb_spec (state s) 0); inversion Hstep; subst; cbn; lia.
    + inversion Hstep; subst. cbn. lia.
    + inversion Hstep; subst. cbn. lia.
    + destruct (wg s =? 0)%nat; [|discriminate]. inversion Hstep; subst. cbn. lia.
Qed.

(** X16.  [state] only moves forward, from [stateRunning] over
    [stateCanceling] to [stateStopped]: along every schedule, from every
    state the system can be in, the value of [state] never decreases and
    never exceeds [stateStopped]. *)
Theorem state_only_moves_forward (before after : list Action) (s s' : Sys) :
  run before init = Some s ->
  run after s = Some s' ->
  state s <= state s' <= stateStopped.
Proof.
  intros Hb Ha.
  pose proof (FrontendWatcherProps.run_reachable before init s reachable_init Hb) as Hs.
  clear Hb. revert s Hs Ha. induction after as [|a later IH]; intros s Hs Ha; cbn in Ha.
  - inversion Ha; subst.
    destruct (FrontendWatcherProps.state_in_range_reachable s' Hs) as [H | [H | H]];
      rewrite H; unfold stateRunning, stateCanceling, stateStopped; lia.
  - destruct (step a s) as [s1|] eqn:Hstep; [|discriminate].
    pose proof (step_state_le a s s1
                  (FrontendWatcherProps.state_in_range_reachable s Hs) Hstep) as Hle.
    destruct (IH s1 (reachable_step s a s1 Hs Hstep) Ha) as [H1 H2]. lia.
Qed.

End FrontendWatcherMore.

(** ** What [restartApp] starts *)

Section Launch.

Variable E : Env.

Ltac launch_solve :=
  unfold exported in *; cbn in *;
  repeat match goal with
         | H : _ /\ _ |- _ => destruct H
         | H : exists _, _ |- _ => destruct H
         end;
  repeat split; try assumption; try contradiction;
  try (simplify_map_eq; done); try set_solver; eauto.

Lemma restartApp_launch opts prev f legacy :
  hoare (fun _ => True) (restartApp E opts prev f legacy)
    (fun r w =>
       match r with
       | (Some p, appBinary, _) =>
           appBinary ∈ files w /\ exported f w /\
           exists parsed pid,
             shlex_Split E (AppArgs f) = inl parsed /\
             heap w !! p = Some (launched f appBinary parsed pid)
       | (None, _, _) => True
       end)
    (fun _ => False) (fun _ => True).
Proof.
  unfold restartApp.
  hoare_next (fun (built : string + string) (w : World) =>
                match built with
                | inl appBinary => appBinary ∈ files w
                | inr _ => True
                end) as built.
  { intros w _. rewrite Build_runs. destruct (build_Build E opts w); cbn; [set_solver|auto]. }
  destruct built as [appBinary | e].
  2:{ hoare_next (fun (_ : unit) (_ : World) => True) as u; [hoare_prim; auto|].
      hoare_next (fun (_ : unit) (_ : World) => True) as u1; [hoare_prim; auto|].
      hoare_next (fun (_ : unit) (_ : World) => True) as u2; hoare_prim; auto. }
  hoare_next (fun (_ : unit) (w : World) => appBinary ∈ files w) as u;
    [hoare_prim; launch_solve|].
  hoare_next (fun (_ : unit) (w : World) => appBinary ∈ files w) as u1.
  { destruct prev as [p|]; [|hoare_prim; launch_solve].
    hoare_next (fun (_ : option string) (w : World) => appBinary ∈ files w) as killError;
      [hoare_prim; launch_solve|].
    destruct killError; [|hoare_prim; launch_solve].
    hoare_next (fun (_ : Z) (w : World) => appBinary ∈ files w) as pid;
      hoare_prim; launch_solve. }
  destruct (shlex_Split E (AppArgs f)) as [parsed | e] eqn:Hsh.
  2:{ hoare_next (fun (_ : list string) (_ : World) => False) as x;
        [hoare_prim; launch_solve | intros w []]. }
  hoare_next (fun (a : list string) (w : World) => a = parsed /\ appBinary ∈ files w) as a;
    [hoare_prim; launch_solve|].
  hoare_next (fun (_ : unit) (w : World) =>
                a = parsed /\ appBinary ∈ files w /\
                environ w !! "loglevel" = Some (LogLevel f)) as u2;
    [hoare_prim; launch_solve|].
  hoare_next (fun (_ : unit) (w : World) =>
                a = parsed /\ appBinary ∈ files w /\
                environ w !! "loglevel" = Some (LogLevel f) /\
                environ w !! "assetdir" = Some (AssetDir f)) as u3;
    [hoare_prim; launch_solve|].
  hoare_next (fun (_ : unit) (w : World) =>
                a = parsed /\ appBinary ∈ files w /\
                environ w !! "loglevel" = Some (LogLevel f) /\
                environ w !! "assetdir" = Some (AssetDir f) /\
                environ w !! "devserver" = Some (DevServer f)) as u4;
    [hoare_prim; launch_solve|].
  hoare_next (fun (_ : unit) (w : World) =>
                a = parsed /\ appBinary ∈ files w /\ exported f w) as u5;
    [hoare_prim; launch_solve|].
  set (line := if (String.length (DlvFlag f) =? 0)%nat then (appBinary, a)
               else _).
  assert (Hline : a = parsed ->
            line = (command (launched f appBinary parsed 0),
                    args (launched f appBinary parsed 0))).
  { intros ->. subst line. unfold launched. cbn [command args].
    destruct (String.length (DlvFlag f) =? 0)%nat; [reflexivity|].
    destruct parsed; cbn; rewrite <- ?app_assoc; reflexivity. }
  destruct line as [cmd cmdargs].
  hoare_next (fun (_ : unit) (w : World) =>
                a = parsed /\ appBinary ∈ files w /\ exported f w) as u6;
    [hoare_prim; launch_solve|].
  hoare_next (fun (p : ProcRef) (w : World) =>
                a = parsed /\ appBinary ∈ files w /\ exported f w /\
                heap w !! p = Some {| command := cmd; args := cmdargs; PID := 0;
                                      Running := false |}) as newProcess.
  { hoare_prim. destruct Hw as (Ha & Hf & He).
    refine (conj Ha (conj Hf (conj He _))). apply lookup_insert_eq. }
  hoare_next (fun (r : option string) (w : World) =>
                match r with
                | None =>
                    a = parsed /\ appBinary ∈ files w /\ exported f w /\
                    exists pid, heap w !! newProcess =
                                Some {| command := cmd; args := cmdargs; PID := pid;
                                        Running := true |}
                | Some _ => True
                end) as err.
  { intros w (Ha & Hf & He & Hp). unfold process_Start. rewrite Hp. cbn.
    destruct (cmd_Start E cmd cmdargs w) as [pid | e]; [|exact I].
    cbn. refine (conj Ha (conj Hf (conj He _))). exists pid. apply lookup_insert_eq. }
  destruct err as [e|].
  - hoare_next (fun (_ : bool) (_ : World) => True) as there; [hoare_prim; auto|].
    hoare_next (fun (_ : unit) (_ : World) => True) as u7; [|hoare_prim; auto].
    destruct there; [|hoare_prim; auto].
    hoare_next (fun (_ : option string) (_ : World) => True) as deleteError;
      [hoare_prim; auto|].
    destruct deleteError; hoare_prim; auto.
  - intros w (Ha & Hf & He & pid & Hp). cbn. refine (conj Hf (conj He _)).
    exists parsed, pid. split; [reflexivity|]. rewrite Hp.
    specialize (Hline Ha). inversion Hline; subst. reflexivity.
Qed.


(** X18.  The process that [restartApp] returns runs, with the PID it got at
    its start.  Without [-dlv] it is the built binary with the parsed
    application arguments.  With [-dlv] it is dlv with the words of the flag,
    exec and the binary, followed by the separator -- when there are
    application arguments; the application arguments themselves are not on the
    command line. *)
Theorem restartApp_command_line
    (opts : BuildOptions) (prev : option ProcRef) (f : Dev) (legacy : bool)
    (w w' : World) (p : ProcRef) (appBinary : string) (err : option string) :
  restartApp E opts prev f legacy w = (Ok (Some p, appBinary, err), w') ->
  exists (parsed : list string) (pid : nat),
    shlex_Split E (AppArgs f) = inl parsed /\
    heap w' !! p =
    Some {| command := if (String.length (DlvFlag f) =? 0)%nat then appBinary else "dlv";
            args := if (String.length (DlvFlag f) =? 0)%nat then parsed
                    else GoStrings.Split (DlvFlag f) " " ++ ["exec"; appBinary]
                         ++ (if (0 <? length parsed)%nat then ["--"] else []);
            PID := pid; Running := true |}.
Proof.
  intros Hrun. pose proof (restartApp_launch opts prev f legacy w I) as H.
  rewrite Hrun in H. destruct H as (_ & _ & Hl). exact Hl.
Qed.

End Launch.

(** ** How [restartApp] ends the process *)

Section Fatal.

Variable E : Env.

Lemma last_emit e w : last (trace (emit e w)) = Some e.
Proof. rewrite trace_emit. apply last_snoc. Qed.

Ltac fatal_solve :=
  unfold exported in *; cbn in *;
  repeat match goal with
         | H : _ /\ _ |- _ => destruct H
         end;
  repeat split; try assumption; try congruence;
  try (simplify_map_eq; done); try set_solver.

Lemma restartApp_fatal opts prev f legacy w :
  hoare (fun s => s = w) (restartApp E opts prev f legacy)
    (fun _ _ => True) (fun _ => False)
    (fun w' => exists appBinary,
                 build_Build E opts w = inl appBinary /\ fatal_exit f w appBinary w').
Proof.
  unfold restartApp.
  hoare_next (fun (built : string + string) (w1 : World) =>
                match built with
                | inl appBinary =>
                    build_Build E opts w = inl appBinary /\
                    heap w1 = heap w /\ environ w1 = environ w /\ appBinary ∈ files w1
                | inr _ => True
                end) as built.
  { intros w0 ->. rewrite Build_runs. destruct (build_Build E opts w); cbn; [|exact I].
    repeat split; set_solver. }
  destruct built as [appBinary | e].
  2:{ hoare_next (fun (_ : unit) (_ : World) => True) as u; [hoare_prim; auto|].
      hoare_next (fun (_ : unit) (_ : World) => True) as u1; [hoare_prim; auto|].
      hoare_next (fun (_ : unit) (_ : World) => True) as u2; hoare_prim; auto. }
  hoare_next (fun (_ : unit) (w1 : World) =>
                build_Build E opts w = inl appBinary /\
                heap w1 = heap w /\ environ w1 = environ w /\ appBinary ∈ files w1) as u;
    [hoare_prim; fatal_solve|].
  hoare_next (fun (_ : unit) (w1 : World) =>
                build_Build E opts w = inl appBinary /\
                environ w1 = environ w /\ appBinary ∈ files w1) as u1.
  { destruct prev as [p|]; [|hoare_prim; fatal_solve].
    hoare_next (fun (killError : option string) (w1 : World) =>
                  build_Build E opts w = inl appBinary /\
                  environ w1 = environ w /\ appBinary ∈ files w1 /\
                  (killError <> None -> heap w1 = heap w)) as killError;
      [hoare_prim; fatal_solve|].
    destruct killError as [e|]; [|hoare_prim; fatal_solve].
    hoare_next (fun (_ : Z) (w1 : World) =>
                  build_Build E opts w = inl appBinary /\
                  environ w1 = environ w /\ appBinary ∈ files w1 /\
                  heap w1 = heap w) as pid.
    { hoare_prim. destruct Hw as (Hb & He & Hf & Hh).
      repeat split; auto. }
    intros w1 (Hb & He & Hf & Hh). unfold Logger_Fatal.
    exists appBinary. split; [exact Hb|].
    eexists _, _. split; [apply last_emit|]. left. cbn. auto. }
  hoare_next (fun (_ : list string) (w1 : World) =>
                build_Build E opts w = inl appBinary /\
                environ w1 = environ w /\ appBinary ∈ files w1) as parsed.
  { destruct (shlex_Split E (AppArgs f)) as [parsed | e]; [hoare_prim; fatal_solve|].
    intros w1 (Hb & He & Hf). unfold Logger_Fatal.
    exists appBinary. split; [exact Hb|].
    eexists _, _. split; [apply last_emit|]. right. left. cbn. auto. }
  hoare_next (fun (_ : unit) (w1 : World) =>
                build_Build E opts w = inl appBinary /\ appBinary ∈ files w1 /\
                environ w1 !! "loglevel" = Some (LogLevel f)) as u2;
    [hoare_prim; fatal_solve|].
  hoare_next (fun (_ : unit) (w1 : World) =>
                build_Build E opts w = inl appBinary /\ appBinary ∈ files w1 /\
                environ w1 !! "loglevel" = Some (LogLevel f) /\
                environ w1 !! "assetdir" = Some (AssetDir f)) as u3;
    [hoare_prim; fatal_solve|].
  hoare_next (fun (_ : unit) (w1 : World) =>
                build_Build E opts w = inl appBinary /\ appBinary ∈ files w1 /\
                environ w1 !! "loglevel" = Some (LogLevel f) /\
                environ w1 !! "assetdir" = Some (AssetDir f) /\
                environ w1 !! "devserver" = Some (DevServer f)) as u4;
    [hoare_prim; fatal_solve|].
  hoare_next (fun (_ : unit) (w1 : World) =>
                build_Build E opts w = inl appBinary /\ exported f w1) as u5;
    [hoare_prim; fatal_solve|].
  match goal with |- hoare _ (let '(_, _) := ?x in _) _ _ _ => destruct x as [cmd cmdargs] end.
  hoare_next (fun (_ : unit) (w1 : World) =>
                build_Build E opts w = inl appBinary /\ exported f w1) as u6;
    [hoare_prim; fatal_solve|].
  hoare_next (fun (_ : ProcRef) (w1 : World) =>
                build_Build E opts w = inl appBinary /\ exported f w1) as newProcess;
    [hoare_prim; fatal_solve|].
  hoare_next (fun (_ : option string) (w1 : World) =>
                build_Build E opts w = inl appBinary /\ exported f w1) as err;
    [hoare_prim; fatal_solve|].
  destruct err as [e|]; [|hoare_prim; auto].
  hoare_next (fun (there : bool) (w1 : World) =>
                build_Build E opts w = inl appBinary /\ exported f w1 /\
                (if there then appBinary ∈ files w1 else appBinary ∉ files w1)) as there.
  { intros w1 (Hb & He). unfold fs_FileExists. cbn.
    refine (conj Hb (conj He _)). case_bool_decide; assumption. }
  hoare_next (fun (_ : unit) (w1 : World) =>
                build_Build E opts w = inl appBinary /\ exported f w1 /\
                appBinary ∉ files w1) as u7.
  { destruct there; [|hoare_prim; fatal_solve].
    hoare_next (fun (deleteError : option string) (w1 : World) =>
                  build_Build E opts w = inl appBinary /\ exported f w1 /\
                  match deleteError with
                  | Some _ => appBinary ∈ files w1
                  | None => appBinary ∉ files w1
                  end) as deleteError.
    { intros w1 (Hb & He & Hf). unfold DeleteFile.
      destruct (fs_DeleteFile E appBinary w1); cbn;
        refine (conj Hb (conj He _)); [exact Hf|].
      intros Hin. apply elem_of_difference in Hin as [_ Hn].
      apply Hn. now apply elem_of_singleton. }
    destruct deleteError as [de|]; [|hoare_prim; fatal_solve].
    intros w1 (Hb & He & Hf). unfold Logger_Fatal.
    exists appBinary. split; [exact Hb|].
    eexists _, _. split; [apply last_emit|]. right. right. left. cbn. auto. }
  intros w1 (Hb & He & Hf). unfold Logger_Fatal.
  exists appBinary. split; [exact Hb|].
  eexists _, _. split; [apply last_emit|]. right. right. right. cbn. auto.
Qed.

(** X19.  [restartApp] ends the process only after a successful build, and in
    one of four ways, told apart by the fatal message that is logged last.
    When the running application cannot be killed, no process object and no
    environment variable has been touched.  When the application arguments
    cannot be parsed, no environment variable has been touched.  When the new
    binary cannot be started, the four variables are exported and the binary
    is not on disk any more, but for the case that it could not be deleted.
    In the first three cases the built binary is left on disk. *)
Theorem restartApp_fatal_exits
    (opts : BuildOptions) (prev : option ProcRef) (f : Dev) (legacy : bool)
    (w w' : World) :
  restartApp E opts prev f legacy w = (Exit, w') ->
  exists (appBinary fmt : string) (fargs : list LogArg),
    build_Build E opts w = inl appBinary /\
    last (trace w') = Some (EFatal fmt fargs) /\
    ((fmt = "Unable to kill debug binary (PID: %d)!" /\
      heap w' = heap w /\ environ w' = environ w /\ appBinary ∈ files w') \/
     (fmt = "Unable to parse appargs: %s" /\
      environ w' = environ w /\ appBinary ∈ files w') \/
     (fmt = "Unable to delete app binary: " +:+ appBinary /\
      exported f w' /\ appBinary ∈ files w') \/
     (fmt = "Unable to start application: %s" /\
      exported f w' /\ appBinary ∉ files w')).
Proof.
  intros Hrun. pose proof (restartApp_fatal opts prev f legacy w w eq_refl) as H.
  rewrite Hrun in H. destruct H as (appBinary & Hb & fmt & fargs & Hl & Hcases).
  exists appBinary, fmt, fargs. auto.
Qed.

End Fatal.

(** ** Leaving the loop *)

Section Shutdown.

Variable E : Env.

Lemma watchReloadDirs_heap dirnames :
  forall acc w, heap (snd (watchReloadDirs E dirnames acc w)) = heap w.
Proof.
  induction dirnames as [|dir rest IH]; intros acc w; cbn [watchReloadDirs]; [reflexivity|].
  destruct (String.eqb dir ""); [apply IH|].
  destruct (filepath_Abs E dir w) as [thePath | err].
  - unfold bind, Add.
    destruct (watcher_Add E thePath w) as [e|]; cbn; rewrite IH; reflexivity.
  - unfold bind, LogRed, effect. cbn. rewrite IH. reflexivity.
Qed.

Lemma killProcessAndCleanupBinary_stops process binary w w' :
  running_only process w ->
  killProcessAndCleanupBinary E process binary w = (Ok None, w') ->
  forall q o, heap w' !! q = Some o -> Running o = false.
Proof.
  intros Hw Hrun q o Hq. unfold killProcessAndCleanupBinary in Hrun.
  assert (Hrest : forall w1 r,
            (forall q o, heap w1 !! q = Some o -> Running o = false) ->
            (if negb (String.eqb binary "")
             then err <- Remove E binary ;;
                  match err with
                  | Some e => if negb (is_ErrNotExist e) then ret (Some (OsError_Error e))
                              else ret None
                  | None => ret None
                  end
             else ret None) w1 = (Ok r, w') ->
            Running o = false).
  { intros w1 r H1 Hr. apply (H1 q). 
    destruct (negb (String.eqb binary "")); [|unfold ret in Hr; congruence].
    unfold bind, Remove in Hr.
    destruct (os_Remove E binary w1) as [e|]; cbn in Hr.
    - destruct (negb (is_ErrNotExist e)); unfold ret in Hr; inversion Hr; subst; exact Hq.
    - unfold ret in Hr. inversion Hr; subst. exact Hq. }
  destruct process as [p|].
  - unfold bind at 1 in Hrun. unfold bind at 1 in Hrun. unfold process_Running in Hrun.
    destruct (heap w !! p) as [po|] eqn:Hp.
    + destruct (Running po) eqn:Hpr.
      * unfold process_Kill in Hrun. rewrite Hp, Hpr in Hrun.
        destruct (os_kill E p w) as [e|]; [unfold ret in Hrun; discriminate|].
        eapply Hrest; [|exact Hrun]. cbn. intros q' o' Hq'.
        destruct (decide (q' = p)) as [->|Hne].
        -- rewrite lookup_insert_eq in Hq'. inversion Hq'. reflexivity.
        -- rewrite lookup_insert_ne in Hq' by congruence.
           destruct (Running o') eqn:Hr'; [|reflexivity].
           specialize (Hw q' o' Hq' Hr'). congruence.
      * eapply Hrest; [|exact Hrun]. intros q' o' Hq'.
        destruct (Running o') eqn:Hr'; [|reflexivity].
        specialize (Hw q' o' Hq' Hr'). inversion Hw; subst.
        pose proof (eq_trans (eq_sym Hq') Hp) as Heq. inversion Heq; subst. congruence.
    + eapply Hrest; [|exact Hrun]. intros q' o' Hq'.
      destruct (Running o') eqn:Hr'; [|reflexivity].
      specialize (Hw q' o' Hq' Hr'). inversion Hw; subst.
      discriminate (eq_trans (eq_sym Hq') Hp).
  - unfold bind at 1 in Hrun. cbn in Hrun.
    eapply Hrest; [|exact Hrun]. intros q' o' Hq'.
    destruct (Running o') eqn:Hr'; [|reflexivity].
    discriminate (Hw q' o' Hq' Hr').
Qed.

Lemma watchReloadDirs_returns dirnames :
  forall acc w, exists result w', watchReloadDirs E dirnames acc w = (Ok result, w').
Proof.
  induction dirnames as [|dir rest IH]; intros acc w; cbn [watchReloadDirs].
  - unfold ret. eauto.
  - destruct (String.eqb dir ""); [apply IH|].
    destruct (filepath_Abs E dir w) as [thePath | err].
    + unfold bind, Add. destruct (watcher_Add E thePath w) as [e|]; cbn; apply IH.
    + unfold bind, LogRed, effect. cbn. apply IH.
Qed.

Lemma loop_not_continue c events : forall s, fst (loop E c events s) <> Continue.
Proof.
  induction events as [|ev later IH]; intros s; cbn [loop].
  - destruct (quit (fst s)); discriminate.
  - destruct (quit (fst s)); [discriminate|].
    destruct (iteration E c ev s) as [[[] | | ] s']; first [apply IH | discriminate].
Qed.

Lemma doWatcherLoop_cases cwd reloadDirs opts p0 f0 url legacy events w :
  match doWatcherLoop E cwd reloadDirs opts p0 f0 url legacy events w with
  | (Ok (Some (p, Some err)), w') =>
      initialiseWatcher E cwd reloadDirs w = inr err /\ p = None /\
      w' = emit (ELog Red "Unable to create filesystem watcher. Reloads will not occur." [])
             w
  | (Ok (Some (p, None)), w') =>
      (exists watchSet, initialiseWatcher E cwd reloadDirs w = inl watchSet) /\
      (running_only p0 w -> running_only p w')
  | (Ok None, _) | (Exit, _) =>
      exists watchSet, initialiseWatcher E cwd reloadDirs w = inl watchSet
  | (Continue, _) => False
  end.
Proof.
  unfold doWatcherLoop.
  destruct (initialiseWatcher E cwd reloadDirs w) as [watchSet | err].
  2:{ cbn. auto. }
  unfold bind at 1. unfold LogGreen at 1, effect at 1.
  unfold bind at 1.
  pose proof (watchReloadDirs_heap (GoStrings.Split (ReloadDirs f0) ",") []
                (emit (ELog Green "Watching (sub)/directory: %s" [ArgS cwd])
                   (set_watched watchSet w))) as Hh.
  destruct (watchReloadDirs_returns (GoStrings.Split (ReloadDirs f0) ",") []
              (emit (ELog Green "Watching (sub)/directory: %s" [ArgS cwd])
                 (set_watched watchSet w))) as (dirsR & w1 & Hrun).
  rewrite Hrun in Hh |- *. cbn in Hh.
  match goal with |- context [loop E ?c events] => set (cfg0 := c) end.
  unfold bind at 1. unfold from.
  set (l0 := {| quit := false; rebuild := false; reload := false; assetDir := "";
                changedPaths := ∅; debugBinaryProcess := p0; timer_armed := true |}).
  pose proof (loop_held E cfg0 events (l0, w1)) as Hl.
  destruct (loop E cfg0 events (l0, w1)) as [[returned | | ] [l' w2]] eqn:Hloop.
  - destruct returned.
    + unfold bind, closeWatcher. destruct (watcher_Close E w2) as [e|]; cbn; [eauto|].
      split; [eauto|]. intros H0. apply Hl. intros q o Hq Hr. apply (H0 q o); [|exact Hr].
      cbn in Hq. rewrite Hh in Hq. exact Hq.
    + cbn. eauto.
  - pose proof (loop_not_continue cfg0 events (l0, w1)) as Hn.
    rewrite Hloop in Hn. exact (Hn eq_refl).
  - cbn. eauto.
Qed.

(** X20.  [doWatcherLoop] returns an error only when the watcher cannot be
    created: once the loop runs, it returns without error or not at all.  It
    then returns no process, whatever process it was called with, and has done
    nothing but log one line. *)
Theorem doWatcherLoop_error_only_at_start
    (cwd reloadDirs : string) (opts : BuildOptions) (p0 : option ProcRef) (f0 : Dev)
    (url : URL) (legacy : bool) (events : list Event) (w w' : World)
    (p : option ProcRef) (err : string) :
  doWatcherLoop E cwd reloadDirs opts p0 f0 url legacy events w
    = (Ok (Some (p, Some err)), w') <->
  initialiseWatcher E cwd reloadDirs w = inr err /\ p = None /\
  w' = emit (ELog Red "Unable to create filesystem watcher. Reloads will not occur." []) w.
Proof.
  split.
  - intros Hrun.
    pose proof (doWatcherLoop_cases cwd reloadDirs opts p0 f0 url legacy events w) as H.
    rewrite Hrun in H. exact H.
  - intros (Hi & -> & ->). unfold doWatcherLoop. rewrite Hi. reflexivity.
Qed.

(** X21.  Leaving the loop and cleaning up leaves no application running:
    when every running process object is the one [doWatcherLoop] is called
    with, and it returns without error, the process it returns is the only
    one that may run, so that after a [killProcessAndCleanupBinary] of it that
    returns no error no process object is running. *)
Theorem shutdown_leaves_nothing_running
    (cwd reloadDirs : string) (opts : BuildOptions) (p0 : option ProcRef) (f0 : Dev)
    (url : URL) (legacy : bool) (events : list Event) (w w1 w2 : World)
    (p : option ProcRef) (binary : string) :
  running_only p0 w ->
  doWatcherLoop E cwd reloadDirs opts p0 f0 url legacy events w = (Ok (Some (p, None)), w1) ->
  killProcessAndCleanupBinary E p binary w1 = (Ok None, w2) ->
  forall q o, heap w2 !! q = Some o -> Running o = false.
Proof.
  intros H0 Hloop Hkill.
  pose proof (doWatcherLoop_cases cwd reloadDirs opts p0 f0 url legacy events w) as H.
  rewrite Hloop in H. destruct H as [_ H].
  exact (killProcessAndCleanupBinary_stops p binary w1 w2 (H H0) Hkill).
Qed.

End Shutdown.

(** ** The single instance lock *)

Module SingleInstanceProps.
Import SingleInstance.

Lemma list_ascii_of_string_inj (a b : string) :
  list_ascii_of_string a = list_ascii_of_string b -> a = b.
Proof.
  intros H. rewrite <- (string_of_list_ascii_of_string a),
    <- (string_of_list_ascii_of_string b), H. reflexivity.
Qed.

Lemma append_inv_tail (a b t : string) : a +:+ t = b +:+ t -> a = b.
Proof.
  intros H. apply list_ascii_of_string_inj.
  apply (f_equal list_ascii_of_string) in H.
  rewrite !list_ascii_of_string_app in H. exact (app_inv_tail _ _ _ H).
Qed.

Lemma ReplaceAll_twice_cons (c : ascii) (rest : string) :
  ReplaceAll (ReplaceAll (String c rest) "-" "_") "." "_" =
  String (underscored c) (ReplaceAll (ReplaceAll rest "-" "_") "." "_").
Proof.
  unfold underscored. cbn [ReplaceAll].
  destruct (Ascii.eqb c "-"); [reflexivity|].
  cbn [ReplaceAll]. destruct (Ascii.eqb c "."); reflexivity.
Qed.

Lemma underscored_alike (x y : ascii) :
  underscored x = underscored y <->
  Ascii.eqb x y || separator x && separator y = true.
Proof.
  unfold underscored, separator.
  destruct (Ascii.eqb_spec x "-"), (Ascii.eqb_spec x "."), (Ascii.eqb_spec x "_"),
    (Ascii.eqb_spec y "-"), (Ascii.eqb_spec y "."), (Ascii.eqb_spec y "_"),
    (Ascii.eqb_spec x y); subst; cbn; split; intros H;
    first [reflexivity | congruence | discriminate].
Qed.

Lemma ReplaceAll_alike (a : string) :
  forall b,
    ReplaceAll (ReplaceAll a "-" "_") "." "_" = ReplaceAll (ReplaceAll b "-" "_") "." "_" <->
    alike a b = true.
Proof.
  induction a as [|x a IH]; intros [|y b].
  - cbn. tauto.
  - rewrite ReplaceAll_twice_cons. cbn. split; discriminate.
  - rewrite ReplaceAll_twice_cons. cbn. split; discriminate.
  - rewrite !ReplaceAll_twice_cons. cbn [alike]. rewrite andb_true_iff.
    rewrite <- underscored_alike, <- IH. split.
    + intros H. injection H as H1 H2. split; assumption.
    + intros [-> ->]. reflexivity.
Qed.

(** X22.  Two unique ids get the same bus name exactly when they have the
    same length and agree at every position up to the characters [-], [.]
    and [_]: applications whose ids differ only in these are taken for
    instances of each other. *)
Theorem same_bus_name_iff_alike (uniqueID1 uniqueID2 : string) :
  dbusName uniqueID1 = dbusName uniqueID2 <-> alike uniqueID1 uniqueID2 = true.
Proof.
  rewrite <- ReplaceAll_alike. unfold dbusName, id. split.
  - intros H. cbn in H. injection H as H. exact (append_inv_tail _ _ _ H).
  - intros ->. reflexivity.
Qed.

Lemma ReplaceAll_twice_clean (s : string) :
  clean (ReplaceAll (ReplaceAll s "-" "_") "." "_") = true.
Proof.
  induction s as [|c s IH]; [reflexivity|].
  rewrite ReplaceAll_twice_cons. unfold clean in *. cbn [list_ascii_of_string forallb].
  rewrite IH, andb_true_r. unfold underscored.
  destruct (Ascii.eqb c "-") eqn:H1; [reflexivity|].
  destruct (Ascii.eqb c ".") eqn:H2; [reflexivity|].
  rewrite H1, H2. reflexivity.
Qed.

(** X23.  The id the bus name and the object path are made from has no [-]
    and no dot, whatever the unique id is; a unique id that has none of them
    is taken as it is. *)
Theorem id_is_clean (uniqueID : string) :
  clean (id uniqueID) = true /\
  (clean uniqueID = true -> id uniqueID = "wails_app_" +:+ uniqueID).
Proof.
  split.
  - unfold id, clean. rewrite list_ascii_of_string_app, forallb_app.
    apply andb_true_iff. split; [reflexivity | apply ReplaceAll_twice_clean].
  - intros H. unfold id. f_equal. unfold clean in H.
    induction uniqueID as [|c s IH]; [reflexivity|].
    cbn [list_ascii_of_string forallb] in H.
    apply andb_true_iff in H as [Hc Hs]. apply andb_true_iff in Hc as [H1 H2].
    apply negb_true_iff in H1, H2.
    rewrite ReplaceAll_twice_cons, (IH Hs). unfold underscored. rewrite H1, H2. reflexivity.
Qed.

(** X24.  [SetupSingleInstance] returns or ends the process with
    [os.Exit(1)], and it ends the process exactly when the bus was reached,
    the handler exported, the name found taken, and the arguments after the
    program name with the working directory encoded and delivered to the
    owner of the name.  It has then exported, asked for the name and called
    [SendMessage], in this order and nothing else; any failure on the way
    lets the process go on as if it were the first instance. *)
Theorem SetupSingleInstance_exits_iff_delivered (B : Bus) (uniqueID : string)
    (t : list Action) :
  let r := SetupSingleInstance B uniqueID t in
  (fst r = Ok tt \/ fst r = Exit) /\
  (fst r = Exit <->
   ConnectSessionBus B = None /\
   conn_Export B (dbusPath uniqueID) (dbusName uniqueID) = None /\
   conn_RequestName B (dbusName uniqueID) = inl RequestNameReplyExists /\
   exists wd serialized,
     os_Getwd B = inl wd /\
     json_Marshal B {| Args := tail (os_Args B); WorkingDirectory := wd |}
       = inl serialized /\
     object_Call B (dbusName uniqueID) (dbusPath uniqueID)
       (dbusName uniqueID +:+ ".SendMessage") serialized = None /\
     snd r = t ++ [AExport (dbusPath uniqueID) (dbusName uniqueID);
                   ARequestName (dbusName uniqueID);
                   ACall (dbusName uniqueID) (dbusPath uniqueID)
                     (dbusName uniqueID +:+ ".SendMessage") serialized]).
Proof.
  unfold SetupSingleInstance, bind, act, ret, os_Exit.
  destruct (ConnectSessionBus B) as [e|]; cbn.
  { split; [now left|]. split; [discriminate|]. intros (H & _). discriminate. }
  destruct (conn_Export B (dbusPath uniqueID) (dbusName uniqueID)) as [e|]; cbn.
  { split; [now left|]. split; [discriminate|]. intros (_ & H & _). discriminate. }
  destruct (conn_RequestName B (dbusName uniqueID)) as [reply | e]; cbn.
  2:{ split; [now left|]. split; [discriminate|]. intros (_ & _ & H & _). discriminate. }
  destruct reply; cbn;
    try (split; [now left|]; split; [discriminate|]; intros (_ & _ & H & _); discriminate).
  destruct (os_Getwd B) as [wd | e]; cbn.
  2:{ split; [now left|]. split; [discriminate|].
      intros (_ & _ & _ & wd & s & H & _). discriminate. }
  destruct (json_Marshal B {| Args := tail (os_Args B); WorkingDirectory := wd |})
    as [serialized | e] eqn:Hm; cbn.
  2:{ split; [now left|]. split; [discriminate|].
      intros (_ & _ & _ & wd' & s & Hw & Hs & _). inversion Hw; subst.
      rewrite Hm in Hs. discriminate. }
  destruct (object_Call B (dbusName uniqueID) (dbusPath uniqueID)
              (dbusName uniqueID +:+ ".SendMessage") serialized) as [e|] eqn:Hc; cbn.
  { split; [now left|]. split; [discriminate|].
    intros (_ & _ & _ & wd' & s & Hw & Hs & Hcall & _). inversion Hw; subst.
    rewrite Hm in Hs. inversion Hs; subst. rewrite Hc in Hcall. discriminate. }
  split; [now right|]. split; [|reflexivity]. intros _.
  repeat split. exists wd, serialized. repeat split; try assumption.
  rewrite <- !app_assoc. reflexivity.
Qed.

End SingleInstanceProps.

(** ** The dev command as a whole *)

Module AppProps.
Import App.

Lemma hoare_lift {R} (m : IO R) (P : World -> Prop) (Q : R -> World -> Prop)
    (K X : World -> Prop) (C : list Call -> Prop) :
  hoare P m Q K X ->
  hoare (fun s => P (world s) /\ C (calls s)) (lift m)
    (fun a s => Q a (world s) /\ C (calls s))
    (fun s => K (world s) /\ C (calls s))
    (fun s => X (world s) /\ C (calls s)).
Proof.
  intros H s [Hp Hc]. unfold lift. specialize (H (world s) Hp).
  destruct (m (world s)) as [[a | |] w']; cbn; auto.
Qed.

(** *** The stop function of the watcher command *)

Lemma tally_snoc (d : list Call) (c : Call) :
  is_closer c = false -> started_ok c = false -> is_cancel c = false ->
  tally (d ++ [c]) = tally d.
Proof.
  intros H1 H2 H3. unfold tally. rewrite !existsb_app. cbn.
  rewrite H1, H2, H3, !orb_false_r. reflexivity.
Qed.

Lemma tallied_lift {R} s0 b (m : IO R) :
  hoare (tallied s0 b) (lift m) (fun _ => tallied s0 b) (tallied s0 b) (tallied s0 b).
Proof.
  intros s H. unfold lift. destruct (m (world s)) as [[a | |] w']; exact H.
Qed.

Lemma tallied_call s0 b (c : Call) :
  is_closer c = false -> started_ok c = false -> is_cancel c = false ->
  hoare (tallied s0 b) (call c) (fun _ => tallied s0 b) (tallied s0 b) (tallied s0 b).
Proof.
  intros H1 H2 H3 s (d & Hd & Ht). exists (d ++ [c]). cbn. split.
  - rewrite Hd, app_assoc. reflexivity.
  - rewrite tally_snoc; assumption.
Qed.

(** Code made of [lift], of calls that the tally does not count, and of
    returns. *)
Ltac tally_steps I :=
  repeat first
    [ eapply hoare_bind with (Q1 := fun _ => I); [| intros ?]
    | match goal with
      | |- hoare _ (if ?b then _ else _) _ _ _ => destruct b
      | |- hoare _ (let '(_, _) := ?x in _) _ _ _ => destruct x
      | |- hoare _ (match ?x with _ => _ end) _ _ _ => destruct x
      end
    | apply tallied_lift
    | apply tallied_call; reflexivity
    | (intros ? ?; assumption) ].

Section Closer.

Variable E : Env.
Variable A : AppEnv.

Lemma runCommand_tallied s0 b dir exitOnError command cmdargs :
  hoare (tallied s0 b) (runCommand A dir exitOnError command cmdargs)
    (fun _ => tallied s0 b) (tallied s0 b) (tallied s0 b).
Proof. unfold runCommand. tally_steps (tallied s0 b). Qed.

Lemma serve_tallied s0 b cwd projectConfig buildOptions f legacy p appBinary events :
  hoare (tallied s0 b)
    (serve E A cwd projectConfig buildOptions f legacy p appBinary events)
    (fun _ => tallied s0 b) (tallied s0 b) (tallied s0 b).
Proof. unfold serve. tally_steps (tallied s0 b). Qed.

Lemma buildAndServe_tallied s0 b cwd projectConfig buildOptions ignoreFrontend f legacy
    events :
  hoare (tallied s0 b)
    (buildAndServe E A cwd projectConfig buildOptions ignoreFrontend f legacy events)
    (fun _ => tallied s0 b) (tallied s0 b) (tallied s0 b).
Proof.
  unfold buildAndServe.
  eapply hoare_bind with (Q1 := fun _ => tallied s0 b);
    [apply tallied_call; reflexivity | intros _].
  eapply hoare_bind with (Q1 := fun _ => tallied s0 b); [apply tallied_lift | intros r].
  destruct r as [[debugBinaryProcess appBinary] [e|]]; [intros ? ?; assumption|].
  eapply hoare_bind with (Q1 := fun _ => tallied s0 b); [apply serve_tallied | intros served].
  destruct served as [[[returned|] p] bin]; [|intros ? ?; assumption].
  tally_steps (tallied s0 b).
Qed.

Lemma tallied_not_stopped s0 st ca s : tallied s0 (false, st, ca) s -> not_stopped s0 s.
Proof. intros (d & Hd & Ht). exists d. split; [exact Hd|]. now inversion Ht. Qed.

Lemma tallied_returned s0 st ca s :
  st && negb ca = false -> tallied s0 (false, st, ca) s -> stopped_at_return s0 s.
Proof.
  intros Hb (d & Hd & Ht). exists d. split; [exact Hd|]. inversion Ht; subst.
  rewrite Hb. reflexivity.
Qed.

Lemma tallied_count s0 a b c (x : Call) (K X : State -> Prop) :
  hoare (tallied s0 (a, b, c)) (call x)
    (fun _ => tallied s0 (a || is_closer x, b || started_ok x, c || is_cancel x)) K X.
Proof.
  intros s (d & Hd & Ht). exists (d ++ [x]). cbn. split.
  - rewrite Hd, app_assoc. reflexivity.
  - unfold tally in *. rewrite !existsb_app. cbn. rewrite !orb_false_r.
    inversion Ht; subst. reflexivity.
Qed.

(** A triple whose computation keeps the tally, for code that does not call
    the stop function when it leaves. *)
Tactic Notation "weaken" open_constr(lem) :=
  eapply hoare_conseq;
    [ apply lem
    | intros ? H; exact H
    | intros ? ? H; exact H
    | intros ? H; exact (tallied_not_stopped _ _ _ _ H)
    | intros ? H; exact (tallied_not_stopped _ _ _ _ H) ].

Lemma runFrontendDevWatcherCommand_tallied s0 frontendDirectory devCommand discover :
  hoare (tallied s0 (false, false, false))
    (runFrontendDevWatcherCommand A frontendDirectory devCommand discover)
    (fun started s =>
       match started with
       | inl _ => tallied s0 (false, true, false) s
       | inr _ => exists st, tallied s0 (false, st, true) s
       end)
    (not_stopped s0) (not_stopped s0).
Proof.
  unfold runFrontendDevWatcherCommand. cbv zeta.
  destruct (watcher_Start A frontendDirectory _ _) as [e|].
  - eapply hoare_bind with (Q1 := fun _ => tallied s0 (false, false, false));
      [apply tallied_count | intros _].
    eapply hoare_bind with (Q1 := fun _ => tallied s0 (false, false, true));
      [apply tallied_count | intros _].
    intros s H. exists false. exact H.
  - eapply hoare_bind with (Q1 := fun _ => tallied s0 (false, true, false));
      [apply tallied_count | intros _].
    destruct (if discover then scanner_ViteServerURL A else Some "") as [url|].
    + eapply hoare_bind with (Q1 := fun _ => tallied s0 (false, true, false));
        [weaken (tallied_lift s0 (false, true, false)) | intros _].
      intros s H. exact H.
    + eapply hoare_bind with (Q1 := fun _ => tallied s0 (false, true, true));
        [apply tallied_count | intros _].
      intros s H. exists true. exact H.
Qed.

Lemma Application_tallied f events s0 :
  hoare (fun s => s = s0) (Application E A f events)
    (fun r s =>
       match r with
       | Some _ => stopped_at_return s0 s
       | None => not_stopped s0 s
       end)
    (not_stopped s0) (not_stopped s0).
Proof.
  assert (Hearly : forall (e : option string),
            hoare (tallied s0 (false, false, false)) (ret (Some e))
              (fun (r : option (option string)) s =>
                 match r with
                 | Some _ => stopped_at_return s0 s
                 | None => not_stopped s0 s
                 end)
              (not_stopped s0) (not_stopped s0)).
  { intros e s H. exact (tallied_returned s0 false false s eq_refl H). }
  assert (Hbs : forall cwd pc bo ig f' legacy,
            hoare (tallied s0 (false, false, false))
              (buildAndServe E A cwd pc bo ig f' legacy events)
              (fun (r : option (option string)) s =>
                 match r with
                 | Some _ => stopped_at_return s0 s
                 | None => not_stopped s0 s
                 end)
              (not_stopped s0) (not_stopped s0)).
  { intros. eapply hoare_conseq;
      [ apply (buildAndServe_tallied s0 (false, false, false))
      | intros ? H; exact H
      | intros [r|] s H;
          [exact (tallied_returned s0 false false s eq_refl H)
          | exact (tallied_not_stopped _ _ _ _ H)]
      | intros ? H; exact (tallied_not_stopped _ _ _ _ H)
      | intros ? H; exact (tallied_not_stopped _ _ _ _ H) ]. }
  unfold Application.
  destruct (os_Getwd A) as [cwd | e].
  2:{ intros s ->. cbn. exists [CPanic e]. split; reflexivity. }
  cbv zeta.
  eapply hoare_bind with (Q1 := fun _ => tallied s0 (false, false, false)); [| intros _].
  { intros s ->. cbn. eexists [_]. split; reflexivity. }
  destruct (gomod_SyncGoMod A (negb (NoSyncGoMod f))) as [e|]; [apply Hearly|].
  eapply hoare_bind with (Q1 := fun _ => tallied s0 (false, false, false)); [| intros err].
  { destruct (negb (SkipModTidy f)).
    - weaken (runCommand_tallied s0 (false, false, false)).
    - intros s H. exact H. }
  destruct err as [e|]; [apply Hearly|].
  destruct (buildtags_Parse A (Tags f)) as [userTags | e]; [|apply Hearly].
  eapply hoare_bind with (Q1 := fun _ => tallied s0 (false, false, false)); [| intros built].
  { destruct (negb (IgnoreFrontend _)).
    - eapply hoare_bind with (Q1 := fun _ => tallied s0 (false, false, false));
        [weaken (tallied_lift s0 (false, false, false)) | intros r].
      destruct r as [binary | e]; intros s H; exact H.
    - intros s H. exact H. }
  destruct built as [buildOptions | e]; [|apply Hearly].
  destruct (negb (String.eqb (DevWatcherCommand (ProjectConfig A f)) "")).
  2:{ destruct (IsFrontendDevServerURLAutoDiscovery (ProjectConfig A f));
        [apply Hearly | apply Hbs]. }
  eapply hoare_bind; [apply runFrontendDevWatcherCommand_tallied | intros started].
  destruct started as [[devServerURL devServerViteVersion] | e].
  2:{ intros s (st & H). apply (tallied_returned s0 st true s); [|exact H].
      now destruct st. }
  unfold defer.
  eapply hoare_bind with (Q1 := fun _ => tallied s0 (false, true, false)); [| intros r].
  { match goal with |- hoare _ (if ?b then _ else _) _ _ _ => destruct b end.
    - eapply hoare_bind with (Q1 := fun _ => tallied s0 (false, true, false));
        [weaken (tallied_lift s0 (false, true, false)) | intros _].
      eapply hoare_bind with (Q1 := fun _ => tallied s0 (false, true, false));
        [apply tallied_count | intros _].
      weaken (buildAndServe_tallied s0 (false, true, false)).
    - weaken (buildAndServe_tallied s0 (false, true, false)). }
  destruct r as [result|].
  - intros s (d & Hd & Ht). cbn. exists (d ++ [CCloser]). split.
    + rewrite Hd, app_assoc. reflexivity.
    + unfold tally in Ht. injection Ht as H1 H2 H3.
      rewrite !existsb_app, H2, H3. cbn. exists d. split; [reflexivity | exact H1].
  - intros s H. exact (tallied_not_stopped _ _ _ _ H).
Qed.

(** X25.  The stop function of the watcher command is called when
    [Application] returns and only then: when it has returned, the stop
    function was called exactly once, as the last call, if a watcher command
    was started and its context not cancelled at once, and not at all
    otherwise; while the loop still waits, and when the process has ended in
    a fatal error, it was not called. *)
Theorem Application_stops_the_watcher_at_the_return (f : Flags) (events : list Event)
    (s : State) :
  let r := Application E A f events s in
  exists d : list Call,
    calls (snd r) = calls s ++ d /\
    match fst r with
    | Ok (Some _) =>
        if existsb started_ok d && negb (existsb is_cancel d)
        then exists d', d = d' ++ [CCloser] /\ existsb is_closer d' = false
        else existsb is_closer d = false
    | _ => existsb is_closer d = false
    end.
Proof.
  intros r. subst r. pose proof (Application_tallied f events s s eq_refl) as H.
  destruct (Application E A f events s) as [[[result|] | | ] s']; exact H.
Qed.

End Closer.

(** *** A rule for [Application]

    What holds when [Application] is through follows from what
    [buildAndServe] does, for a property [I] that the steps before it keep:
    they only log, run commands and build the frontend. *)

Section Rule.

Variable E : Env.
Variable A : AppEnv.
Variable events : list Event.
Variable I : State -> Prop.
Variable Q : option (option string) -> State -> Prop.
Variable K X : State -> Prop.

Hypothesis I_call : forall c s, I s -> I {| world := world s; calls := calls s ++ [c] |}.
Hypothesis I_log : forall colour format fargs s,
  I s -> I {| world := emit (ELog colour format fargs) (world s); calls := calls s |}.
Hypothesis I_build : forall opts s,
  I s -> I {| world := snd (Build E opts (world s)); calls := calls s |}.
Hypothesis X_panic : forall e s,
  I s -> X {| world := world s; calls := calls s ++ [CPanic e] |}.
Hypothesis Q_early : forall e s, I s -> Q (Some (Some e)) s.
Hypothesis Q_closer : forall r s,
  Q (Some r) s -> Q (Some r) {| world := world s; calls := calls s ++ [CCloser] |}.
Hypothesis buildAndServe_rule : forall cwd pc bo ig f legacy,
  hoare I (buildAndServe E A cwd pc bo ig f legacy events) Q K X.

Lemma runCommand_rule dir command cmdargs :
  hoare I (runCommand A dir false command cmdargs) (fun _ => I) K X.
Proof using I_call I_log.
  unfold runCommand.
  eapply hoare_bind with (Q1 := fun _ => I); [| intros _].
  { intros s H. apply I_log. exact H. }
  destruct (cmd_CombinedOutput A dir command cmdargs) as [output [e|]].
  - eapply hoare_bind with (Q1 := fun _ => I); [| intros _].
    { intros s H. apply I_call. exact H. }
    eapply hoare_bind with (Q1 := fun _ => I); [| intros _].
    { intros s H. apply I_call. exact H. }
    eapply hoare_bind with (Q1 := fun _ => I); [| intros _].
    { intros s H. apply I_call. exact H. }
    intros s H. exact H.
  - eapply hoare_bind with (Q1 := fun _ => I); [| intros _].
    { intros s H. apply I_call. exact H. }
    intros s H. exact H.
Qed.

Lemma runFrontendDevWatcherCommand_rule frontendDirectory devCommand discover :
  hoare I (runFrontendDevWatcherCommand A frontendDirectory devCommand discover)
    (fun _ => I) K X.
Proof using I_call I_log.
  unfold runFrontendDevWatcherCommand. cbv zeta.
  eapply hoare_bind with (Q1 := fun _ => I); [| intros _].
  { intros s H. apply I_call. exact H. }
  destruct (watcher_Start A frontendDirectory _ _) as [e|].
  - eapply hoare_bind with (Q1 := fun _ => I); [| intros _].
    { intros s H. apply I_call. exact H. }
    intros s H. exact H.
  - destruct (if discover then scanner_ViteServerURL A else Some "") as [url|].
    + eapply hoare_bind with (Q1 := fun _ => I); [| intros _].
      { intros s H. apply I_log. exact H. }
      intros s H. exact H.
    + eapply hoare_bind with (Q1 := fun _ => I); [| intros _].
      { intros s H. apply I_call. exact H. }
      intros s H. exact H.
Qed.

Lemma Application_rule f : hoare I (Application E A f events) Q K X.
Proof using I_call I_log I_build X_panic Q_early Q_closer buildAndServe_rule.
  unfold Application.
  destruct (os_Getwd A) as [cwd | e].
  2:{ intros s H. apply X_panic. exact H. }
  cbv zeta.
  eapply hoare_bind with (Q1 := fun _ => I); [| intros _].
  { intros s H. apply I_call. exact H. }
  destruct (gomod_SyncGoMod A (negb (NoSyncGoMod f))) as [e|];
    [intros s H; apply Q_early; exact H|].
  eapply hoare_bind with (Q1 := fun _ => I); [| intros err].
  { destruct (negb (SkipModTidy f)); [apply runCommand_rule | intros s H; exact H]. }
  destruct err as [e|]; [intros s H; apply Q_early; exact H|].
  destruct (buildtags_Parse A (Tags f)) as [userTags | e];
    [|intros s H; apply Q_early; exact H].
  eapply hoare_bind with (Q1 := fun _ => I); [| intros built].
  { destruct (negb (IgnoreFrontend _)); [|intros s H; exact H].
    intros s H. unfold bind, lift.
    pose proof (I_build (set_IgnoreApplication true
                           (set_UserTags userTags (GenerateBuildOptions A f))) s H) as Hb.
    rewrite Build_runs in Hb |- *. cbn [fst snd] in Hb |- *.
    destruct (build_Build E _ (world s)); exact Hb. }
  destruct built as [buildOptions | e]; [|intros s H; apply Q_early; exact H].
  destruct (negb (String.eqb (DevWatcherCommand (ProjectConfig A f)) "")).
  2:{ destruct (IsFrontendDevServerURLAutoDiscovery (ProjectConfig A f));
        [intros s H; apply Q_early; exact H | apply buildAndServe_rule]. }
  eapply hoare_bind with (Q1 := fun _ => I);
    [apply runFrontendDevWatcherCommand_rule | intros started].
  destruct started as [[devServerURL devServerViteVersion] | e];
    [|intros s H; apply Q_early; exact H].
  unfold defer.
  eapply hoare_bind with (Q1 := Q); [| intros r].
  { match goal with |- hoare _ (if ?b then _ else _) _ _ _ => destruct b end.
    - eapply hoare_bind with (Q1 := fun _ => I); [| intros _].
      { intros s H. apply I_log. exact H. }
      eapply hoare_bind with (Q1 := fun _ => I); [| intros _].
      { intros s H. apply I_call. exact H. }
      apply buildAndServe_rule.
    - apply buildAndServe_rule. }
  destruct r as [result|].
  - intros s H. apply Q_closer. exact H.
  - intros s H. exact H.
Qed.

End Rule.

Lemma lift_world {R} (m : IO R) (P : World -> Prop) (Q : R -> World -> Prop) :
  hoare P m Q (fun _ => True) (fun _ => True) ->
  hoare (fun s => P (world s)) (lift m) (fun a s => Q a (world s))
    (fun _ => True) (fun _ => True).
Proof.
  intros H s Hp. unfold lift. specialize (H (world s) Hp).
  destruct (m (world s)) as [[a | |] w']; cbn; auto.
Qed.

(** *** Leaving in good order *)

Section NormalExit.

Variable E : Env.
Variable A : AppEnv.

Lemma doWatcherLoop_running cwd reloadDirs opts p0 f0 url legacy events :
  hoare (running_only p0) (doWatcherLoop E cwd reloadDirs opts p0 f0 url legacy events)
    (fun r w =>
       match r with
       | Some (p, None) => running_only p w
       | _ => True
       end)
    (fun _ => True) (fun _ => True).
Proof.
  intros w H.
  pose proof (doWatcherLoop_cases E cwd reloadDirs opts p0 f0 url legacy events w) as Hc.
  destruct (doWatcherLoop E cwd reloadDirs opts p0 f0 url legacy events w)
    as [[[[p [e|]]|] | | ] w']; try exact I.
  destruct Hc as [_ Hc]. exact (Hc H).
Qed.

Lemma killProcessAndCleanupBinary_all_stopped p binary :
  hoare (running_only p) (killProcessAndCleanupBinary E p binary)
    (fun err w => err = None -> all_stopped w)
    (fun _ => True) (fun _ => True).
Proof.
  intros w H.
  destruct (killProcessAndCleanupBinary E p binary w) as [[err | |] w'] eqn:Hk;
    try exact I.
  intros ->. exact (killProcessAndCleanupBinary_stops E p binary w w' H Hk).
Qed.

Lemma serve_normal cwd projectConfig buildOptions f legacy p appBinary events :
  hoare (fun s => running_only p (world s))
    (serve E A cwd projectConfig buildOptions f legacy p appBinary events)
    (fun served s =>
       fst (fst served) = Some None ->
       snd (fst served) = None /\ snd served = "" /\
       all_stopped (world s) /\
       last (trace (world s)) = Some (ELog Green "Development mode exited" []))
    (fun _ => True) (fun _ => True).
Proof.
  unfold serve.
  eapply hoare_bind with (Q1 := fun _ s => running_only p (world s)); [| intros err].
  { destruct (Browser f); intros s H; exact H. }
  destruct err as [e|]; [intros s H; cbn; discriminate|].
  eapply hoare_bind with (Q1 := fun _ s => running_only p (world s)); [| intros _].
  { intros s H. exact H. }
  eapply hoare_bind with (Q1 := fun _ s => running_only p (world s)); [| intros _].
  { destruct (negb _); intros s H; exact H. }
  eapply hoare_bind with (Q1 := fun _ s => running_only p (world s)); [| intros _].
  { intros s H. exact H. }
  eapply hoare_bind with (Q1 := fun _ s => running_only p (world s)); [| intros _].
  { intros s H. exact H. }
  eapply hoare_bind; [apply lift_world; apply doWatcherLoop_running | intros r].
  destruct r as [[p' [e|]]|]; try (intros s H; cbn; discriminate).
  eapply hoare_bind; [apply lift_world; apply killProcessAndCleanupBinary_all_stopped
                     | intros err].
  destruct err as [e|]; [intros s H; cbn; discriminate|].
  eapply hoare_bind with
    (Q1 := fun _ s => all_stopped (world s) /\
                      last (trace (world s)) = Some (ELog Green "Development mode exited" []));
    [| intros _].
  { intros s H. cbn. split; [exact (H eq_refl) | apply last_emit]. }
  intros s [H1 H2]. cbn. auto.
Qed.

Lemma buildAndServe_normal cwd projectConfig buildOptions ignoreFrontend f legacy events :
  hoare (fun s => running_only None (world s))
    (buildAndServe E A cwd projectConfig buildOptions ignoreFrontend f legacy events)
    (fun r s =>
       r = Some None ->
       all_stopped (world s) /\
       last (trace (world s)) = Some (ELog Green "Development mode exited" []))
    (fun _ => True) (fun _ => True).
Proof.
  unfold buildAndServe.
  eapply hoare_bind with (Q1 := fun _ s => running_only None (world s)); [| intros _].
  { intros s H. exact H. }
  eapply hoare_bind.
  { apply lift_world. eapply hoare_conseq;
      [ apply (restartApp_running E) | intros w H; exact H | intros a w H; exact H
      | intros; exact I | intros; exact I ]. }
  intros [[debugBinaryProcess appBinary] [e|]];
    [intros s H; destruct debugBinaryProcess; destruct H|].
  eapply hoare_bind with
    (Q1 := fun served s =>
             fst (fst served) = Some None ->
             snd (fst served) = None /\ snd served = "" /\
             all_stopped (world s) /\
             last (trace (world s)) = Some (ELog Green "Development mode exited" []));
    [| intros served].
  { destruct debugBinaryProcess as [p|]; apply serve_normal. }
  destruct served as [[[returned|] p] bin]; [|intros s H; cbn; discriminate].
  destruct returned as [e|].
  - eapply hoare_bind with (Q1 := fun _ _ => True); [| intros err].
    { intros s _. unfold lift. destruct (fst _) as [cleanupError | |]; exact I. }
    eapply hoare_bind with (Q1 := fun _ _ => True); [| intros _].
    { destruct err as [cleanupError|]; intros s _; exact I. }
    intros s _. cbn. discriminate.
  - intros s H. destruct (H eq_refl) as (Hp & Hb & Hs & Hl). cbn in Hp, Hb. subst p bin.
    cbn. intros _. split; assumption.
Qed.

(** X26.  When [Application] returns without error, no application process
    is left running, provided none ran that it did not start; and the last
    effect on the world is the line that development mode has been left:
    the deferred cleanup, which runs after it, finds nothing to kill and
    nothing to remove. *)
Theorem Application_leaves_nothing_running (f : Flags) (events : list Event)
    (s s' : State) :
  running_only None (world s) ->
  Application E A f events s = (Ok (Some None), s') ->
  all_stopped (world s') /\
  last (trace (world s')) = Some (ELog Green "Development mode exited" []).
Proof.
  intros H0 Hrun.
  pose proof (Application_rule E A events
                (fun s => running_only None (world s))
                (fun r s =>
                   r = Some None ->
                   all_stopped (world s) /\
                   last (trace (world s)) = Some (ELog Green "Development mode exited" []))
                (fun _ => True) (fun _ => True)) as Hrule.
  assert (Hbuild : forall opts s,
            running_only None (world s) ->
            running_only None (snd (Build E opts (world s)))).
  { intros opts s1 H. rewrite Build_runs. cbn [snd].
    destruct (build_Build E opts (world s1)); exact H. }
  specialize (Hrule
                ltac:(intros c s1 H; exact H)
                ltac:(intros colour format fargs s1 H; exact H)
                Hbuild
                ltac:(intros e s1 H; exact I)
                ltac:(intros e s1 H; discriminate)
                ltac:(intros r s1 H; exact H)
                ltac:(intros; apply buildAndServe_normal)
                f s H0).
  rewrite Hrun in Hrule. exact (Hrule eq_refl).
Qed.

End NormalExit.

(** *** When the watcher cannot be created *)

Lemma started_runs_refl w0 : started_runs w0 w0.
Proof.
  exists []. split; [now rewrite app_nil_r|]. split; [reflexivity|]. intros p [].
Qed.

Lemma started_runs_emit w0 e w :
  is_kill e = false -> is_started e = false ->
  started_runs w0 w -> started_runs w0 (emit e w).
Proof.
  intros Hk Hs (d & Hd & Hf & Hr). exists (d ++ [e]). split; [|split].
  - rewrite trace_emit, Hd, app_assoc. reflexivity.
  - rewrite forallb_app, Hf. cbn. rewrite Hk. reflexivity.
  - intros p Hin. apply in_app_or in Hin as [Hin | [-> | []]].
    + exact (Hr p Hin).
    + discriminate Hs.
Qed.

Lemma started_runs_files w0 fs w : started_runs w0 w -> started_runs w0 (set_files fs w).
Proof. intros H. exact H. Qed.

Lemma started_runs_environ w0 m w :
  started_runs w0 w -> started_runs w0 (set_environ m w).
Proof. intros H. exact H. Qed.

Lemma started_runs_new w0 o w :
  started_runs w0 w ->
  started_runs w0 (set_heap (<[fresh (dom (heap w)) := o]> (heap w)) w).
Proof.
  intros (d & Hd & Hf & Hr). exists d. split; [exact Hd|]. split; [exact Hf|].
  intros p Hin. destruct (Hr p Hin) as (o' & Ho & Hrun). exists o'. split; [|exact Hrun].
  cbn. rewrite lookup_insert_ne; [exact Ho|].
  intros Heq. apply (is_fresh (dom (heap w))). rewrite Heq.
  apply elem_of_dom. eauto.
Qed.

Lemma started_runs_start w0 p cmd cmdargs pid w :
  started_runs w0 w ->
  started_runs w0
    (emit (EStart p None)
       (set_heap (<[p := {| command := cmd; args := cmdargs; PID := pid;
                            Running := true |}]> (heap w)) w)).
Proof.
  intros (d & Hd & Hf & Hr). exists (d ++ [EStart p None]). split; [|split].
  - rewrite trace_emit. cbn. rewrite Hd, app_assoc. reflexivity.
  - rewrite forallb_app, Hf. reflexivity.
  - intros q Hin. cbn. destruct (decide (q = p)) as [-> | Hne].
    + rewrite lookup_insert_eq. eauto.
    + rewrite lookup_insert_ne by congruence.
      apply in_app_or in Hin as [Hin | [Heq | []]]; [exact (Hr q Hin)|].
      congruence.
Qed.

Ltac started_solve :=
  repeat first
    [ assumption
    | apply started_runs_start
    | apply started_runs_emit; [reflexivity | reflexivity |]
    | apply started_runs_files
    | apply started_runs_environ
    | apply started_runs_new ].

Ltac started_prim :=
  let w := fresh "w" in
  let Hw := fresh "Hw" in
  intros w Hw; unfold_prims; repeat case_match; simplify_eq; cbn; started_solve.

Section WatcherFails.

Variable E : Env.
Variable A : AppEnv.
Variable e0 : string.

Hypothesis no_watcher : forall cwd reloadDirs w, initialiseWatcher E cwd reloadDirs w = inr e0.
Hypothesis browser_opens : forall url, browser_OpenURL A url = None.

Lemma restartApp_started_runs w0 opts f legacy :
  hoare (started_runs w0) (restartApp E opts None f legacy)
    (fun _ => started_runs w0) (started_runs w0) (started_runs w0).
Proof.
  unfold restartApp.
  eapply hoare_bind with (Q1 := fun _ => started_runs w0); [| intros built].
  { intros w Hw. rewrite Build_runs. destruct (build_Build E opts w); started_solve. }
  repeat first
    [ eapply hoare_bind with (Q1 := fun _ => started_runs w0); [| intros ?]
    | match goal with
      | |- hoare _ (if ?b then _ else _) _ _ _ => destruct b
      | |- hoare _ (let '(_, _) := ?x in _) _ _ _ => destruct x
      | |- hoare _ (match ?x with _ => _ end) _ _ _ => destruct x
      end
    | started_prim ].
Qed.

Lemma serve_without_watcher w0 cwd projectConfig buildOptions f legacy p appBinary events :
  hoare (fun s => started_runs w0 (world s))
    (serve E A cwd projectConfig buildOptions f legacy p appBinary events)
    (fun served s =>
       started_runs w0 (world s) /\
       exists e, served = (Some (Some e), None, appBinary))
    (fun _ => True) (fun _ => True).
Proof using no_watcher browser_opens.
  unfold serve.
  eapply hoare_bind with
    (Q1 := fun (err : option string) s =>
             match err with
             | None => started_runs w0 (world s)
             | Some _ => False
             end); [| intros err].
  { destruct (Browser f); [|intros s H; exact H].
    cbv zeta. rewrite browser_opens. intros s H. exact H. }
  destruct err as [e|]; [intros s []|].
  eapply hoare_bind with (Q1 := fun _ s => started_runs w0 (world s)); [| intros _].
  { intros s H. cbn. started_solve. }
  eapply hoare_bind with (Q1 := fun _ s => started_runs w0 (world s)); [| intros _].
  { destruct (negb _); intros s H; cbn; started_solve. }
  eapply hoare_bind with (Q1 := fun _ s => started_runs w0 (world s)); [| intros _].
  { intros s H. cbn. started_solve. }
  eapply hoare_bind with (Q1 := fun _ s => started_runs w0 (world s)); [| intros _].
  { intros s H. exact H. }
  eapply hoare_bind with
    (Q1 := fun r s => started_runs w0 (world s) /\ r = Some (None, Some e0)); [| intros r].
  { intros s H. unfold lift, doWatcherLoop. rewrite no_watcher. cbn.
    split; [started_solve | reflexivity]. }
  intros s [H ->]. cbn. eauto.
Qed.

Lemma buildAndServe_without_watcher w0 cwd projectConfig buildOptions ignoreFrontend f
    legacy events :
  hoare (fun s => started_runs w0 (world s))
    (buildAndServe E A cwd projectConfig buildOptions ignoreFrontend f legacy events)
    (fun r s => r <> Some None /\ started_runs w0 (world s))
    (fun _ => True) (fun _ => True).
Proof using no_watcher browser_opens.
  unfold buildAndServe.
  eapply hoare_bind with (Q1 := fun _ s => started_runs w0 (world s)); [| intros _].
  { intros s H. exact H. }
  eapply hoare_bind with (Q1 := fun _ s => started_runs w0 (world s)); [| intros r].
  { apply (lift_world _ (started_runs w0) (fun _ => started_runs w0)).
    eapply hoare_conseq;
      [ apply (restartApp_started_runs w0) | intros w H; exact H | intros a w H; exact H
      | intros; exact I | intros; exact I ]. }
  destruct r as [[debugBinaryProcess appBinary] [e|]];
    [intros s H; cbn; split; [discriminate | exact H]|].
  eapply hoare_bind; [apply serve_without_watcher | intros served].
  intros s (H & e & ->). unfold bind, lift, killProcessAndCleanupBinary, bind, ret, Remove.
  cbn. destruct (negb (String.eqb appBinary "")); cbn; [|split; [discriminate | exact H]].
  destruct (os_Remove E appBinary (world s)) as [[|msg]|]; cbn;
    (split; [discriminate|]); unfold LogDarkYellow, effect; cbn; started_solve.
Qed.

(** X27.  When the watcher cannot be created, [Application] returns an
    error, and the application it has built and started is left running:
    nothing was killed on the way, and every process object that was started
    runs at the return.  [doWatcherLoop] has returned no process with its
    error, and this is what the deferred cleanup gets to kill. *)
Theorem Application_leaves_the_app_running_without_watcher
    (f : Flags) (events : list Event) (s s' : State) (r : option string) :
  Application E A f events s = (Ok (Some r), s') ->
  r <> None /\
  exists d,
    trace (world s') = trace (world s) ++ d /\
    forallb (fun e => negb (is_kill e)) d = true /\
    forall p, In (EStart p None) d ->
      exists o, heap (world s') !! p = Some o /\ Running o = true.
Proof using no_watcher browser_opens.
  intros Hrun.
  pose proof (Application_rule E A events
                (fun s1 => started_runs (world s) (world s1))
                (fun r s1 => r <> Some None /\ started_runs (world s) (world s1))
                (fun _ => True) (fun _ => True)) as Hrule.
  assert (Hbuild : forall opts s1,
            started_runs (world s) (world s1) ->
            started_runs (world s) (snd (Build E opts (world s1)))).
  { intros opts s1 H. rewrite Build_runs. cbn [snd].
    destruct (build_Build E opts (world s1)); started_solve. }
  specialize (Hrule
                ltac:(intros c s1 H; exact H)
                ltac:(intros colour format fargs s1 H; cbn; started_solve)
                Hbuild
                ltac:(intros e s1 H; exact I)
                ltac:(intros e s1 H; split; [discriminate | exact H])
                ltac:(intros r1 s1 H; exact H)
                ltac:(intros; apply buildAndServe_without_watcher)
                f s (started_runs_refl (world s))).
  rewrite Hrun in Hrule. destruct Hrule as [Hr Hs]. split; [congruence | exact Hs].
Qed.

End WatcherFails.

End AppProps.

(** ** What the flags switch off *)

Section SwitchedOff.

Variable E : Env.
Variable c : LoopCfg.

Lemma app_untouched_emit p0 w0 l l' w e :
  hands_off e = true ->
  debugBinaryProcess l' = debugBinaryProcess l ->
  app_untouched p0 w0 (l, w) -> app_untouched p0 w0 (l', emit e w).
Proof.
  intros He Hl (Hp & Hh & Hf & Hv & Hx). unfold app_untouched. cbn in *.
  repeat split; try congruence.
  eapply extends_trans; [exact Hx | apply extends_emit; exact He].
Qed.

Ltac untouched_fin :=
  idtac;
  match goal with
  | H : app_untouched _ _ _ |- _ =>
      first
        [ exact H
        | apply (app_untouched_emit _ _ _ _ _ _ eq_refl eq_refl H)
        | (eapply app_untouched_emit; [reflexivity | reflexivity | exact H])
        | (destruct H as (Hp & Hh & Hf & Hv & Hx); unfold app_untouched; cbn in *;
           repeat split; try assumption;
           first [ exact Hx
                 | (eapply extends_trans;
                    [exact Hx | apply extends_emit; reflexivity]) ]) ]
  end.

Section NoGoRebuild.

Hypothesis nogorebuild : NoGoRebuild (f c) = true.

Variable p0 : option ProcRef.
Variable w0 : World.

Lemma rebuildBlock_untouched :
  hoare (app_untouched p0 w0) (rebuildBlock E c) (fun _ => app_untouched p0 w0)
    (app_untouched p0 w0) (app_untouched p0 w0).
Proof using nogorebuild.
  intros [l w] H. unfold rebuildBlock, bind, vars, assign, io, ret. cbn [fst snd].
  destruct (rebuild l); [|exact H]. rewrite nogorebuild. cbn.
  apply (app_untouched_emit p0 w0 l); [reflexivity | reflexivity | exact H].
Qed.

Lemma iteration_untouched ev :
  hoare (app_untouched p0 w0) (iteration E c ev) (fun _ => app_untouched p0 w0)
    (app_untouched p0 w0) (app_untouched p0 w0).
Proof using nogorebuild.
  destruct ev as [exitCode | err | item | | ]; cbn [iteration].
  - inv_steps (app_untouched p0 w0) untouched_fin.
  - inv_steps (app_untouched p0 w0) untouched_fin.
  - unfold onWatcherEvent, timer_Reset.
    inv_steps (app_untouched p0 w0) untouched_fin.
  - unfold onTimer.
    eapply hoare_bind with (Q1 := fun _ => app_untouched p0 w0);
      [loop_leaf untouched_fin | intros _].
    eapply hoare_bind with (Q1 := fun _ => app_untouched p0 w0);
      [apply rebuildBlock_untouched | intros _].
    unfold assetsBlock, reloadBlock.
    inv_steps (app_untouched p0 w0) untouched_fin.
  - inv_steps (app_untouched p0 w0) untouched_fin.
Qed.

Lemma loop_untouched events :
  hoare (app_untouched p0 w0) (loop E c events) (fun _ => app_untouched p0 w0)
    (app_untouched p0 w0) (app_untouched p0 w0).
Proof using nogorebuild.
  induction events as [|ev later IH]; intros s H; cbn [loop].
  - destruct (quit (fst s)); exact H.
  - destruct (quit (fst s)); [exact H|].
    pose proof (iteration_untouched ev s H) as Hit.
    destruct (iteration E c ev s) as [[[] | | ] s']; [apply IH | apply IH |]; exact Hit.
Qed.

End NoGoRebuild.

(** X28.  Under [-nogorebuild] the loop leaves the application alone:
    whatever events it serves, it holds the process it held, the process
    objects, the files and the environment are as they were, and it has
    neither called the builder nor killed or started a process. *)
Theorem nogorebuild_leaves_the_application_alone (events : list Event) (l : Loop)
    (w : World) :
  NoGoRebuild (f c) = true ->
  let res := loop E c events (l, w) in
  debugBinaryProcess (fst (snd res)) = debugBinaryProcess l /\
  heap (snd (snd res)) = heap w /\
  files (snd (snd res)) = files w /\
  environ (snd (snd res)) = environ w /\
  exists d,
    trace (snd (snd res)) = trace w ++ d /\
    forallb (fun e => not_build e && negb (is_process_op e)) d = true.
Proof.
  intros Hn res. subst res.
  assert (H0 : app_untouched (debugBinaryProcess l) w (l, w)).
  { unfold app_untouched. cbn. repeat split. apply extends_refl. }
  pose proof (loop_untouched Hn (debugBinaryProcess l) w events (l, w) H0) as H.
  destruct (loop E c events (l, w)) as [[b | | ] s']; exact H.
Qed.

Lemma assets_unasked_emit url known w0 l l' w e :
  only_to url e = true ->
  assetDir l' = assetDir l ->
  assets_unasked url known w0 (l, w) -> assets_unasked url known w0 (l', emit e w).
Proof.
  intros He Hl (Ha & Hx). unfold assets_unasked. cbn in *. split; [congruence|].
  eapply extends_trans; [exact Hx | apply extends_emit; exact He].
Qed.

Ltac unasked_fin :=
  idtac;
  match goal with
  | H : assets_unasked _ _ _ _ |- _ =>
      first
        [ exact H
        | (eapply assets_unasked_emit;
           [first [reflexivity | apply String.eqb_refl] | reflexivity | exact H]) ]
  end.

Section SkipAssetsReload.

Hypothesis skip : skipAssetsReload c = true.

Variable known : string.
Variable w0 : World.

Lemma rebuildBlock_unasked :
  hoare (assets_unasked (reloadURL c) known w0) (rebuildBlock E c)
    (fun _ => assets_unasked (reloadURL c) known w0)
    (assets_unasked (reloadURL c) known w0) (assets_unasked (reloadURL c) known w0).
Proof.
  intros [l w] H. unfold rebuildBlock, bind, vars, assign, io, ret. cbn [fst snd].
  destruct (rebuild l); [|exact H].
  destruct (NoGoRebuild (f c)).
  { cbn. eapply assets_unasked_emit; [reflexivity | reflexivity | exact H]. }
  cbn [LogGreen effect fst snd].
  set (w1 := emit (ELog Green "[Rebuild triggered] files updated" []) w).
  assert (H1 : assets_unasked (reloadURL c) known w0 (set_rebuild false l, w1)).
  { eapply assets_unasked_emit; [reflexivity | reflexivity | exact H]. }
  destruct (restartApp_effects E (only_to (reloadURL c))
              ltac:(intros e Hb Hh; destruct e; first [reflexivity | discriminate])
              (buildOptions c) (debugBinaryProcess l) (f c)
              (legacyUseDevServerInsteadofCustomScheme c) w1) as (w2 & Hx & Ht).
  assert (H3 : extends (only_to (reloadURL c)) w0
                 (snd (restartApp E (buildOptions c) (debugBinaryProcess l) (f c)
                         (legacyUseDevServerInsteadofCustomScheme c) w1))).
  { destruct H1 as [_ Hx1]. eapply extends_trans; [exact Hx1|].
    eapply extends_trans; [|exact Hx]. eexists [_]. split; [exact Ht | reflexivity]. }
  destruct H1 as [Ha _].
  destruct (restartApp E _ _ _ _ w1) as [[[[newp bin] [e|]] | | ] w3]; cbn in *.
  - split; [exact Ha|]. eapply extends_trans; [exact H3 | apply extends_emit; reflexivity].
  - destruct newp; cbn; split; assumption.
  - split; assumption.
  - split; assumption.
Qed.

Lemma assetsBlock_unasked :
  hoare (assets_unasked (reloadURL c) known w0) (assetsBlock E c)
    (fun _ => assets_unasked (reloadURL c) known w0)
    (assets_unasked (reloadURL c) known w0) (assets_unasked (reloadURL c) known w0).
Proof using skip.
  intros [l w] H. unfold assetsBlock, bind, vars. cbn [fst snd]. rewrite skip. exact H.
Qed.

Lemma iteration_unasked ev :
  hoare (assets_unasked (reloadURL c) known w0) (iteration E c ev)
    (fun _ => assets_unasked (reloadURL c) known w0)
    (assets_unasked (reloadURL c) known w0) (assets_unasked (reloadURL c) known w0).
Proof using skip.
  destruct ev as [exitCode | err | item | | ]; cbn [iteration].
  - inv_steps (assets_unasked (reloadURL c) known w0) unasked_fin.
  - inv_steps (assets_unasked (reloadURL c) known w0) unasked_fin.
  - unfold onWatcherEvent, timer_Reset.
    inv_steps (assets_unasked (reloadURL c) known w0) unasked_fin.
  - unfold onTimer.
    eapply hoare_bind with (Q1 := fun _ => assets_unasked (reloadURL c) known w0);
      [loop_leaf unasked_fin | intros _].
    eapply hoare_bind with (Q1 := fun _ => assets_unasked (reloadURL c) known w0);
      [apply rebuildBlock_unasked | intros _].
    eapply hoare_bind with (Q1 := fun _ => assets_unasked (reloadURL c) known w0);
      [apply assetsBlock_unasked | intros _].
    unfold reloadBlock.
    inv_steps (assets_unasked (reloadURL c) known w0) unasked_fin.
  - inv_steps (assets_unasked (reloadURL c) known w0) unasked_fin.
Qed.

Lemma loop_unasked events :
  hoare (assets_unasked (reloadURL c) known w0) (loop E c events)
    (fun _ => assets_unasked (reloadURL c) known w0)
    (assets_unasked (reloadURL c) known w0) (assets_unasked (reloadURL c) known w0).
Proof using skip.
  induction events as [|ev later IH]; intros s H; cbn [loop].
  - destruct (quit (fst s)); exact H.
  - destruct (quit (fst s)); [exact H|].
    pose proof (iteration_unasked ev s H) as Hit.
    destruct (iteration E c ev s) as [[[] | | ] s']; [apply IH | apply IH |]; exact Hit.
Qed.

End SkipAssetsReload.

Lemma only_to_In url d :
  forallb (only_to url) d = true -> forall to, In (EHttpGet to) d -> to = url.
Proof.
  intros H to Hin. rewrite forallb_forall in H. specialize (H _ Hin).
  now apply String.eqb_eq in H.
Qed.

(** X29.  With a frontend dev server or under [-noreload] the loop never
    asks the application for its asset directory: whatever events it serves,
    every HTTP request it sends is a reload request, and what it knows of the
    asset directory is what it knew. *)
Theorem skipped_assets_are_never_asked_for (events : list Event) (l : Loop) (w : World) :
  skipAssetsReload c = true ->
  let res := loop E c events (l, w) in
  assetDir (fst (snd res)) = assetDir l /\
  exists d,
    trace (snd (snd res)) = trace w ++ d /\
    forall url, In (EHttpGet url) d -> url = reloadURL c.
Proof.
  intros Hs res. subst res.
  assert (H0 : assets_unasked (reloadURL c) (assetDir l) w (l, w)).
  { split; [reflexivity | apply extends_refl]. }
  pose proof (loop_unasked Hs (assetDir l) w events (l, w) H0) as H.
  assert (Hgoal : forall s', assets_unasked (reloadURL c) (assetDir l) w s' ->
            assetDir (fst s') = assetDir l /\
            exists d, trace (snd s') = trace w ++ d /\
                      forall url, In (EHttpGet url) d -> url = reloadURL c).
  { intros s' (Ha & d & Hd & Hf). split; [exact Ha|]. exists d. split; [exact Hd|].
    apply only_to_In. exact Hf. }
  destruct (loop E c events (l, w)) as [[b | | ] s']; apply Hgoal; exact H.
Qed.

End SwitchedOff.

(** ** The further properties at work in the concrete project *)

Import Scenario2.

Lemma running_only_world : running_only (Some 0%nat) world.
Proof.
  intros p o H _. unfold world in H. cbn [heap] in H.
  apply lookup_singleton_Some in H as [<- _]. reflexivity.
Defined.

Lemma with_snd {A B} (p : A * B) (a : A) : fst p = a -> p = (a, snd p).
Proof. destruct p as [a' b]. cbn. intros ->. reflexivity. Defined.

(** X2 at work: the extension is configured with its dot. *)
Lemma dotted_extensions_never_match_witness :
  (forall ext, ext ∈ ({[".go"]} : gset string) -> plain ext = false) /\
  isEligibleFile {[".go"]} "/project/main.go" = false.
Proof.
  assert (H : forall ext, ext ∈ ({[".go"]} : gset string) -> plain ext = false).
  { intros ext Hext. apply elem_of_singleton in Hext. subst ext. reflexivity. }
  split; [exact H|].
  apply (dotted_extensions_never_match {[".go"]} "/project/main.go" H).
Defined.

(** X4 at work: the application has stopped of itself, its binary is still
    there. *)
Lemma killProcessAndCleanupBinary_without_running_process_witness :
  (forall p o, Some 0%nat = Some p -> heap worldStopped !! p = Some o -> Running o = false) /\
  exists r w',
    killProcessAndCleanupBinary healthy (Some 0%nat) "/project/build/bin/app-dev"
      worldStopped = (Ok r, w') /\
    r = None /\
    heap w' = heap worldStopped /\
    files w' = files worldStopped ∖ {["/project/build/bin/app-dev"]}.
Proof.
  assert (H : forall p o, Some 0%nat = Some p -> heap worldStopped !! p = Some o ->
                          Running o = false).
  { intros p o [= <-] Ho. unfold worldStopped in Ho. cbn [heap set_heap] in Ho.
    apply lookup_singleton_Some in Ho as [_ <-]. reflexivity. }
  split; [exact H|].
  destruct (killProcessAndCleanupBinary_without_running_process healthy (Some 0%nat)
              "/project/build/bin/app-dev" worldStopped H) as (r & w' & Hrun & Hh & _ & Hb).
  exists r, w'. split; [exact Hrun|].
  destruct (Hb ltac:(discriminate)) as [_ Hm].
  assert (Hrm : os_Remove healthy "/project/build/bin/app-dev" worldStopped = None)
    by (vm_compute; reflexivity).
  rewrite Hrm in Hm. destruct Hm as [Hr Hf]. split; [exact Hr|]. split; [exact Hh | exact Hf].
Defined.


(** X18 at work: without [-dlv] the binary is started with the parsed
    arguments. *)
Lemma restartApp_command_line_witness :
  let r := restartApp healthy (buildOptions (cfg false)) (Some 0%nat) (flags false) false
             world in
  fst r = Ok (Some 1%nat, "/project/build/bin/app-dev", None) /\
  exists pid,
    heap (snd r) !! 1%nat =
    Some {| command := "/project/build/bin/app-dev"; args := []; PID := pid;
            Running := true |}.
Proof.
  intros r. split; [vm_compute; reflexivity|].
  destruct (restartApp_command_line healthy (buildOptions (cfg false)) (Some 0%nat)
              (flags false) false world (snd r) 1%nat "/project/build/bin/app-dev" None)
    as (parsed & pid & Hp & Hh).
  { apply (with_snd r). vm_compute. reflexivity. }
  exists pid. cbn in Hp. injection Hp as <-. exact Hh.
Defined.

(** X6 at work: a write and a rebuild in the concrete project. *)
Lemma loop_holds_the_only_running_process_witness :
  running_only (debugBinaryProcess idle) world /\
  running_only
    (debugBinaryProcess
       (fst (snd (loop healthy (cfg false) [write "/project/main.go"; TimerC]
                    (idle, world)))))
    (snd (snd (loop healthy (cfg false) [write "/project/main.go"; TimerC] (idle, world)))).
Proof.
  split; [exact running_only_world|].
  apply (loop_holds_the_only_running_process healthy (cfg false)
           [write "/project/main.go"; TimerC] idle world).
  exact running_only_world.
Defined.

(** X9 at work: the asset directory is known when the timer fires. *)
Lemma asset_directory_is_resolved_once_witness :
  assetDir assetsKnown <> "" /\
  snd (snd (assetsBlock healthy (cfg false) (assetsKnown, world))) = world /\
  assetDir (fst (snd (loop healthy (cfg false) [write "/project/src/a.js"; TimerC]
                        (assetsKnown, world)))) = "/project/frontend/dist".
Proof.
  split; [discriminate|].
  apply (asset_directory_is_resolved_once healthy (cfg false)
           [write "/project/src/a.js"; TimerC] assetsKnown world).
  discriminate.
Defined.

(** X10 at work: a Go file is created. *)
Lemma eligible_create_is_like_write_witness :
  (("/project/created.go" ∉ dirs world) /\
   isEligibleFile (extensionsThatTriggerARebuild (cfg false)) "/project/created.go" = true) /\
  iteration healthy (cfg false) (create "/project/created.go") (idle, world) =
  (Continue, (set_timer_armed true (set_rebuild true idle),
              emit (ETimerReset (interval (cfg false))) world)).
Proof.
  assert (Hd : "/project/created.go" ∉ dirs world)
    by (apply not_in_dirs_world; vm_compute; reflexivity).
  split; [split; [exact Hd | reflexivity]|].
  apply (eligible_create_is_like_write healthy (cfg false)
           {| Name := "/project/created.go"; Op := fsnotify.Create |} idle world);
    first [exact Hd | reflexivity | right; reflexivity].
Defined.

(** X12 at work: two writes under the reload directory. *)
Lemma reload_writes_coalesce_witness :
  Forall (reloadWrite (cfg false) world)
    [{| Name := "/project/src/a.js"; Op := fsnotify.Write |};
     {| Name := "/project/src/a.js"; Op := fsnotify.Write |}] /\
  let res := loop healthy (cfg false)
               [write "/project/src/a.js"; write "/project/src/a.js"; TimerC]
               (idle, world) in
  fst res = Ok false /\
  reload (fst (snd res)) = false /\
  exists d,
    trace (snd (snd res)) =
      trace world ++ [ETimerReset 100; ETimerReset 100;
                      EHttpGet "http://localhost:34115/wails/reload"] ++ d /\
    forallb quiet d = true.
Proof.
  assert (Hall : Forall (reloadWrite (cfg false) world)
                   [{| Name := "/project/src/a.js"; Op := fsnotify.Write |};
                    {| Name := "/project/src/a.js"; Op := fsnotify.Write |}]).
  { repeat constructor; apply not_in_dirs_world; vm_compute; reflexivity. }
  split; [exact Hall|].
  exact (reload_writes_coalesce healthy (cfg false) _ idle world
           (@not_eq_sym _ _ _ (@nil_cons _ _ _)) eq_refl eq_refl eq_refl Hall).
Defined.

(** X11 at work: a file is removed and renamed. *)
Lemma other_operations_are_ignored_witness :
  Z.land (Z.lor fsnotify.Remove fsnotify.Rename) (Z.lor fsnotify.Create fsnotify.Write) = 0 /\
  iteration healthy (cfg false)
    (WatcherEvent {| Name := "/project/main.go";
                     Op := Z.lor fsnotify.Remove fsnotify.Rename |})
    (rebuildPending, world) = (Ok tt, (rebuildPending, world)).
Proof.
  split; [reflexivity|].
  apply (other_operations_are_ignored healthy (cfg false)
           {| Name := "/project/main.go"; Op := Z.lor fsnotify.Remove fsnotify.Rename |}
           rebuildPending world).
  reflexivity.
Defined.

(** X14 at work: two racing calls and a late third one have all returned. *)
Lemma stop_returns_after_the_goroutine_witness :
  exists s,
    FrontendWatcher.run stopTwiceAndAgain FrontendWatcher.init = Some s /\
    FrontendWatcher.closers s !! 2%nat = Some FrontendWatcher.CEnd /\
    FrontendWatcher.cancelled s = true /\
    FrontendWatcher.goroutine s = FrontendWatcher.GEnd /\
    FrontendWatcher.wg s = 0%nat /\
    FrontendWatcher.state s = FrontendWatcher.stateStopped.
Proof.
  eexists. split; [vm_compute; reflexivity|]. split; [reflexivity|].
  eapply (FrontendWatcherMore.stop_returns_after_the_goroutine stopTwiceAndAgain _ 2%nat).
  - vm_compute. reflexivity.
  - reflexivity.
Defined.

(** X15 at work: the watcher command dies of itself and is reported; it is
    killed on purpose and is not. *)
Lemma watcher_error_reported_only_if_not_stopped_witness :
  (exists s,
     FrontendWatcher.run watcherDies FrontendWatcher.init = Some s /\
     FrontendWatcher.errorLogs s = ["exit status 2"] /\
     FrontendWatcher.killSignals s = 0%nat) /\
  (exists s,
     FrontendWatcher.run stopTwiceAndAgain FrontendWatcher.init = Some s /\
     FrontendWatcher.errorLogs s = []).
Proof.
  split.
  - eexists. split; [vm_compute; reflexivity|]. split; [reflexivity|].
    destruct (FrontendWatcherMore.watcher_error_reported_only_if_not_stopped watcherDies _
                ltac:(vm_compute; reflexivity)) as [Hno | (err & _ & _ & _ & Hk & _)].
    + discriminate Hno.
    + exact Hk.
  - eexists. split; [vm_compute; reflexivity|]. reflexivity.
Defined.

(** X16 at work: before and after the watcher command has died. *)
Lemma state_only_moves_forward_witness :
  exists s s',
    FrontendWatcher.run (firstn 7 stopTwiceAndAgain) FrontendWatcher.init = Some s /\
    FrontendWatcher.run (skipn 7 stopTwiceAndAgain) s = Some s' /\
    FrontendWatcher.state s = FrontendWatcher.stateCanceling /\
    FrontendWatcher.state s <= FrontendWatcher.state s' <= FrontendWatcher.stateStopped.
Proof.
  eexists. eexists. split; [vm_compute; reflexivity|]. split; [vm_compute; reflexivity|].
  split; [reflexivity|].
  eapply (FrontendWatcherMore.state_only_moves_forward (firstn 7 stopTwiceAndAgain)
            (skipn 7 stopTwiceAndAgain)).
  - vm_compute. reflexivity.
  - vm_compute. reflexivity.
Defined.

(** X19 at work: the running application cannot be killed. *)
Lemma restartApp_fatal_exits_witness :
  let r := restartApp unkillable (buildOptions (cfg false)) (Some 0%nat) (flags false) false
             world in
  fst r = Exit /\
  exists (appBinary fmt : string) (fargs : list LogArg),
    build_Build unkillable (buildOptions (cfg false)) world = inl appBinary /\
    last (trace (snd r)) = Some (EFatal fmt fargs) /\
    ((fmt = "Unable to kill debug binary (PID: %d)!" /\
      heap (snd r) = heap world /\ environ (snd r) = environ world /\
      appBinary ∈ files (snd r)) \/
     (fmt = "Unable to parse appargs: %s" /\
      environ (snd r) = environ world /\ appBinary ∈ files (snd r)) \/
     (fmt = "Unable to delete app binary: " +:+ appBinary /\
      exported (flags false) (snd r) /\ appBinary ∈ files (snd r)) \/
     (fmt = "Unable to start application: %s" /\
      exported (flags false) (snd r) /\ appBinary ∉ files (snd r))).
Proof.
  intros r. split; [vm_compute; reflexivity|].
  apply (restartApp_fatal_exits unkillable (buildOptions (cfg false)) (Some 0%nat)
           (flags false) false world (snd r)).
  apply (with_snd r). vm_compute. reflexivity.
Defined.

(** X21 at work: the application is rebuilt, exits with status 0, and the
    loop's process is cleaned up. *)
Lemma shutdown_leaves_nothing_running_witness :
  let r1 := doWatcherLoop healthy "/project" "" (buildOptions (cfg false)) (Some 0%nat)
              (flags false) devServerURL false rebuildAndQuit world in
  let r2 := killProcessAndCleanupBinary healthy (Some 1%nat) "/project/build/bin/app-dev"
              (snd r1) in
  running_only (Some 0%nat) world /\
  fst r1 = Ok (Some (Some 1%nat, None)) /\
  fst r2 = Ok None /\
  forall q o, heap (snd r2) !! q = Some o -> Running o = false.
Proof.
  intros r1 r2. split; [exact running_only_world|].
  split; [vm_compute; reflexivity|]. split; [vm_compute; reflexivity|].
  apply (shutdown_leaves_nothing_running healthy "/project" "" (buildOptions (cfg false))
           (Some 0%nat) (flags false) devServerURL false rebuildAndQuit world (snd r1) (snd r2)
           (Some 1%nat) "/project/build/bin/app-dev").
  - exact running_only_world.
  - apply (with_snd r1). vm_compute. reflexivity.
  - apply (with_snd r2). vm_compute. reflexivity.
Defined.

(** X23 at work: an id with both characters, and one with neither. *)
Lemma id_is_clean_witness :
  SingleInstance.clean "myapp" = true /\
  SingleInstance.id "myapp" = "wails_app_myapp" /\
  SingleInstance.clean (SingleInstance.id "com.example.my-app") = true.
Proof.
  split; [reflexivity|]. split.
  - apply (proj2 (SingleInstanceProps.id_is_clean "myapp")). reflexivity.
  - exact (proj1 (SingleInstanceProps.id_is_clean "com.example.my-app")).
Defined.

Lemma running_only_worldFresh : running_only None worldFresh.
Proof.
  intros p o H _. unfold worldFresh in H. cbn [heap set_heap] in H.
  rewrite lookup_empty in H. discriminate H.
Defined.

(** X26 at work: the dev command is started, and the application exits with
    status 0. *)
Lemma Application_leaves_nothing_running_witness :
  let r := App.Application healthy appEnv appFlags [ExitCode 0] start in
  running_only None (App.world start) /\
  fst r = Ok (Some None) /\
  App.all_stopped (App.world (snd r)) /\
  last (trace (App.world (snd r))) = Some (ELog Green "Development mode exited" []).
Proof.
  intros r. split; [exact running_only_worldFresh|].
  split; [vm_compute; reflexivity|].
  apply (AppProps.Application_leaves_nothing_running healthy appEnv appFlags [ExitCode 0]
           start (snd r)).
  - exact running_only_worldFresh.
  - apply (with_snd r). vm_compute. reflexivity.
Defined.

(** X27 at work: the dev command is started where no watcher can be
    created. *)
Lemma Application_leaves_the_app_running_without_watcher_witness :
  let r := App.Application noWatcher appEnv appFlags [] start in
  ((forall cwd reloadDirs w,
      initialiseWatcher noWatcher cwd reloadDirs w = inr "too many open files") /\
   (forall url, App.browser_OpenURL appEnv url = None)) /\
  fst r = Ok (Some (Some "too many open files")) /\
  exists d,
    trace (App.world (snd r)) = trace (App.world start) ++ d /\
    forallb (fun e => negb (App.is_kill e)) d = true /\
    forall p, In (EStart p None) d ->
      exists o, heap (App.world (snd r)) !! p = Some o /\ Running o = true.
Proof.
  intros r. split; [split; intros; reflexivity|].
  split; [vm_compute; reflexivity|].
  apply (AppProps.Application_leaves_the_app_running_without_watcher noWatcher appEnv
           "too many open files"
           ltac:(intros; reflexivity) ltac:(intros; reflexivity)
           appFlags [] start (snd r) (Some "too many open files")).
  apply (with_snd r). vm_compute. reflexivity.
Defined.

(** X28 at work: under [-nogorebuild] a Go file is written and the timer
    fires. *)
Lemma nogorebuild_leaves_the_application_alone_witness :
  let res := loop healthy (cfg true) [write "/project/main.go"; TimerC] (idle, world) in
  NoGoRebuild (f (cfg true)) = true /\
  debugBinaryProcess (fst (snd res)) = Some 0%nat /\
  heap (snd (snd res)) = heap world /\
  files (snd (snd res)) = files world /\
  environ (snd (snd res)) = environ world /\
  exists d,
    trace (snd (snd res)) = trace world ++ d /\
    forallb (fun e => not_build e && negb (is_process_op e)) d = true.
Proof.
  intros res. split; [reflexivity|].
  apply (nogorebuild_leaves_the_application_alone healthy (cfg true)
           [write "/project/main.go"; TimerC] idle world).
  reflexivity.
Defined.

(** X29 at work: with the reloading of assets switched off, a file outside
    the reload directories and one inside are written, and the timer
    fires. *)
Lemma skipped_assets_are_never_asked_for_witness :
  let res := loop healthy cfgNoReload
               [write "/project/notes/todo.txt"; write "/project/src/a.js"; TimerC]
               (idle, world) in
  skipAssetsReload cfgNoReload = true /\
  assetDir (fst (snd res)) = "" /\
  exists d,
    trace (snd (snd res)) = trace world ++ d /\
    forall url, In (EHttpGet url) d -> url = "http://localhost:34115/wails/reload".
Proof.
  intros res. split; [reflexivity|].
  apply (skipped_assets_are_never_asked_for healthy cfgNoReload
           [write "/project/notes/todo.txt"; write "/project/src/a.js"; TimerC]
           idle world).
  reflexivity.
Defined.
